(** * Calendar + Screener Compiler: a shallow embedding of [app.py]

    The program reads two tables (a calendar export and a screener export),
    maps their headers onto two fixed schemas, joins them on a key derived
    from the EMAIL column, and writes one merged table.

    Text is modelled as [string] over 8-bit characters, read as the Unicode
    code points below 256, with Python's [str.lower], [str.strip] and
    [str.isspace] on that range.  Tables are modelled column-major, the way
    pandas stores them: a row count and an ordered list of labelled columns,
    where labels may repeat.  pandas calls are modelled by their documented
    behaviour ([merge] keeping the order of the left keys and pairing
    missing keys with each other).  The one call of the program whose result
    depends on the pandas release is [astype(str)] on a missing value; the
    repository pins no release, so the model takes the rule as a parameter
    and the properties are stated for either rule. *)

From Stdlib Require Import String Ascii List Bool Arith Lia Sorted.
From stdpp Require Import gmap strings list.

Open Scope string_scope.

(** ** Text *)

Section Text.

(** [str.isspace] on one character: TAB..CR, FS..US, space, NEL, NBSP. *)
Definition isspace (c : ascii) : bool :=
  let n := nat_of_ascii c in
  (((9 <=? n) && (n <=? 13)) || ((28 <=? n) && (n <=? 32))
  || (n =? 133) || (n =? 160))%nat.

(** [str.lower] on one character: A..Z and the Latin-1 capitals. *)
Definition lower_char (c : ascii) : ascii :=
  let n := nat_of_ascii c in
  if (((65 <=? n) && (n <=? 90))
      || ((192 <=? n) && (n <=? 222) && negb (n =? 215)))%nat
  then ascii_of_nat (n + 32)
  else c.

(** [s.lower()] *)
Fixpoint lower (s : string) : string :=
  match s with
  | EmptyString => EmptyString
  | String c s' => String (lower_char c) (lower s')
  end.

Fixpoint lstrip_by (p : ascii -> bool) (s : string) : string :=
  match s with
  | EmptyString => EmptyString
  | String c s' => if p c then lstrip_by p s' else s
  end.

Fixpoint rstrip_by (p : ascii -> bool) (s : string) : string :=
  match s with
  | EmptyString => EmptyString
  | String c s' =>
      match rstrip_by p s' with
      | EmptyString => if p c then EmptyString else String c EmptyString
      | r => String c r
      end
  end.

(** [s.strip(chars)], the set of characters given as a predicate. *)
Definition strip_by (p : ascii -> bool) (s : string) : string :=
  rstrip_by p (lstrip_by p s).

(** [s.strip()] *)
Definition strip (s : string) : string := strip_by isspace s.

Fixpoint all_chars (p : ascii -> bool) (s : string) : bool :=
  match s with
  | EmptyString => true
  | String c s' => p c && all_chars p s'
  end.

Definition is_empty (s : string) : bool :=
  match s with EmptyString => true | _ => false end.

(** [sub in s] for two strings. *)
Fixpoint contains (sub s : string) : bool :=
  String.prefix sub s
  || match s with
     | EmptyString => false
     | String _ s' => contains sub s'
     end.

(** The last character of a text, if any. *)
Fixpoint last_char (s : string) : option ascii :=
  match s with
  | EmptyString => None
  | String c EmptyString => Some c
  | String _ s' => last_char s'
  end.

(** [s.rfind(c)] for a single character; [None] stands for -1. *)
Fixpoint rfind (c : ascii) (s : string) : option nat :=
  match s with
  | EmptyString => None
  | String a s' =>
      match rfind c s' with
      | Some i => Some (S i)
      | None => if Ascii.eqb a c then Some 0 else None
      end
  end.

End Text.

(** ** The project label: [best_project_name] *)

Section ProjectName.

(** [os.path.basename] (posixpath): everything after the last slash. *)
Definition basename (p : string) : string :=
  match rfind "/" p with
  | Some i => String.substring (S i) (String.length p - S i) p
  | None => p
  end.

(** First component of [os.path.splitext] (posixpath): the last dot starts
    the extension unless only dots stand between the last slash and it. *)
Definition splitext_root (p : string) : string :=
  match rfind "." p with
  | None => p
  | Some dot =>
      let start := match rfind "/" p with Some i => S i | None => 0 end in
      if (start <=? dot)%nat
         && negb (all_chars (Ascii.eqb ".") (String.substring start (dot - start) p))
      then String.substring 0 dot p
      else p
  end.

(** The two patterns are raw strings in which every backslash is doubled:
    [r"(?i)\\bcalendar\\b|..."] and [r"\\s+"].  To the regex engine a
    doubled backslash is one literal backslash, so the first pattern is an
    alternation of four literal texts, each a backslash, the letter b, the
    word, a backslash and the letter b; the second is a literal backslash
    followed by one or more letters s. *)
Definition token_patterns : list string :=
  [ "\bcalendar\b"; "\bcalender\b"; "\bscreener\b"; "\bcopy\b" ].

(** Does [pat] match at the start of [s], ignoring case? *)
Fixpoint imatch_prefix (pat s : string) : bool :=
  match pat, s with
  | EmptyString, _ => true
  | String p pat', String c s' =>
      Ascii.eqb (lower_char p) (lower_char c) && imatch_prefix pat' s'
  | String _ _, EmptyString => false
  end.

(** [re.sub(alternation of literals, "", s)]: leftmost match, alternatives
    tried in order, the matched text dropped.  [skip] counts the characters
    of the current match still to be dropped. *)
Fixpoint re_sub_literals (pats : list string) (skip : nat) (s : string) : string :=
  match s with
  | EmptyString => EmptyString
  | String c s' =>
      match skip with
      | S k => re_sub_literals pats k s'
      | O =>
          match List.find (fun p => imatch_prefix p s) pats with
          | Some p => re_sub_literals pats (String.length p - 1) s'
          | None => String c (re_sub_literals pats 0 s')
          end
      end
  end.

Definition starts_with (c : ascii) (s : string) : bool :=
  match s with
  | String a _ => Ascii.eqb a c
  | EmptyString => false
  end.

(** [re.sub(r"\\s+", " ", s)]: a backslash with the run of letters s after
    it becomes one space.  [inside] is set while that run is consumed. *)
Fixpoint re_sub_backslash_s (inside : bool) (s : string) : string :=
  match s with
  | EmptyString => EmptyString
  | String c s' =>
      if inside && Ascii.eqb c "s" then re_sub_backslash_s true s'
      else if Ascii.eqb c "\" && starts_with "s" s'
           then String " " (re_sub_backslash_s true s')
           else String c (re_sub_backslash_s false s')
  end.

Definition is_trim_char (c : ascii) : bool :=
  Ascii.eqb c " " || Ascii.eqb c "-" || Ascii.eqb c "_".

Definition best_project_name (name : string) : string :=
  let stem := splitext_root (basename name) in
  let stem := re_sub_literals token_patterns 0 stem in
  let stem := strip_by is_trim_char (re_sub_backslash_s false stem) in
  if is_empty stem then "Project" else stem.

End ProjectName.

(** ** The join key: [astype(str).str.strip().str.lower()] on text *)

Definition email_key_text (s : string) : string := lower (strip s).

(** ** Tables *)

(** A cell is text or one of the two missing markers the program meets:
    [NaN], which the readers produce for a blank cell, and [NA] ([pd.NA]),
    which [coalesce_columns] writes. *)
Inductive cell : Type :=
  | NaN
  | NA
  | Str (s : string).

#[global] Instance cell_eq_dec : EqDecision cell.
Proof. solve_decision. Defined.

(** [pd.isna] *)
Definition isna (v : cell) : bool :=
  match v with Str _ => false | _ => true end.

(** What [astype(str)] does to a missing value depends on the pandas
    release.  Up to the 2.x series the value is printed, [NaN] as "nan" and
    [pd.NA] as "<NA>", and the result holds text only.  From 3.0 on the
    result is a string column in which the value stays missing. *)
Inductive astype_rule : Type := prints_missing | keeps_missing.

Record Column : Type := mkColumn { name : string; data : list cell }.

(** Column labels may repeat; every column holds [nrows] cells. *)
Record DataFrame : Type := mkFrame { nrows : nat; cols : list Column }.

Definition names (df : DataFrame) : list string := List.map name (cols df).

Definition has_label (l : string) (c : Column) : bool := String.eqb (name c) l.

Definition mem (l : string) (ls : list string) : bool :=
  existsb (String.eqb l) ls.

(** Errors the pandas calls of the program can raise. *)
Inductive exn : Type := KeyError | AttributeError | ValueError | MergeError.

Inductive result (A : Type) : Type :=
  | Ok (a : A)
  | Raise (e : exn).
Arguments Ok {A} a.
Arguments Raise {A} e.

Definition bind {A B : Type} (m : result A) (k : A -> result B) : result B :=
  match m with
  | Ok a => k a
  | Raise e => Raise e
  end.

Notation "'try' x <- m ; k" := (bind m (fun x => k))
  (at level 10, x name, m at level 100, k at level 200,
   format "'[v' 'try'  x  <-  m ; '/' k ']'").

Section Pandas.

(** [df.rename(columns={old: new})]: every column labelled [old]. *)
Definition rename_column (df : DataFrame) (old new : string) : DataFrame :=
  mkFrame (nrows df)
    (List.map (fun c => if has_label old c then mkColumn new (data c) else c)
              (cols df)).

(** [df[l] = vals]: every column labelled [l] is overwritten; a new
    column is appended when there is none. *)
Definition setitem_column (df : DataFrame) (l : string) (vals : list cell)
  : DataFrame :=
  if mem l (names df)
  then mkFrame (nrows df)
         (List.map (fun c => if has_label l c then mkColumn l vals else c)
                   (cols df))
  else mkFrame (nrows df) (cols df ++ [mkColumn l vals]).

(** [df[l] = v] for a scalar [v]. *)
Definition setitem_scalar (df : DataFrame) (l : string) (v : cell) : DataFrame :=
  setitem_column df l (repeat v (nrows df)).

(** [df[labels]] for a list of labels: a missing label raises [KeyError];
    a label selects every column that carries it. *)
Definition getitem_labels (df : DataFrame) (labels : list string)
  : result DataFrame :=
  if forallb (fun l => mem l (names df)) labels
  then Ok (mkFrame (nrows df)
             (flat_map (fun l => List.filter (has_label l) (cols df)) labels))
  else Raise KeyError.

(** [df.drop(columns=labels)] for labels known to be present, and with
    [errors="ignore"]. *)
Definition drop_columns (df : DataFrame) (labels : list string) : DataFrame :=
  mkFrame (nrows df)
    (List.filter (fun c => negb (mem (name c) labels)) (cols df)).

(** [pd.concat([a, b], axis=1)] of two frames over the same index. *)
Definition concat_axis1 (a b : DataFrame) : DataFrame :=
  mkFrame (nrows a) (cols a ++ cols b).

(** Rows picked by position, as [take] does on every column. *)
Definition take (idx : list nat) (c : Column) : Column :=
  mkColumn (name c) (List.map (fun i => nth i (data c) NaN) idx).

Definition take_rows (idx : list nat) (df : DataFrame) : DataFrame :=
  mkFrame (length idx) (List.map (take idx) (cols df)).

End Pandas.

(** ** The Column Normalizer: [coalesce_columns] *)

Section Normalizer.

(** A schema is a Python dict from target to aliases, read in insertion
    order; its keys are distinct. *)
Definition schema : Type := list (string * list string).

(** [{str(c).lower(): c for c in out.columns}]: a later header with the
    same lowercased text replaces the earlier one. *)
Definition existing_lower_of (headers : list string) : gmap string string :=
  foldl (fun m c => <[lower c := c]> m) ∅ headers.

(** Python truth value of [found]: [None] and the empty text are false. *)
Definition truthy (found : option string) : bool :=
  match found with
  | Some s => negb (is_empty s)
  | None => false
  end.

(** The first loop: the first alias whose lowercased text is a key. *)
Fixpoint find_exact (existing_lower : gmap string string)
         (candidates : list string) : option string :=
  match candidates with
  | [] => None
  | cand :: rest =>
      match existing_lower !! lower cand with
      | Some c => Some c
      | None => find_exact existing_lower rest
      end
  end.

(** The second loop, entered with a false [found]: headers in order, for
    each the aliases in order; it stops at the first header that leaves
    [found] true. *)
Fixpoint find_substring (found : option string) (headers candidates : list string)
  : option string :=
  match headers with
  | [] => found
  | c :: rest =>
      let found' :=
        if existsb (fun cand => contains (lower cand) (lower c)) candidates
        then Some c else found in
      if truthy found' then found' else find_substring found' rest candidates
  end.

Definition find_column (existing_lower : gmap string string) (out : DataFrame)
           (candidates : list string) : option string :=
  let found := find_exact existing_lower candidates in
  if truthy found then found else find_substring found (names out) candidates.

(** One turn of the loop over [targets.items()]. *)
Definition coalesce_step (existing_lower : gmap string string)
           (out : DataFrame) (tc : string * list string) : DataFrame :=
  let found := find_column existing_lower out (snd tc) in
  match found with
  | Some f =>
      if truthy found
      then if String.eqb f (fst tc) then out else rename_column out f (fst tc)
      else setitem_scalar out (fst tc) NA
  | None => setitem_scalar out (fst tc) NA
  end.

Definition coalesce_columns (df : DataFrame) (targets : schema) : DataFrame :=
  foldl (coalesce_step (existing_lower_of (names df))) df targets.

End Normalizer.

(** ** The Merge Compiler *)

Section Compiler.

Definition cal_targets : schema :=
  [ ("User name", ["User name"; "User Name"; "Tester Name"; "Tester"]);
    ("EMAIL", ["EMAIL"; "Email"; "Tester Email"; "Participant Email"]);
    ("Start Time", ["Start Time"; "Start Time ("; "StartTime"]);
    ("End Time", ["End Time"; "End Time ("; "EndTime"]);
    ("Task Link", ["Task Link"; "Task URL"; "TaskLink"]);
    ("Moderator Link", ["Moderator Link"; "Moderator URL"; "ModeratorLink"]);
    ("Observers Public Link",
      ["Observers Public Link"; "Observers Link"; "Observer Link";
       "Public Observer Link"]) ].

Definition keep_calendar : list string :=
  [ "User name"; "EMAIL"; "Start Time"; "End Time"; "Task Link";
    "Moderator Link"; "Observers Public Link" ].

Definition scr_targets : schema :=
  [ ("TESTER", ["TESTER"; "Tester"; "User name"; "User Name"; "Tester Name"]);
    ("EMAIL", ["EMAIL"; "Email"]);
    ("DATE", ["DATE"; "Date"; "Submission Date"; "Created At"]);
    ("STATUS", ["STATUS"; "Status"]);
    ("ADMIN RATING", ["ADMIN RATING"; "Admin Rating"]);
    ("CLIENT RATING", ["CLIENT RATING"; "Client Rating"]) ].

Definition exclude : list string :=
  [ "TESTER"; "EMAIL"; "DATE"; "STATUS"; "ADMIN RATING"; "CLIENT RATING" ].

Definition head : list string :=
  [ "User name"; "Start Time"; "End Time"; "Task Link"; "Moderator Link";
    "Observers Public Link" ].

(** [df.columns = [str(c).strip() for c in df.columns]] *)
Definition strip_headers (df : DataFrame) : DataFrame :=
  mkFrame (nrows df)
    (List.map (fun c => mkColumn (strip (name c)) (data c)) (cols df)).

(** Python's [str(x)] on the content of a cell. *)
Definition py_str (v : cell) : string :=
  match v with
  | NaN => "nan"
  | NA => "<NA>"
  | Str s => s
  end.

(** [astype(str)] on one cell.  Text stays as it is.  A missing value is
    printed under the rule of pandas 2.x; under the rule of pandas 3 it
    stays missing, as the [NaN] of the string column. *)
Definition astype_str (rule : astype_rule) (v : cell) : cell :=
  match rule with
  | prints_missing => Str (py_str v)
  | keeps_missing => if isna v then NaN else v
  end.

(** [.str.strip().str.lower()] on one cell: a missing value stays missing. *)
Definition strip_lower (v : cell) : cell :=
  match v with
  | Str s => Str (email_key_text s)
  | _ => v
  end.

(** The key of one EMAIL cell. *)
Definition email_key (rule : astype_rule) (v : cell) : cell :=
  strip_lower (astype_str rule v).

(** [df["EMAIL"].astype(str).str.strip().str.lower()]: with one EMAIL
    column the selection is a Series; with several it is a frame, which
    has no [.str]. *)
Definition email_key_series (rule : astype_rule) (df : DataFrame)
  : result (list cell) :=
  match List.filter (has_label "EMAIL") (cols df) with
  | [] => Raise KeyError
  | [c] => Ok (List.map (email_key rule) (data c))
  | _ :: _ :: _ => Raise AttributeError
  end.

(** [normalize_text] *)
Definition normalize_text (v : cell) : cell :=
  if isna v then v else Str (strip (py_str v)).

(** [merged["User name"] = merged["User name"].apply(normalize_text)].
    With several such columns the selection is a frame and [apply] hands
    whole columns to [normalize_text], whose test on [pd.isna] then raises;
    on a frame without rows [apply] swallows that and returns a copy. *)
Definition normalize_user_name (df : DataFrame) : result DataFrame :=
  match List.filter (has_label "User name") (cols df) with
  | [] => Raise KeyError
  | [c] => Ok (setitem_column df "User name" (List.map normalize_text (data c)))
  | _ :: _ :: _ => if Nat.eqb (nrows df) 0 then Ok df else Raise ValueError
  end.

End Compiler.

(** ** [pd.merge(..., how="inner")] and [drop_duplicates] *)

Section Merge.

(** The one column a join key names: none raises [KeyError], several
    raise [ValueError] (the label is not unique). *)
Definition key_values (key : string) (df : DataFrame) : result (list cell) :=
  match List.filter (has_label key) (cols df) with
  | [] => Raise KeyError
  | [c] => Ok (data c)
  | _ :: _ :: _ => Raise ValueError
  end.

(** Positions, counted from [i], of the keys equal to [k]. *)
Fixpoint positions_from (i : nat) (k : cell) (keys : list cell) : list nat :=
  match keys with
  | [] => []
  | k' :: rest =>
      if bool_decide (k' = k)
      then i :: positions_from (S i) k rest
      else positions_from (S i) k rest
  end.

Fixpoint join_from (i : nat) (lkeys rkeys : list cell) : list (nat * nat) :=
  match lkeys with
  | [] => []
  | k :: rest =>
      List.map (pair i) (positions_from 0 k rkeys) ++ join_from (S i) rest rkeys
  end.

(** The left and right row positions of the inner join, in the order of
    the left keys and, for one left row, of the right rows.  Two missing
    keys are equal keys: [merge] pairs them like any other value. *)
Definition join_indexers (lkeys rkeys : list cell) : list (nat * nat) :=
  join_from 0 lkeys rkeys.

(** [Index.duplicated()]: is the label a repeat of an earlier one? *)
Fixpoint duplicated (seen : list string) (labels : list string) : list bool :=
  match labels with
  | [] => []
  | l :: rest => mem l seen :: duplicated (l :: seen) rest
  end.

(** Labels that repeat after the suffixes were added but did not before. *)
Definition suffix_dups (old new : list string) : bool :=
  existsb (fun p => fst p && negb (snd p))
          (combine (duplicated [] new) (duplicated [] old)).

Definition add_suffix (overlap : list string) (sfx : string) (c : Column) : Column :=
  if mem (name c) overlap then mkColumn (name c ++ sfx) (data c) else c.

(** [pd.merge(left, right, on=key, how="inner")] with the default
    suffixes.  The right key column is dropped; a label on both sides gets
    [_x] on the left and [_y] on the right. *)
Definition merge_inner (key : string) (left right : DataFrame) : result DataFrame :=
  try lk <- key_values key left;
  try rk <- key_values key right;
  let right := drop_columns right [key] in
  let overlap := List.filter (fun l => mem l (names right)) (names left) in
  let lcols := List.map (add_suffix overlap "_x") (cols left) in
  let rcols := List.map (add_suffix overlap "_y") (cols right) in
  if suffix_dups (names left) (List.map name lcols)
     || suffix_dups (names right) (List.map name rcols)
  then Raise MergeError
  else
    let ix := join_indexers lk rk in
    Ok (mkFrame (length ix)
          (List.map (take (List.map fst ix)) lcols
           ++ List.map (take (List.map snd ix)) rcols)).

(** How [duplicated] sees a cell: all missing values are one. *)
Definition dedup_code (v : cell) : option string :=
  match v with
  | Str s => Some s
  | _ => None
  end.

Definition row_key (subset_cols : list Column) (i : nat) : list (option string) :=
  List.map (fun c => dedup_code (nth i (data c) NaN)) subset_cols.

(** Positions, counted from [i], of the keys not seen before. *)
Fixpoint keep_first {K : Type} `{EqDecision K}
         (seen : list K) (i : nat) (keys : list K) : list nat :=
  match keys with
  | [] => []
  | k :: rest =>
      if bool_decide (k ∈ seen)
      then keep_first seen (S i) rest
      else i :: keep_first (k :: seen) (S i) rest
  end.

Definition subset_columns (df : DataFrame) (subset : list string) : list Column :=
  List.filter (fun c => mem (name c) subset) (cols df).

Definition row_keys (df : DataFrame) (subset : list string)
  : list (list (option string)) :=
  List.map (row_key (subset_columns df subset)) (seq 0 (nrows df)).

(** [df.drop_duplicates(subset=subset, keep="first")] *)
Definition drop_duplicates (df : DataFrame) (subset : list string)
  : result DataFrame :=
  if forallb (fun l => mem l (names df)) subset
  then Ok (take_rows (keep_first [] 0 (row_keys df subset)) df)
  else Raise KeyError.

End Merge.

(** ** The pipeline, from the header clean-up to the final column order *)

Section Pipeline.

(** Lines 167 to 169: the head, then every other label in place. *)
Definition reorder (merged : DataFrame) : result DataFrame :=
  let tail := List.filter (fun c => negb (mem c head)) (names merged) in
  getitem_labels merged (head ++ tail).

Definition compile (rule : astype_rule) (cal_df scr_df : DataFrame)
  : result DataFrame :=
  let cal_df := strip_headers cal_df in
  let scr_df := strip_headers scr_df in
  let cal_std := coalesce_columns cal_df cal_targets in
  try cal_std <- getitem_labels cal_std keep_calendar;
  let scr_std := coalesce_columns scr_df scr_targets in
  let scr_answers_cols :=
    List.filter (fun c => negb (mem c exclude)) (names scr_std) in
  try scr_answers <- getitem_labels scr_std scr_answers_cols;
  try cal_key <- email_key_series rule cal_std;
  let cal_std := setitem_column cal_std "EMAIL_key" cal_key in
  try scr_key <- email_key_series rule scr_std;
  let scr_std := setitem_column scr_std "EMAIL_key" scr_key in
  try scr_key_frame <- getitem_labels scr_std ["EMAIL_key"];
  try merged <- merge_inner "EMAIL_key" cal_std
                  (concat_axis1 scr_key_frame scr_answers);
  let merged := drop_columns merged ["EMAIL_key"] in
  let merged :=
    if mem "EMAIL" (names merged) then drop_columns merged ["EMAIL"]
    else merged in
  try merged <- normalize_user_name merged;
  try merged <- drop_duplicates merged ["User name"; "Start Time"];
  reorder merged.

(** *** The stages of [compile]

    The same lines, cut where the statements need a name for a table on the
    way: the two operands of the merge, the table [pd.merge] returns and the
    table [drop_duplicates] receives. *)

(** Lines 113 and 136 to 138: the normalized calendar, restricted to its
    targets. *)
Definition calendar_std (cal_df : DataFrame) : result DataFrame :=
  getitem_labels (coalesce_columns (strip_headers cal_df) cal_targets)
                 keep_calendar.

(** Lines 114 and 148: the normalized screener. *)
Definition screener_std (scr_df : DataFrame) : DataFrame :=
  coalesce_columns (strip_headers scr_df) scr_targets.

(** The left operand of the merge: [cal_std] with its key column, line 154. *)
Definition calendar_side (rule : astype_rule) (cal_df : DataFrame)
  : result DataFrame :=
  try cal_std <- calendar_std cal_df;
  try cal_key <- email_key_series rule cal_std;
  Ok (setitem_column cal_std "EMAIL_key" cal_key).

(** The right operand of the merge: the key column of the screener and its
    answer columns, lines 150 to 152, 155 and the [concat] of line 157. *)
Definition screener_side (rule : astype_rule) (scr_df : DataFrame)
  : result DataFrame :=
  let scr_std := screener_std scr_df in
  let scr_answers_cols :=
    List.filter (fun c => negb (mem c exclude)) (names scr_std) in
  try scr_answers <- getitem_labels scr_std scr_answers_cols;
  try scr_key <- email_key_series rule scr_std;
  let scr_std := setitem_column scr_std "EMAIL_key" scr_key in
  try scr_key_frame <- getitem_labels scr_std ["EMAIL_key"];
  Ok (concat_axis1 scr_key_frame scr_answers).

(** Lines 157 and 158: the table [pd.merge] returns. *)
Definition merge_stage (rule : astype_rule) (cal_df scr_df : DataFrame)
  : result DataFrame :=
  try left <- calendar_side rule cal_df;
  try right <- screener_side rule scr_df;
  merge_inner "EMAIL_key" left right.

(** Lines 160 to 164: the joined table as [drop_duplicates] receives it,
    without the linking columns and with the User name cells normalized. *)
Definition joined_stage (rule : astype_rule) (cal_df scr_df : DataFrame)
  : result DataFrame :=
  try merged <- merge_stage rule cal_df scr_df;
  let merged := drop_columns merged ["EMAIL_key"] in
  let merged :=
    if mem "EMAIL" (names merged) then drop_columns merged ["EMAIL"]
    else merged in
  normalize_user_name merged.

End Pipeline.


(** ** Vocabulary of the statements *)

Section Statements.

(** How many columns carry the label [l]. *)
Definition occurrences (l : string) (df : DataFrame) : nat :=
  length (List.filter (has_label l) (cols df)).

(** An EMAIL cell that is missing or holds the empty text. *)
Definition null_or_empty (v : cell) : bool :=
  match v with
  | Str s => is_empty s
  | _ => true
  end.

(** The EMAIL_key column computed from an EMAIL column. *)
Definition email_keys (rule : astype_rule) (emails : list cell) : list cell :=
  List.map (email_key rule) emails.

(** An output column [cout] stands for the input column [cin]: same
    cells, or, where [overwritable] allows it, cells all [NA]. *)
Definition carried (n : nat) (overwritable : string -> Prop)
           (cin cout : Column) : Prop :=
  data cout = data cin
  \/ (overwritable (name cin) /\ data cout = repeat NA n).

(** The output keeps the row count, holds the input columns in place
    (possibly under another label) and after them only all-[NA] columns. *)
Definition rows_preserved_except (overwritable : string -> Prop)
           (df out : DataFrame) : Prop :=
  nrows out = nrows df
  /\ exists kept added : list Column,
      cols out = (kept ++ added)%list
      /\ Forall2 (carried (nrows df) overwritable) (cols df) kept
      /\ Forall (fun c => data c = repeat NA (nrows df)) added.

(** The invariant of the loop over the targets, after the targets [done]:
    every input column is still in place, under its own label or that of
    a finished target, and the appended columns are all-[NA] columns
    labelled by finished targets. *)
Definition inv_kept (df : DataFrame) (overwritable : string -> Prop)
           (done : list string) (cin cout : Column) : Prop :=
  (name cout = name cin \/ In (name cout) done)
  /\ carried (nrows df) overwritable cin cout.

Definition inv_added (df : DataFrame) (done : list string) (c : Column) : Prop :=
  In (name c) done /\ data c = repeat NA (nrows df).

Definition coalesce_inv (df : DataFrame) (overwritable : string -> Prop)
           (done : list string) (out : DataFrame) : Prop :=
  nrows out = nrows df
  /\ exists kept added : list Column,
      cols out = (kept ++ added)%list
      /\ Forall2 (inv_kept df overwritable done) (cols df) kept
      /\ Forall (inv_added df done) added.

(** Row [i] of a table, read across its columns. *)
Definition row_at (df : DataFrame) (i : nat) : list cell :=
  List.map (fun c => nth i (data c) NaN) (cols df).

(** How many join pairs come from left row [i], from right row [j]. *)
Definition fan_out_left (i : nat) (ix : list (nat * nat)) : nat :=
  length (List.filter (fun p => Nat.eqb (fst p) i) ix).

Definition fan_out_right (j : nat) (ix : list (nat * nat)) : nat :=
  length (List.filter (fun p => Nat.eqb (snd p) j) ix).

Definition count_key (k : cell) (keys : list cell) : nat :=
  length (List.filter (fun k' => bool_decide (k' = k)) keys).

(** Two cells [drop_duplicates] takes for the same value: the same text,
    or two missing values. *)
Definition same_value (a b : cell) : bool :=
  match a, b with
  | Str s, Str t => String.eqb s t
  | Str _, _ => false
  | _, Str _ => false
  | _, _ => true
  end.

(** Rows [i] and [j] of a table hold the same (User name, Start Time)
    pair: the same value in every column labelled User name or Start Time. *)
Definition same_pair (df : DataFrame) (i j : nat) : bool :=
  forallb (fun c => same_value (nth i (data c) NaN) (nth j (data c) NaN))
          (List.filter (fun c => has_label "User name" c
                                 || has_label "Start Time" c)
                       (cols df)).

Definition no_backslash (s : string) : bool :=
  all_chars (fun c => negb (Ascii.eqb c "\")) s.

End Statements.

(** ** Sample tables *)

Section Samples.

(** The worked example of the specification. *)
Definition spec_calendar : DataFrame :=
  mkFrame 1
    [ mkColumn "Tester" [Str "Ann"];
      mkColumn "Tester Email" [Str "ann@x.com"];
      mkColumn "Start Time" [Str "2024-01-01T10:00"];
      mkColumn "End Time" [Str "2024-01-01T10:30"] ].

Definition spec_screener : DataFrame :=
  mkFrame 1
    [ mkColumn "Email" [Str "ann@X.com"];
      mkColumn "Status" [Str "Completed"];
      mkColumn "Q1 Rating" [Str "5"] ].

(** A calendar whose only header is an alias of EMAIL that also contains
    an alias of User name. *)
Definition tester_email_calendar : DataFrame :=
  mkFrame 1 [ mkColumn "Tester Email" [Str "ann@x.com"] ].

(** Two headers that differ only in case. *)
Definition two_email_calendar : DataFrame :=
  mkFrame 1 [ mkColumn "EMAIL" [Str "ann@x.com"];
              mkColumn "Email" [Str "ann@y.com"] ].

(** Blank EMAIL cells on both sides. *)
Definition blank_email_calendar : DataFrame :=
  mkFrame 1
    [ mkColumn "User name" [Str "Ann"];
      mkColumn "EMAIL" [NaN];
      mkColumn "Start Time" [Str "10:00"] ].

Definition blank_email_screener : DataFrame :=
  mkFrame 1 [ mkColumn "EMAIL" [NaN]; mkColumn "Q1" [Str "5"] ].

(** Two sessions of one tester, a third tester without screener row. *)
Definition two_session_calendar : DataFrame :=
  mkFrame 3
    [ mkColumn "User name" [Str "Ann"; Str "Ann"; Str "Bob"];
      mkColumn "EMAIL" [Str "ann@x.com"; Str " ANN@x.com"; Str "bob@x.com"];
      mkColumn "Start Time" [Str "10:00"; Str "11:00"; Str "12:00"] ].

Definition one_row_screener : DataFrame :=
  mkFrame 1 [ mkColumn "EMAIL" [Str "ann@x.com"]; mkColumn "Q1" [Str "5"] ].

(** Two headers that differ only in a trailing blank. *)
Definition two_start_calendar : DataFrame :=
  mkFrame 1
    [ mkColumn "User name" [Str "Ann"];
      mkColumn "EMAIL" [Str "ann@x.com"];
      mkColumn "Start Time" [Str "10:00"];
      mkColumn "Start Time " [Str "10:05"] ].

(** The two sides of a merge: two calendar rows and one screener row
    with the same key, one calendar row with another key. *)
Definition keyed_calendar : DataFrame :=
  mkFrame 3
    [ mkColumn "Start Time" [Str "10:00"; Str "11:00"; Str "12:00"];
      mkColumn "EMAIL_key" [Str "ann@x.com"; Str "ann@x.com"; Str "bob@x.com"] ].

Definition keyed_screener : DataFrame :=
  mkFrame 1
    [ mkColumn "EMAIL_key" [Str "ann@x.com"]; mkColumn "Q1" [Str "5"] ].

(** A joined table in which the first two rows share (User name,
    Start Time) and differ in an answer. *)
Definition repeated_sessions : DataFrame :=
  mkFrame 3
    [ mkColumn "User name" [Str "Ann"; Str "Ann"; Str "Bob"];
      mkColumn "Start Time" [Str "10:00"; Str "10:00"; Str "10:00"];
      mkColumn "Q1" [Str "5"; Str "7"; Str "3"] ].

(** The merged table of [two_start_calendar] and [one_row_screener] as
    it stands before the columns are put in order. *)
Definition two_start_merged : DataFrame :=
  mkFrame 1
    [ mkColumn "User name" [Str "Ann"];
      mkColumn "Start Time" [Str "10:00"];
      mkColumn "Start Time" [Str "10:05"];
      mkColumn "End Time" [NA];
      mkColumn "Task Link" [NA];
      mkColumn "Moderator Link" [NA];
      mkColumn "Observers Public Link" [NA];
      mkColumn "Q1" [Str "5"] ].

(** A table with the six head labels out of order between two answers. *)
Definition shuffled_merged : DataFrame :=
  mkFrame 1
    [ mkColumn "Q1" [Str "5"];
      mkColumn "Start Time" [Str "10:00"];
      mkColumn "User name" [Str "Ann"];
      mkColumn "Observers Public Link" [NA];
      mkColumn "End Time" [Str "10:30"];
      mkColumn "Task Link" [NA];
      mkColumn "Moderator Link" [NA];
      mkColumn "Q2" [Str "yes"] ].

(** A header that is a target whose aliases do not name it. *)
Definition contact_frame : DataFrame :=
  mkFrame 1 [ mkColumn "EMAIL" [Str "ann@x.com"] ].

Definition contact_schema : schema := [ ("EMAIL", ["Contact"]) ].

End Samples.

(** ** Upload handling: [detect_roles], the default selections, [load_any] *)

Section Uploads.

Definition is_calendar_name (n : string) : bool :=
  contains "calendar" (lower n) || contains "calender" (lower n).

Definition is_screener_name (n : string) : bool :=
  contains "screener" (lower n).

(** [next((n for n in names if ...), None)]: the first name that passes. *)
Definition detect_roles (uploaded_names : list string)
  : option string * option string :=
  (List.find is_calendar_name uploaded_names,
   List.find is_screener_name uploaded_names).

(** [l.index(x)]: the first position of [x]; [ValueError] when absent. *)
Fixpoint list_index (x : string) (l : list string) : result nat :=
  match l with
  | [] => Raise ValueError
  | y :: rest =>
      if String.eqb y x then Ok 0
      else try i <- list_index x rest; Ok (S i)
  end.

Definition placeholder : string := "-- choose --".

(** The options of both select boxes. *)
Definition select_options (uploaded_names : list string) : list string :=
  placeholder :: uploaded_names.

(** [(uploaded_names.index(guess) + 1) if guess in uploaded_names else 0];
    [None] is never among the names. *)
Definition default_index (uploaded_names : list string) (guess : option string)
  : result nat :=
  match guess with
  | Some g =>
      if mem g uploaded_names
      then try i <- list_index g uploaded_names; Ok (i + 1)
      else Ok 0
  | None => Ok 0
  end.

(** What a select box holds while the user leaves it alone: the option at
    its default index. *)
Definition default_choice (uploaded_names : list string) (guess : option string)
  : option string :=
  match default_index uploaded_names guess with
  | Ok i => select_options uploaded_names !! i
  | Raise _ => None
  end.

(** [proceed] of line 88. *)
Definition proceed (calendar_file screener_file : string) : bool :=
  negb (String.eqb calendar_file placeholder)
  && negb (String.eqb screener_file placeholder).

(** [s.endswith(suffix)] *)
Fixpoint endswith (suffix s : string) : bool :=
  String.eqb s suffix
  || match s with
     | EmptyString => false
     | String _ s' => endswith suffix s'
     end.

(** The reader [load_any] hands the upload to. *)
Inductive reader : Type := read_excel | read_csv.

Definition load_any (upload_name : string) : result reader :=
  let name := lower upload_name in
  if endswith ".xlsx" name || endswith ".xls" name then Ok read_excel
  else if endswith ".csv" name then Ok read_csv
  else Raise ValueError.

(** [f"Compiled Study Data - {project}.xlsx"] *)
Definition out_name (calendar_file : string) : string :=
  "Compiled Study Data - " ++ best_project_name calendar_file ++ ".xlsx".

End Uploads.

(** ** Further vocabulary *)

Section MoreStatements.

(** Does the text hold the character? *)
Fixpoint has_char (c : ascii) (s : string) : bool :=
  match s with
  | EmptyString => false
  | String a s' => Ascii.eqb a c || has_char c s'
  end.

(** The all-null column [out[target] = pd.NA] appends. *)
Definition null_column (n : nat) (tc : string * list string) : Column :=
  mkColumn (fst tc) (repeat NA n).

(** No alias of a target is contained, ignoring case, in a header or in
    the label of a target synthesized before it, and no header is a
    target. *)
Fixpoint no_alias_matches (headers : list string) (targets : schema) : bool :=
  match targets with
  | [] => true
  | tc :: rest =>
      negb (mem (fst tc) headers)
      && forallb (fun cand =>
                    forallb (fun h => negb (contains (lower cand) (lower h)))
                            headers)
                 (snd tc)
      && no_alias_matches (headers ++ [fst tc]) rest
  end.

(** No alias of [tc1] is contained, ignoring case, in the target or in an
    alias of [tc2]. *)
Definition aliases_apart (tc1 tc2 : string * list string) : bool :=
  forallb (fun a =>
             negb (contains (lower a) (lower (fst tc2)))
             && forallb (fun b => negb (contains (lower a) (lower b))) (snd tc2))
          (snd tc1).

(** The aliases of any two entries are apart, either way round. *)
Fixpoint schema_independent (targets : schema) : bool :=
  match targets with
  | [] => true
  | tc :: rest =>
      forallb (fun tc' => aliases_apart tc tc' && aliases_apart tc' tc) rest
      && schema_independent rest
  end.

(** A header that holds no alias of the entries [done]. *)
Definition unclaimed_by (done : schema) (h : string) : Prop :=
  forall d a, In d done -> In a (snd d) -> contains (lower a) (lower h) = false.

(** After the entries [done]: their targets are labels of [out], and so is
    every input header that holds none of their aliases. *)
Definition presence_inv (df : DataFrame) (done : schema) (out : DataFrame) : Prop :=
  (forall d, In d done -> In (fst d) (names out))
  /\ (forall h, In h (names df) -> unclaimed_by done h -> In h (names out)).

(** How often a label stands in a list of labels. *)
Definition count_label (l : string) (labels : list string) : nat :=
  length (List.filter (fun n => String.eqb n l) labels).

(** The cells under a label, over all columns that carry it. *)
Definition label_cells (l : string) (df : DataFrame) : list cell :=
  flat_map data (List.filter (has_label l) (cols df)).

End MoreStatements.

(** ** Further sample tables *)

Section MoreSamples.

Definition answers_only_frame : DataFrame :=
  mkFrame 2 [ mkColumn "Q1" [Str "5"; Str "3"]; mkColumn "Q2" [NaN; Str "no"] ].

(** A screener with an answer column labelled like a head column. *)
Definition start_time_screener : DataFrame :=
  mkFrame 1
    [ mkColumn "EMAIL" [Str "ann@x.com"]; mkColumn "Start Time" [Str "9:00"] ].

Definition other_email_screener : DataFrame :=
  mkFrame 1 [ mkColumn "EMAIL" [Str "bob@x.com"]; mkColumn "Q1" [Str "5"] ].

(** One session, and a screener with two rows for its tester. *)
Definition one_session_calendar : DataFrame :=
  mkFrame 1
    [ mkColumn "User name" [Str "Ann"];
      mkColumn "EMAIL" [Str "ann@x.com"];
      mkColumn "Start Time" [Str "10:00"] ].

Definition two_answer_screener : DataFrame :=
  mkFrame 2
    [ mkColumn "EMAIL" [Str "ann@x.com"; Str "ANN@x.com"];
      mkColumn "Q1" [Str "5"; Str "7"] ].

(** A calendar without EMAIL column: the Normalizer writes an all-null one. *)
Definition no_email_calendar : DataFrame :=
  mkFrame 1
    [ mkColumn "User name" [Str "Ann"]; mkColumn "Start Time" [Str "10:00"] ].

(** Four sessions: the third repeats the (User name, Start Time) pair of
    the first, with another End Time and a padded name; the second has the
    name of the first and the fourth its Start Time. *)
Definition repeated_calendar : DataFrame :=
  mkFrame 4
    [ mkColumn "User name" [Str "Ann"; Str "Ann"; Str " Ann "; Str "Bob"];
      mkColumn "EMAIL"
        [Str "ann@x.com"; Str "ann@x.com"; Str "ann@x.com"; Str "bob@x.com"];
      mkColumn "Start Time" [Str "10:00"; Str "11:00"; Str "10:00"; Str "10:00"];
      mkColumn "End Time" [Str "10:30"; Str "11:30"; Str "10:45"; Str "10:30"] ].

Definition two_tester_screener : DataFrame :=
  mkFrame 2
    [ mkColumn "EMAIL" [Str "ann@x.com"; Str "bob@x.com"];
      mkColumn "Q1" [Str "5"; Str "3"] ].

(** What the pipeline returns on some of the sample tables. *)
Definition two_session_compiled : DataFrame :=
  mkFrame 2
    [ mkColumn "User name" [Str "Ann"; Str "Ann"];
      mkColumn "Start Time" [Str "10:00"; Str "11:00"];
      mkColumn "End Time" [NA; NA];
      mkColumn "Task Link" [NA; NA];
      mkColumn "Moderator Link" [NA; NA];
      mkColumn "Observers Public Link" [NA; NA];
      mkColumn "Q1" [Str "5"; Str "5"] ].

Definition one_session_compiled : DataFrame :=
  mkFrame 1
    [ mkColumn "User name" [Str "Ann"];
      mkColumn "Start Time" [Str "10:00"];
      mkColumn "End Time" [NA];
      mkColumn "Task Link" [NA];
      mkColumn "Moderator Link" [NA];
      mkColumn "Observers Public Link" [NA];
      mkColumn "Q1" [Str "5"] ].

Definition repeated_compiled : DataFrame :=
  mkFrame 3
    [ mkColumn "User name" [Str "Ann"; Str "Ann"; Str "Bob"];
      mkColumn "Start Time" [Str "10:00"; Str "11:00"; Str "10:00"];
      mkColumn "End Time" [Str "10:30"; Str "11:30"; Str "10:30"];
      mkColumn "Task Link" [NA; NA; NA];
      mkColumn "Moderator Link" [NA; NA; NA];
      mkColumn "Observers Public Link" [NA; NA; NA];
      mkColumn "Q1" [Str "5"; Str "5"; Str "3"] ].

Definition no_session_compiled : DataFrame :=
  mkFrame 0
    [ mkColumn "User name" [];
      mkColumn "Start Time" [];
      mkColumn "End Time" [];
      mkColumn "Task Link" [];
      mkColumn "Moderator Link" [];
      mkColumn "Observers Public Link" [];
      mkColumn "Q1" [] ].

End MoreSamples.
(** * Properties *)

(** ** Text lemmas *)

Section TextFacts.

Lemma lower_char_idem (c : ascii) : lower_char (lower_char c) = lower_char c.
Proof. destruct c as [[] [] [] [] [] [] [] []]; reflexivity. Qed.

Lemma isspace_lower_char (c : ascii) : isspace (lower_char c) = isspace c.
Proof. destruct c as [[] [] [] [] [] [] [] []]; reflexivity. Qed.

Lemma lower_idem (s : string) : lower (lower s) = lower s.
Proof.
  induction s as [|c s IH]; simpl; [reflexivity|].
  now rewrite lower_char_idem, IH.
Qed.

Lemma lower_app (s t : string) : lower (s ++ t) = lower s ++ lower t.
Proof. induction s as [|c s IH]; simpl; [reflexivity | now rewrite IH]. Qed.

Lemma lower_empty_inv (s : string) : lower s = EmptyString -> s = EmptyString.
Proof. destruct s; simpl; [reflexivity | discriminate]. Qed.

Lemma lower_lstrip (s : string) :
  lower (lstrip_by isspace s) = lstrip_by isspace (lower s).
Proof.
  induction s as [|c s IH]; simpl; [reflexivity|].
  rewrite isspace_lower_char. destruct (isspace c); [exact IH | reflexivity].
Qed.

Lemma lower_rstrip (s : string) :
  lower (rstrip_by isspace s) = rstrip_by isspace (lower s).
Proof.
  induction s as [|c s IH]; simpl; [reflexivity|].
  rewrite isspace_lower_char, <- IH.
  destruct (rstrip_by isspace s) as [|a r]; simpl.
  - destruct (isspace c); reflexivity.
  - reflexivity.
Qed.

Lemma lower_strip (s : string) : lower (strip s) = strip (lower s).
Proof. unfold strip, strip_by. now rewrite lower_rstrip, lower_lstrip. Qed.

Section Strip.
Variable p : ascii -> bool.

Lemma rstrip_by_idem (s : string) : rstrip_by p (rstrip_by p s) = rstrip_by p s.
Proof.
  induction s as [|c s IH]; simpl; [reflexivity|].
  destruct (rstrip_by p s) as [|a r] eqn:E.
  - destruct (p c) eqn:Ec; simpl; [reflexivity | now rewrite Ec].
  - set (t := String a r) in *.
    change (rstrip_by p (String c t))
      with (match rstrip_by p t with
            | EmptyString => if p c then EmptyString else String c EmptyString
            | String b r' => String c (String b r')
            end).
    rewrite IH. reflexivity.
Qed.

(** The first character of a right-stripped text is that of the text. *)
Lemma rstrip_by_head (c : ascii) (s : string) :
  p c = false -> exists r, rstrip_by p (String c s) = String c r.
Proof.
  intros Hc. simpl. destruct (rstrip_by p s) as [|a r].
  - rewrite Hc. now exists EmptyString.
  - now exists (String a r).
Qed.

Lemma lstrip_by_head (s : string) :
  lstrip_by p s = EmptyString
  \/ exists c r, lstrip_by p s = String c r /\ p c = false.
Proof.
  induction s as [|c s IH]; simpl; [now left|].
  destruct (p c) eqn:Ec; [exact IH|]. right. now exists c, s.
Qed.

Lemma strip_by_idem (s : string) : strip_by p (strip_by p s) = strip_by p s.
Proof.
  unfold strip_by.
  destruct (lstrip_by_head s) as [E | (c & r & E & Hc)]; rewrite E.
  - reflexivity.
  - destruct (rstrip_by_head c r Hc) as [r' E'].
    rewrite E'. cbn [lstrip_by]. rewrite Hc, <- E'. apply rstrip_by_idem.
Qed.

Lemma lstrip_by_all (w : string) :
  all_chars p w = true -> lstrip_by p w = EmptyString.
Proof.
  induction w as [|c w IH]; simpl; [reflexivity|].
  intros H. apply andb_true_iff in H as [Hc Hw]. now rewrite Hc, IH.
Qed.

Lemma rstrip_by_all (w : string) :
  all_chars p w = true -> rstrip_by p w = EmptyString.
Proof.
  induction w as [|c w IH]; simpl; [reflexivity|].
  intros H. apply andb_true_iff in H as [Hc Hw]. now rewrite IH, Hc.
Qed.

Lemma lstrip_by_pad (w s : string) :
  all_chars p w = true -> lstrip_by p (w ++ s) = lstrip_by p s.
Proof.
  induction w as [|c w IH]; simpl; [reflexivity|].
  intros H. apply andb_true_iff in H as [Hc Hw]. now rewrite Hc, IH.
Qed.

Lemma rstrip_by_pad (s w : string) :
  all_chars p w = true -> rstrip_by p (s ++ w) = rstrip_by p s.
Proof.
  intros Hw. induction s as [|c s IH]; simpl.
  - now apply rstrip_by_all.
  - now rewrite IH.
Qed.

Lemma strip_by_pad (pre s post : string) :
  all_chars p pre = true -> all_chars p post = true ->
  strip_by p (pre ++ s ++ post) = strip_by p s.
Proof.
  intros Hpre Hpost. unfold strip_by. rewrite lstrip_by_pad by assumption.
  induction s as [|c s IH]; simpl.
  - now rewrite lstrip_by_all.
  - destruct (p c); [exact IH|].
    change (String c (s ++ post)) with (String c s ++ post).
    now apply rstrip_by_pad.
Qed.
End Strip.

End TextFacts.

(** ** The join key (C9) *)

(** C9.  The join key, trim then lowercase of the EMAIL text, is idempotent:
    deriving the key of a key gives that key again, on text and on a cell,
    under either rule for missing values.  It ignores case (two texts with the same
    lowercase form have the same key) and surrounding whitespace (padding a
    text with whitespace on either side leaves its key unchanged); the texts
    "  A@B.com " and "a@b.com" both give "a@b.com". *)
Theorem email_key_idempotent_insensitive :
  (forall s, email_key_text (email_key_text s) = email_key_text s)
  /\ (forall rule v, email_key rule (email_key rule v) = email_key rule v)
  /\ (forall s t, lower s = lower t -> email_key_text s = email_key_text t)
  /\ (forall pre s post,
         all_chars isspace pre = true -> all_chars isspace post = true ->
         email_key_text (pre ++ s ++ post) = email_key_text s)
  /\ email_key_text "  A@B.com " = "a@b.com"
  /\ email_key_text "a@b.com" = "a@b.com".
Proof.
  assert (Hidem : forall s, email_key_text (email_key_text s) = email_key_text s).
  { intros s. unfold email_key_text.
    rewrite <- (lower_strip (strip s)). unfold strip at 1 2.
    now rewrite strip_by_idem, lower_idem. }
  split; [exact Hidem|].
  split.
  { intros [] [| |s]; cbn [email_key astype_str strip_lower py_str isna];
      try reflexivity; f_equal; apply Hidem. }
  split.
  { intros s t H. unfold email_key_text. now rewrite !lower_strip, H. }
  split.
  { intros pre s post Hpre Hpost. unfold email_key_text, strip.
    now rewrite strip_by_pad. }
  split; reflexivity.
Qed.

Lemma email_key_idempotent_insensitive_witness :
  email_key_text "Ann@X.COM" = email_key_text "ann@x.com"
  /\ email_key_text (" " ++ "Ann@x.com" ++ "  ") = email_key_text "Ann@x.com".
Proof.
  destruct email_key_idempotent_insensitive as (_ & _ & Hcase & Hpad & _).
  split.
  - apply Hcase. reflexivity.
  - apply Hpad; reflexivity.
Defined.

(** ** The project label (C2) *)

Section ProjectNameFacts.

Lemma lower_char_backslash (c : ascii) :
  Ascii.eqb (lower_char "\") (lower_char c) = Ascii.eqb c "\".
Proof. destruct c as [[] [] [] [] [] [] [] []]; reflexivity. Qed.

(** On a stem without backslash neither substitution finds a match. *)
Lemma re_sub_literals_no_backslash (s : string) :
  no_backslash s = true -> re_sub_literals token_patterns 0 s = s.
Proof.
  induction s as [|c s IH]; [reflexivity|].
  intros H. apply andb_true_iff in H as [Hc Hs].
  apply negb_true_iff in Hc.
  cbn [re_sub_literals token_patterns List.find imatch_prefix].
  rewrite !lower_char_backslash, Hc. cbn [andb].
  now rewrite (IH Hs).
Qed.

Lemma re_sub_backslash_s_no_backslash (s : string) :
  no_backslash s = true -> re_sub_backslash_s false s = s.
Proof.
  induction s as [|c s IH]; [reflexivity|].
  intros H. apply andb_true_iff in H as [Hc Hs].
  apply negb_true_iff in Hc.
  cbn [re_sub_backslash_s andb]. rewrite Hc. cbn [andb].
  now rewrite (IH Hs).
Qed.

End ProjectNameFacts.

(** C2.  The label of "calendar.xlsx" is "calendar", not "Project", and the
    label of "Screener_Copy - Acme Project.xlsx" is the whole stem
    "Screener_Copy - Acme Project": the four tokens are not removed. *)
Theorem best_project_name_keeps_tokens :
  best_project_name "calendar.xlsx" = "calendar"
  /\ best_project_name "Screener_Copy - Acme Project.xlsx"
     = "Screener_Copy - Acme Project".
Proof. split; reflexivity. Qed.

(** ** The Column Normalizer on the sample calendars (C1, C4) *)

(** C1.  On a calendar whose only header is "Tester Email" the calendar
    schema leaves no EMAIL column: User name claims the header by substring
    and EMAIL then renames a header that is gone.  On a calendar with the
    headers "EMAIL" and "Email" the output has two EMAIL columns. *)
Theorem coalesce_columns_target_not_once :
  names (coalesce_columns tester_email_calendar cal_targets)
  = [ "User name"; "Start Time"; "End Time"; "Task Link"; "Moderator Link";
      "Observers Public Link" ]
  /\ occurrences "EMAIL" (coalesce_columns tester_email_calendar cal_targets) = 0
  /\ occurrences "EMAIL" (coalesce_columns two_email_calendar cal_targets) = 2.
Proof. repeat split; vm_compute; reflexivity. Qed.

(** C4.  With the calendar whose only header is "Tester Email" the pipeline
    raises [KeyError] at the selection of the calendar columns, whatever the
    screener table is. *)
Theorem compile_raises_key_error (rule : astype_rule) (scr_df : DataFrame) :
  compile rule tester_email_calendar scr_df = Raise KeyError.
Proof.
  unfold compile.
  set (sel := getitem_labels
                (coalesce_columns (strip_headers tester_email_calendar) cal_targets)
                keep_calendar).
  vm_compute in sel. subst sel. reflexivity.
Qed.

(** ** The Column Normalizer keeps the rows (C10) *)

Section NormalizerFacts.

Lemma mem_In (l : string) (ls : list string) : mem l ls = true <-> In l ls.
Proof.
  unfold mem. rewrite existsb_exists. split.
  - intros (x & Hx & E). apply String.eqb_eq in E. now subst.
  - intros H. exists l. split; [assumption | apply String.eqb_refl].
Qed.

Lemma mem_false_In (l : string) (ls : list string) : mem l ls = false <-> ~ In l ls.
Proof.
  rewrite <- mem_In. destruct (mem l ls); split; intros; congruence.
Qed.

Lemma has_label_true (l : string) (c : Column) : has_label l c = true <-> name c = l.
Proof. unfold has_label. apply String.eqb_eq. Qed.

(** *** The dictionary of lowercased headers *)

Lemma existing_lower_acc (hs : list string) (m : gmap string string) (k f : string) :
  foldl (fun m c => <[lower c := c]> m) m hs !! k = Some f ->
  m !! k = Some f \/ (In f hs /\ lower f = k).
Proof.
  revert m. induction hs as [|h hs IH]; intros m; simpl; [now left|].
  intros H. apply IH in H as [H | [H1 H2]].
  - destruct (decide (lower h = k)) as [E | E].
    + rewrite <- E, lookup_insert_eq in H. injection H as <-.
      right. split; [now left | assumption].
    + rewrite lookup_insert_ne in H by assumption. now left.
  - right. split; [now right | assumption].
Qed.

Lemma existing_lower_value (hs : list string) (k f : string) :
  existing_lower_of hs !! k = Some f -> In f hs /\ lower f = k.
Proof.
  intros H. apply existing_lower_acc in H as [H | H]; [|exact H].
  rewrite lookup_empty in H. discriminate.
Qed.

Lemma existing_lower_keeps (hs : list string) (m : gmap string string) (k : string) :
  is_Some (m !! k) -> is_Some (foldl (fun m c => <[lower c := c]> m) m hs !! k).
Proof.
  revert m. induction hs as [|h hs IH]; intros m H; simpl; [exact H|].
  apply IH. destruct (decide (lower h = k)) as [E | E].
  - rewrite <- E, lookup_insert_eq. now eexists.
  - now rewrite lookup_insert_ne.
Qed.

Lemma existing_lower_key (hs : list string) (h : string) :
  In h hs -> is_Some (existing_lower_of hs !! lower h).
Proof.
  unfold existing_lower_of. generalize (∅ : gmap string string).
  induction hs as [|a hs IH]; intros m; simpl; [intros []|].
  intros [-> | H].
  - apply existing_lower_keeps. rewrite lookup_insert_eq. now eexists.
  - now apply IH.
Qed.

(** A target that is a header and one of its own aliases is found by the
    exact search, and what is found is not the empty text. *)
Lemma find_exact_self (hs cands : list string) (t : string) :
  In t hs -> In t cands -> Forall (fun a => a <> EmptyString) cands ->
  truthy (find_exact (existing_lower_of hs) cands) = true.
Proof.
  intros Hh Ht Hne. induction cands as [|a cands IH]; [destruct Ht|].
  simpl. destruct (existing_lower_of hs !! lower a) as [f|] eqn:E.
  - apply existing_lower_value in E as [_ E].
    apply Forall_inv in Hne. simpl.
    destruct f; [|reflexivity].
    simpl in E. symmetry in E. apply lower_empty_inv in E. contradiction.
  - destruct Ht as [-> | Ht].
    + destruct (existing_lower_key hs t Hh) as [f Hf]. congruence.
    + apply IH; [assumption | now apply Forall_inv_tail in Hne].
Qed.

End NormalizerFacts.

Section LoopInvariant.

Variable df : DataFrame.
Variable overwritable : string -> Prop.

Lemma Forall2_map_right_In {A B : Type} (P Q : A -> B -> Prop) (g : B -> B)
      (l : list A) (k : list B) :
  Forall2 P l k ->
  (forall x y, In x l -> P x y -> Q x (g y)) ->
  Forall2 Q l (List.map g k).
Proof.
  induction 1 as [|x y l k H Hk IH]; intros Hg; simpl; constructor.
  - apply Hg; [now left | assumption].
  - apply IH. intros x' y' Hin. apply Hg. now right.
Qed.

Lemma Forall_map_same {B : Type} (P Q : B -> Prop) (g : B -> B) (k : list B) :
  Forall P k -> (forall y, P y -> Q (g y)) -> Forall Q (List.map g k).
Proof.
  induction 1 as [|y k H Hk IH]; intros Hg; simpl; constructor; auto.
Qed.

Lemma inv_kept_more (done : list string) (t : string) (cin cout : Column) :
  inv_kept df overwritable done cin cout ->
  inv_kept df overwritable (t :: done) cin cout.
Proof. intros [[H | H] Hc]; split; auto; right; now right. Qed.

Lemma inv_added_more (done : list string) (t : string) (c : Column) :
  inv_added df done c -> inv_added df (t :: done) c.
Proof. intros [H Hd]. split; [now right | assumption]. Qed.

Lemma coalesce_inv_start : coalesce_inv df overwritable [] df.
Proof.
  split; [reflexivity|]. exists (cols df), []. rewrite app_nil_r.
  split; [reflexivity|]. split; [|constructor].
  induction (cols df) as [|c cs IH]; constructor; [|exact IH].
  split; [now left | now left].
Qed.

Lemma coalesce_inv_more (done : list string) (t : string) (out : DataFrame) :
  coalesce_inv df overwritable done out -> coalesce_inv df overwritable (t :: done) out.
Proof.
  intros (Hn & kept & added & Hc & Hk & Ha).
  split; [assumption|]. exists kept, added. split; [assumption|]. split.
  - eapply Forall2_impl; [exact Hk|]. intros. now apply inv_kept_more.
  - eapply Forall_impl; [exact Ha|]. intros. now apply inv_added_more.
Qed.

Lemma coalesce_inv_rename (done : list string) (f t : string) (out : DataFrame) :
  coalesce_inv df overwritable done out -> coalesce_inv df overwritable (t :: done) (rename_column out f t).
Proof.
  intros (Hn & kept & added & Hc & Hk & Ha).
  split; [assumption|].
  pose (g := fun c => if has_label f c then mkColumn t (data c) else c).
  exists (List.map g kept), (List.map g added).
  split; [simpl; rewrite Hc; apply List.map_app|]. split.
  - eapply Forall2_map_right_In; [exact Hk|]. intros cin cout _ H.
    unfold g. destruct (has_label f cout).
    + destruct H as [_ H]. split; [right; now left | exact H].
    + now apply inv_kept_more.
  - eapply Forall_map_same; [exact Ha|]. intros c H.
    unfold g. destruct (has_label f c).
    + destruct H as [_ H]. split; [now left | exact H].
    + now apply inv_added_more.
Qed.

(** Overwriting the columns labelled [t]: an input column still labelled
    [t] before [t] is finished has [t] as its own header. *)
Lemma coalesce_inv_setitem (done : list string) (t : string) (out : DataFrame) :
  coalesce_inv df overwritable done out -> ~ In t done ->
  (In t (names df) -> overwritable t) ->
  coalesce_inv df overwritable (t :: done) (setitem_scalar out t NA).
Proof.
  intros (Hn & kept & added & Hc & Hk & Ha) Hfresh Hover.
  unfold setitem_scalar, setitem_column. rewrite Hn.
  destruct (mem t (names out)).
  - split; [reflexivity|].
    pose (g := fun c => if has_label t c
                        then mkColumn t (repeat NA (nrows df)) else c).
    exists (List.map g kept), (List.map g added).
    split; [simpl; rewrite Hc; apply List.map_app|]. split.
    + eapply Forall2_map_right_In; [exact Hk|]. intros cin cout Hin H.
      unfold g. destruct (has_label t cout) eqn:E.
      * apply has_label_true in E. destruct H as [[H | H] _].
        -- split; [left; simpl; congruence|].
           right. split; [|reflexivity]. rewrite <- H, E. apply Hover.
           unfold names. apply in_map_iff. exists cin.
           split; [congruence | assumption].
        -- rewrite E in H. contradiction.
      * now apply inv_kept_more.
    + eapply Forall_map_same; [exact Ha|]. intros c H.
      unfold g. destruct (has_label t c).
      * split; [now left | reflexivity].
      * now apply inv_added_more.
  - split; [reflexivity|].
    exists kept, (added ++ [mkColumn t (repeat NA (nrows df))])%list.
    split; [simpl; rewrite Hc; now rewrite app_assoc|]. split.
    + eapply Forall2_impl; [exact Hk|]. intros. now apply inv_kept_more.
    + apply Forall_app. split.
      * eapply Forall_impl; [exact Ha|]. intros. now apply inv_added_more.
      * constructor; [|constructor]. split; [now left | reflexivity].
Qed.

(** One turn of the loop.  The overwrite is reached only when the exact
    search found nothing true. *)
Lemma coalesce_inv_step (el : gmap string string) (done : list string)
      (t : string) (cands : list string) (out : DataFrame) :
  coalesce_inv df overwritable done out -> ~ In t done ->
  (In t (names df) -> truthy (find_exact el cands) = false -> overwritable t) ->
  coalesce_inv df overwritable (t :: done) (coalesce_step el out (t, cands)).
Proof.
  intros HI Hfresh Hover. unfold coalesce_step, find_column. simpl fst. simpl snd.
  destruct (truthy (find_exact el cands)) eqn:Ex.
  - destruct (find_exact el cands) as [f|]; [|discriminate Ex].
    rewrite Ex. destruct (String.eqb f t).
    + now apply coalesce_inv_more.
    + now apply coalesce_inv_rename.
  - specialize (fun H => Hover H eq_refl).
    destruct (find_substring (find_exact el cands) (names out) cands) as [f|] eqn:Es.
    + destruct (truthy (Some f)).
      * destruct (String.eqb f t).
        -- now apply coalesce_inv_more.
        -- now apply coalesce_inv_rename.
      * now apply coalesce_inv_setitem.
    + now apply coalesce_inv_setitem.
Qed.

Lemma coalesce_inv_loop (el : gmap string string) (targets : schema)
      (done : list string) (out : DataFrame) :
  coalesce_inv df overwritable done out ->
  List.NoDup (List.map fst targets) ->
  (forall t, In t (List.map fst targets) -> ~ In t done) ->
  (forall t cands, In (t, cands) targets -> In t (names df) ->
                   truthy (find_exact el cands) = false -> overwritable t) ->
  exists done', coalesce_inv df overwritable done' (foldl (coalesce_step el) out targets).
Proof.
  revert done out. induction targets as [|[t cands] targets IH];
    intros done out HI Hnd Hfresh Hover; simpl.
  - now exists done.
  - simpl in Hnd. apply NoDup_cons_iff in Hnd as [Hnotin Hnd].
    apply (IH (t :: done)).
    + apply coalesce_inv_step; [assumption | apply Hfresh; now left |].
      apply Hover. now left.
    + assumption.
    + intros t' Hin [-> | Hd]; [contradiction|].
      apply (Hfresh t'); [now right | assumption].
    + intros t' c' Hin. apply Hover. now right.
Qed.

End LoopInvariant.

Lemma coalesce_inv_rows (df out : DataFrame) (overwritable : string -> Prop)
      (done : list string) :
  coalesce_inv df overwritable done out -> rows_preserved_except overwritable df out.
Proof.
  intros (Hn & kept & added & Hc & Hk & Ha). split; [assumption|].
  exists kept, added. split; [assumption|]. split.
  - eapply Forall2_impl; [exact Hk|]. now intros cin cout [_ H].
  - eapply Forall_impl; [exact Ha|]. now intros c [_ H].
Qed.

(** C10, as amended.  For a schema with distinct targets, [coalesce_columns]
    keeps the row count, keeps every input column in its place and appends
    only columns that are entirely null.  An input column keeps its cells,
    except that one whose header is itself a target may be overwritten
    entirely with nulls (when no alias of that target matches).  When every
    target is among its own aliases and no alias is the empty text, as in
    both role schemas, no input cell changes. *)
Theorem coalesce_columns_preserves_rows (df : DataFrame) (targets : schema) :
  List.NoDup (List.map fst targets) ->
  rows_preserved_except (fun h => In h (List.map fst targets)) df
                        (coalesce_columns df targets)
  /\ ((forall t cands, In (t, cands) targets ->
         In t cands /\ Forall (fun a => a <> EmptyString) cands) ->
      rows_preserved_except (fun _ => False) df (coalesce_columns df targets)).
Proof.
  intros Hnd. unfold coalesce_columns. split.
  - destruct (coalesce_inv_loop df (fun h => In h (List.map fst targets))
                (existing_lower_of (names df)) targets [] df) as [done' H].
    + apply coalesce_inv_start.
    + assumption.
    + intros t _ [].
    + intros t cands Hin _ _. apply in_map_iff. now exists (t, cands).
    + eapply coalesce_inv_rows, H.
  - intros Hself.
    destruct (coalesce_inv_loop df (fun _ => False)
                (existing_lower_of (names df)) targets [] df) as [done' H].
    + apply coalesce_inv_start.
    + assumption.
    + intros t _ [].
    + intros t cands Hin Hh Hex. destruct (Hself t cands Hin) as [Ht Hne].
      rewrite (find_exact_self (names df) cands t Hh Ht Hne) in Hex.
      discriminate Hex.
    + eapply coalesce_inv_rows, H.
Qed.

Lemma coalesce_columns_preserves_rows_witness :
  rows_preserved_except (fun h => In h (List.map fst contact_schema)) contact_frame
                        (coalesce_columns contact_frame contact_schema)
  /\ rows_preserved_except (fun _ => False) spec_screener
                           (coalesce_columns spec_screener scr_targets).
Proof.
  split.
  - apply (coalesce_columns_preserves_rows contact_frame contact_schema).
    repeat constructor. simpl. tauto.
  - apply (coalesce_columns_preserves_rows spec_screener scr_targets).
    + repeat constructor; simpl; intuition discriminate.
    + simpl. intros t cands H.
      repeat (destruct H as [H | H];
              [injection H as <- <-; split;
               [simpl; tauto | repeat constructor; discriminate]|]).
      destruct H.
Defined.

(** The claim C10 as it is worded fails: the header "EMAIL" is a target of
    the schema, no alias matches it, and its one cell is replaced by null. *)
Lemma coalesce_columns_overwrites_input :
  coalesce_columns contact_frame contact_schema
  = mkFrame 1 [ mkColumn "EMAIL" [NA] ]
  /\ ~ rows_preserved_except (fun _ => False) contact_frame
                            (coalesce_columns contact_frame contact_schema).
Proof.
  assert (E : coalesce_columns contact_frame contact_schema
              = mkFrame 1 [ mkColumn "EMAIL" [NA] ]) by (vm_compute; reflexivity).
  split; [exact E|]. rewrite E.
  intros (_ & kept & added & Hc & Hk & _). simpl in Hc, Hk.
  inversion Hk as [|cin cout cins couts H Hrest]; subst.
  inversion Hrest; subst. simpl in Hc. injection Hc as Hc _. subst cout.
  destruct H as [H | [[] _]]. discriminate H.
Qed.

(** ** Deduplication keeps the first row of each key *)

Section KeepFirst.

Context {K : Type} `{EqDecision K}.

Lemma keep_first_ge (seen : list K) (i : nat) (keys : list K) (j : nat) :
  In j (keep_first seen i keys) -> i <= j.
Proof.
  revert seen i. induction keys as [|k keys IH]; intros seen i; simpl; [intros []|].
  destruct (bool_decide (k ∈ seen)).
  - intros H. apply IH in H. lia.
  - intros [<- | H]; [lia|]. apply IH in H. lia.
Qed.

(** Position [i + d] is kept exactly when the key at offset [d] is new:
    not seen before the scan and at no smaller offset. *)
Lemma keep_first_offset (seen : list K) (i : nat) (keys : list K) (d : nat) :
  In (i + d) (keep_first seen i keys)
  <-> exists k, keys !! d = Some k /\ (k ∉ seen)
                /\ forall d', d' < d -> keys !! d' <> Some k.
Proof.
  revert seen i d. induction keys as [|k0 keys IH]; intros seen i d; simpl.
  - split; [intros [] | intros (k & Hk & _); discriminate Hk].
  - destruct (bool_decide (k0 ∈ seen)) eqn:Eseen.
    + apply bool_decide_eq_true in Eseen. destruct d as [|d].
      * split.
        -- intros H. apply keep_first_ge in H. lia.
        -- intros (k & Hk & Hns & _). simpl in Hk. injection Hk as <-. contradiction.
      * replace (i + S d) with (S i + d) by lia. rewrite IH. split.
        -- intros (k & Hk & Hns & Hfirst). exists k. split; [exact Hk|].
           split; [exact Hns|]. intros [|d'] Hd'; simpl.
           ++ intros E. injection E as ->. contradiction.
           ++ apply Hfirst. lia.
        -- intros (k & Hk & Hns & Hfirst). exists k. split; [exact Hk|].
           split; [exact Hns|]. intros d' Hd'. apply (Hfirst (S d')). lia.
    + apply bool_decide_eq_false in Eseen. destruct d as [|d].
      * split.
        -- intros _. exists k0. split; [reflexivity|]. split; [exact Eseen|].
           intros d' Hd'. lia.
        -- intros _. left. lia.
      * replace (i + S d) with (S i + d) by lia. split.
        -- intros [E | H]; [lia|]. apply IH in H as (k & Hk & Hns & Hfirst).
           exists k. split; [exact Hk|]. apply not_elem_of_cons in Hns as [Hne Hns].
           split; [exact Hns|]. intros [|d'] Hd'; simpl.
           ++ intros E. injection E as ->. contradiction.
           ++ apply Hfirst. lia.
        -- intros (k & Hk & Hns & Hfirst). right. apply IH.
           exists k. split; [exact Hk|]. split.
           ++ apply not_elem_of_cons. split; [|exact Hns].
              intros ->. apply (Hfirst 0); [lia | reflexivity].
           ++ intros d' Hd'. apply (Hfirst (S d')). lia.
Qed.

Lemma keep_first_sorted (seen : list K) (i : nat) (keys : list K) :
  StronglySorted lt (keep_first seen i keys).
Proof.
  revert seen i. induction keys as [|k keys IH]; intros seen i; simpl; [constructor|].
  destruct (bool_decide (k ∈ seen)); [apply IH|].
  constructor; [apply IH|]. apply List.Forall_forall. intros j Hj.
  apply keep_first_ge in Hj. lia.
Qed.

End KeepFirst.

Section RowsByPosition.

Lemma nth_map_lookup {A : Type} (f : nat -> A) (idx : list nat) (p j : nat) (d : A) :
  idx !! p = Some j -> nth p (List.map f idx) d = f j.
Proof.
  revert p. induction idx as [|a idx IH]; intros [|p] H; simpl in *;
    try discriminate.
  - now injection H as ->.
  - now apply IH.
Qed.

(** Row [p] of a table taken at the positions [idx] is the row of the
    source at the position [idx] holds there. *)
Lemma row_at_take_rows (idx : list nat) (df : DataFrame) (p j : nat) :
  idx !! p = Some j -> row_at (take_rows idx df) p = row_at df j.
Proof.
  intros H. unfold row_at, take_rows. simpl. rewrite List.map_map.
  apply List.map_ext. intros c. simpl.
  now apply (nth_map_lookup (fun i => nth i (data c) NaN)).
Qed.

Lemma lookup_map_seq {A : Type} (f : nat -> A) (n d : nat) :
  List.map f (seq 0 n) !! d = if (d <? n)%nat then Some (f d) else None.
Proof.
  rewrite list_lookup_fmap.
  destruct (Nat.ltb_spec d n) as [Hlt | Hge].
  - rewrite lookup_seq_lt by assumption. reflexivity.
  - rewrite lookup_seq_ge by assumption. reflexivity.
Qed.

End RowsByPosition.

(** What a successful [drop_duplicates] returns: the rows at the positions
    [kept], which are in increasing order and hold a position exactly when
    no earlier row has the same key. *)
Lemma drop_duplicates_inv (df : DataFrame) (subset : list string)
      (out : DataFrame) :
  drop_duplicates df subset = Ok out ->
  exists kept : list nat,
    out = take_rows kept df
    /\ StronglySorted lt kept
    /\ (forall j, In j kept <->
                  (j < nrows df
                   /\ forall j', j' < j ->
                        row_key (subset_columns df subset) j'
                        <> row_key (subset_columns df subset) j))
    /\ (forall p j, kept !! p = Some j -> row_at out p = row_at df j).
Proof.
  unfold drop_duplicates.
  destruct (forallb (fun l => mem l (names df)) subset); [|discriminate].
  intros H. injection H as <-.
  exists (keep_first [] 0 (row_keys df subset)).
  split; [reflexivity|]. split; [apply keep_first_sorted|]. split.
  - intros j. change j with (0 + j) at 1. rewrite keep_first_offset.
    unfold row_keys. split.
    + intros (k & Hk & _ & Hfirst). rewrite lookup_map_seq in Hk.
      destruct (Nat.ltb_spec j (nrows df)) as [Hlt | Hge]; [|discriminate Hk].
      injection Hk as <-. split; [exact Hlt|]. intros j' Hj' E.
      apply (Hfirst j' Hj'). rewrite lookup_map_seq.
      destruct (Nat.ltb_spec j' (nrows df)); [now rewrite E | lia].
    + intros [Hlt Hfirst]. exists (row_key (subset_columns df subset) j).
      split; [|split].
      * rewrite lookup_map_seq.
        destruct (Nat.ltb_spec j (nrows df)); [reflexivity | lia].
      * apply not_elem_of_nil.
      * intros j' Hj'. rewrite lookup_map_seq.
        destruct (Nat.ltb_spec j' (nrows df)); [|discriminate].
        intros E. injection E as E. now apply (Hfirst j' Hj').
  - intros p j Hp. now apply row_at_take_rows.
Qed.

(** ** The inner join *)

Section JoinFacts.

Lemma positions_from_ge (i : nat) (k : cell) (keys : list cell) (j : nat) :
  In j (positions_from i k keys) -> i <= j.
Proof.
  revert i. induction keys as [|k' keys IH]; intros i; simpl; [intros []|].
  destruct (bool_decide (k' = k)).
  - intros [<- | H]; [lia|]. apply IH in H. lia.
  - intros H. apply IH in H. lia.
Qed.

Lemma positions_from_offset (i : nat) (k : cell) (keys : list cell) (d : nat) :
  In (i + d) (positions_from i k keys) <-> keys !! d = Some k.
Proof.
  revert i d. induction keys as [|k' keys IH]; intros i d; simpl.
  - split; [intros [] | discriminate].
  - destruct (bool_decide (k' = k)) eqn:E.
    + apply bool_decide_eq_true in E. subst k'. destruct d as [|d]; simpl.
      * split; [reflexivity | intros _; left; lia].
      * replace (i + S d) with (S i + d) by lia. rewrite <- IH. split.
        -- intros [H | H]; [lia | exact H].
        -- intros H. now right.
    + apply bool_decide_eq_false in E. destruct d as [|d]; simpl.
      * split.
        -- intros H. apply positions_from_ge in H. lia.
        -- intros H. injection H as ->. contradiction.
      * replace (i + S d) with (S i + d) by lia. apply IH.
Qed.

Lemma positions_from_length (i : nat) (k : cell) (keys : list cell) :
  length (positions_from i k keys) = count_key k keys.
Proof.
  unfold count_key. revert i. induction keys as [|k' keys IH]; intros i; simpl;
    [reflexivity|].
  destruct (bool_decide (k' = k)); simpl; now rewrite IH.
Qed.

(** A position occurs once among the positions of a key, or not at all. *)
Lemma positions_from_count (i : nat) (k : cell) (keys : list cell) (d : nat) :
  length (List.filter (fun j => Nat.eqb j (i + d)) (positions_from i k keys))
  = if bool_decide (keys !! d = Some k) then 1 else 0.
Proof.
  revert i d. induction keys as [|k' keys IH]; intros i d; simpl; [reflexivity|].
  assert (Hrest : length (List.filter (fun j => Nat.eqb j i)
                              (positions_from (S i) k keys)) = 0).
  { apply length_zero_iff_nil.
    destruct (List.filter _ _) as [|j l] eqn:E; [reflexivity|].
    assert (Hj : In j (List.filter (fun j => Nat.eqb j i)
                         (positions_from (S i) k keys))) by (rewrite E; now left).
    apply filter_In in Hj as [Hj Hji]. apply positions_from_ge in Hj.
    apply Nat.eqb_eq in Hji. lia. }
  destruct d as [|d].
  - rewrite Nat.add_0_r. simpl. destruct (bool_decide (k' = k)) eqn:E.
    + simpl. rewrite Nat.eqb_refl. simpl. rewrite Hrest.
      apply bool_decide_eq_true in E. subst. now rewrite bool_decide_eq_true_2.
    + rewrite Hrest. apply bool_decide_eq_false in E.
      rewrite bool_decide_eq_false_2; [reflexivity | congruence].
  - replace (i + S d) with (S i + d) by lia.
    change ((k' :: keys) !! S d) with (keys !! d).
    destruct (bool_decide (k' = k)); cbn [List.filter].
    + destruct (Nat.eqb_spec i (S i + d)); [lia|]. apply IH.
    + apply IH.
Qed.

Lemma join_from_ge (i : nat) (lkeys rkeys : list cell) (a j : nat) :
  In (a, j) (join_from i lkeys rkeys) -> i <= a.
Proof.
  revert i. induction lkeys as [|k lkeys IH]; intros i; simpl; [intros []|].
  intros H. apply in_app_iff in H as [H | H].
  - apply in_map_iff in H as (x & E & _). injection E as <- _. lia.
  - apply IH in H. lia.
Qed.

Lemma join_from_offset (i : nat) (lkeys rkeys : list cell) (d j : nat) :
  In (i + d, j) (join_from i lkeys rkeys)
  <-> exists k, lkeys !! d = Some k /\ rkeys !! j = Some k.
Proof.
  revert i d. induction lkeys as [|k0 lkeys IH]; intros i d; simpl.
  - split; [intros [] | intros (k & Hk & _); discriminate Hk].
  - rewrite in_app_iff. destruct d as [|d]; simpl.
    + rewrite Nat.add_0_r. split.
      * intros [H | H].
        -- apply in_map_iff in H as (x & E & Hx). injection E as ->.
           exists k0. split; [reflexivity|].
           now apply (positions_from_offset 0 k0 rkeys j).
        -- apply join_from_ge in H. lia.
      * intros (k & Hk & Hr). injection Hk as ->. left.
        apply in_map_iff. exists j. split; [reflexivity|].
        now apply (positions_from_offset 0 k rkeys j).
    + replace (i + S d) with (S i + d) by lia. rewrite <- IH. split.
      * intros [H | H]; [|exact H].
        apply in_map_iff in H as (x & E & _). injection E as E _. lia.
      * intros H. now right.
Qed.

Lemma filter_nil_by {A : Type} (f : A -> bool) (l : list A) :
  (forall x, In x l -> f x = false) -> List.filter f l = [].
Proof.
  induction l as [|a l IH]; intros H; simpl; [reflexivity|].
  rewrite (H a) by now left. apply IH. intros x Hx. apply H. now right.
Qed.

Lemma fan_out_left_offset (i : nat) (lkeys rkeys : list cell) (d : nat) :
  fan_out_left (i + d) (join_from i lkeys rkeys)
  = match lkeys !! d with
    | Some k => count_key k rkeys
    | None => 0
    end.
Proof.
  unfold fan_out_left.
  revert i d. induction lkeys as [|k0 lkeys IH]; intros i d; simpl; [reflexivity|].
  rewrite List.filter_app, length_app. destruct d as [|d]; simpl.
  - rewrite Nat.add_0_r.
    rewrite (filter_nil_by _ (join_from (S i) lkeys rkeys)).
    + simpl. rewrite Nat.add_0_r, <- (positions_from_length 0).
      induction (positions_from 0 k0 rkeys) as [|x l IHl]; simpl; [reflexivity|].
      rewrite Nat.eqb_refl. simpl. now rewrite IHl.
    + intros [a j] H. apply join_from_ge in H. simpl.
      apply Nat.eqb_neq. lia.
  - replace (i + S d) with (S i + d) by lia. rewrite IH.
    rewrite filter_nil_by; [reflexivity|].
    intros [a j] H. apply in_map_iff in H as (x & E & _). injection E as <- _.
    simpl. apply Nat.eqb_neq. lia.
Qed.

Lemma fan_out_right_from (i : nat) (lkeys rkeys : list cell) (j : nat) :
  fan_out_right j (join_from i lkeys rkeys)
  = match rkeys !! j with
    | Some k => count_key k lkeys
    | None => 0
    end.
Proof.
  unfold fan_out_right, count_key.
  revert i. induction lkeys as [|k0 lkeys IH]; intros i; simpl.
  - now destruct (rkeys !! j).
  - rewrite List.filter_app, length_app, IH.
    assert (E : length (List.filter (fun p : nat * nat => Nat.eqb (snd p) j)
                          (List.map (pair i) (positions_from 0 k0 rkeys)))
                = if bool_decide (rkeys !! j = Some k0) then 1 else 0).
    { rewrite <- (positions_from_count 0 k0 rkeys j). simpl.
      induction (positions_from 0 k0 rkeys) as [|x l IHl]; simpl; [reflexivity|].
      destruct (Nat.eqb x j); simpl; now rewrite IHl. }
    rewrite E. destruct (rkeys !! j) as [k|].
    + destruct (decide (k0 = k)) as [-> | Hne].
      * rewrite !bool_decide_eq_true_2 by reflexivity. reflexivity.
      * rewrite !bool_decide_eq_false_2 by congruence. reflexivity.
    + rewrite bool_decide_eq_false_2 by discriminate. reflexivity.
Qed.

Lemma join_indexers_In (lkeys rkeys : list cell) (i j : nat) :
  In (i, j) (join_indexers lkeys rkeys)
  <-> exists k, lkeys !! i = Some k /\ rkeys !! j = Some k.
Proof. exact (join_from_offset 0 lkeys rkeys i j). Qed.

Lemma fan_out_left_join (lkeys rkeys : list cell) (i : nat) :
  fan_out_left i (join_indexers lkeys rkeys)
  = match lkeys !! i with
    | Some k => count_key k rkeys
    | None => 0
    end.
Proof. exact (fan_out_left_offset 0 lkeys rkeys i). Qed.

Lemma fan_out_right_join (lkeys rkeys : list cell) (j : nat) :
  fan_out_right j (join_indexers lkeys rkeys)
  = match rkeys !! j with
    | Some k => count_key k lkeys
    | None => 0
    end.
Proof. exact (fan_out_right_from 0 lkeys rkeys j). Qed.

Lemma count_key_zero (k : cell) (keys : list cell) :
  ~ In k keys -> count_key k keys = 0.
Proof.
  intros H. unfold count_key. rewrite filter_nil_by; [reflexivity|].
  intros x Hx. apply bool_decide_eq_false. intros ->. contradiction.
Qed.

End JoinFacts.

Section MergeFacts.

Lemma key_values_inv (key : string) (df : DataFrame) (ks : list cell) :
  key_values key df = Ok ks ->
  exists c, List.filter (has_label key) (cols df) = [c] /\ data c = ks.
Proof.
  unfold key_values.
  destruct (List.filter (has_label key) (cols df)) as [|c [|c' l]];
    try discriminate.
  intros H. injection H as <-. now exists c.
Qed.

Lemma data_add_suffix (overlap : list string) (sfx : string) (c : Column) :
  data (add_suffix overlap sfx c) = data c.
Proof. unfold add_suffix. now destruct (mem (name c) overlap). Qed.

Lemma row_of_taken (idx : list nat) (overlap : list string) (sfx : string)
      (cs : list Column) (p j : nat) :
  idx !! p = Some j ->
  List.map (fun c => nth p (data c) NaN)
           (List.map (take idx) (List.map (add_suffix overlap sfx) cs))
  = List.map (fun c => nth j (data c) NaN) cs.
Proof.
  intros H. rewrite !List.map_map. apply List.map_ext. intros c. simpl.
  rewrite data_add_suffix.
  now apply (nth_map_lookup (fun i => nth i (data c) NaN)).
Qed.

(** What a successful merge returns. *)
Lemma merge_inner_inv (key : string) (left right merged : DataFrame) :
  merge_inner key left right = Ok merged ->
  exists lk rk overlap,
    key_values key left = Ok lk /\ key_values key right = Ok rk
    /\ overlap = List.filter (fun l => mem l (names (drop_columns right [key])))
                             (names left)
    /\ merged
       = mkFrame (length (join_indexers lk rk))
           (List.map (take (List.map fst (join_indexers lk rk)))
                     (List.map (add_suffix overlap "_x") (cols left))
            ++ List.map (take (List.map snd (join_indexers lk rk)))
                        (List.map (add_suffix overlap "_y")
                                  (cols (drop_columns right [key])))).
Proof.
  unfold merge_inner.
  destruct (key_values key left) as [lk|] eqn:El; [|discriminate].
  destruct (key_values key right) as [rk|] eqn:Er; [|discriminate].
  cbn [bind].
  match goal with |- context [if ?b then _ else _] => destruct b end;
    [discriminate|].
  intros H. injection H as <-. exists lk, rk. eexists.
  repeat split; reflexivity.
Qed.

End MergeFacts.

(** A successful merge is the inner join on the key columns: its rows are
    the pairs of a left and a right row with equal keys, each made of the
    cells of both rows. *)
Lemma merge_inner_rows (key : string) (left right merged : DataFrame) :
  merge_inner key left right = Ok merged ->
  exists lk rk : list cell,
    key_values key left = Ok lk /\ key_values key right = Ok rk
    /\ nrows merged = length (join_indexers lk rk)
    /\ (forall p i j, join_indexers lk rk !! p = Some (i, j) ->
                      row_at merged p
                      = (row_at left i
                         ++ row_at (drop_columns right [key]) j)%list).
Proof.
  intros H.
  apply merge_inner_inv in H as (lk & rk & overlap & El & Er & _ & ->).
  exists lk, rk. split; [exact El|]. split; [exact Er|].
  split; [reflexivity|].
  intros p i j Hp. unfold row_at. cbn [cols]. rewrite List.map_app.
  f_equal.
  - apply row_of_taken. rewrite list_lookup_fmap, Hp. reflexivity.
  - apply row_of_taken. rewrite list_lookup_fmap, Hp. reflexivity.
Qed.

(** ** The final column order (C8) *)

Section ReorderFacts.

Lemma names_filter_label (l : string) (cs : list Column) :
  List.map name (List.filter (has_label l) cs)
  = repeat l (length (List.filter (has_label l) cs)).
Proof.
  induction cs as [|c cs IH]; simpl; [reflexivity|].
  destruct (has_label l c) eqn:E; [|exact IH].
  apply has_label_true in E. simpl. now rewrite E, IH.
Qed.

Lemma names_select (cs : list Column) (labels : list string) :
  List.map name (flat_map (fun l => List.filter (has_label l) cs) labels)
  = flat_map (fun l => repeat l (length (List.filter (has_label l) cs))) labels.
Proof.
  induction labels as [|l labels IH]; simpl; [reflexivity|].
  now rewrite List.map_app, names_filter_label, IH.
Qed.

(** With distinct labels a label picks one column. *)
Lemma filter_label_unique (l : string) (cs : list Column) :
  List.NoDup (List.map name cs) -> In l (List.map name cs) ->
  length (List.filter (has_label l) cs) = 1.
Proof.
  induction cs as [|c cs IH]; simpl; [intros _ []|].
  intros Hnd Hin. apply NoDup_cons_iff in Hnd as [Hnot Hnd].
  destruct (has_label l c) eqn:E.
  - apply has_label_true in E. subst l. simpl. f_equal.
    apply length_zero_iff_nil. apply filter_nil_by. intros c' Hc'.
    destruct (has_label (name c) c') eqn:E'; [|reflexivity].
    apply has_label_true in E'. exfalso. apply Hnot. rewrite <- E'.
    now apply in_map.
  - destruct Hin as [Hin | Hin].
    + apply has_label_true in Hin. congruence.
    + now apply IH.
Qed.

Lemma flat_map_singletons (f : string -> nat) (labels : list string) :
  (forall l, In l labels -> f l = 1) ->
  flat_map (fun l => repeat l (f l)) labels = labels.
Proof.
  induction labels as [|l labels IH]; intros H; simpl; [reflexivity|].
  rewrite (H l) by now left. simpl. f_equal. apply IH.
  intros l' Hl'. apply H. now right.
Qed.

Lemma getitem_labels_ok (df : DataFrame) (labels : list string) :
  (forall l, In l labels -> In l (names df)) ->
  getitem_labels df labels
  = Ok (mkFrame (nrows df)
          (flat_map (fun l => List.filter (has_label l) (cols df)) labels)).
Proof.
  intros H. unfold getitem_labels.
  replace (forallb (fun l => mem l (names df)) labels) with true; [reflexivity|].
  symmetry. apply forallb_forall. intros l Hl. apply mem_In. now apply H.
Qed.

Lemma getitem_labels_inv (df : DataFrame) (labels : list string) (out : DataFrame) :
  getitem_labels df labels = Ok out ->
  (forall l, In l labels -> In l (names df))
  /\ out = mkFrame (nrows df)
             (flat_map (fun l => List.filter (has_label l) (cols df)) labels).
Proof.
  unfold getitem_labels.
  destruct (forallb (fun l => mem l (names df)) labels) eqn:E; [|discriminate].
  intros H. injection H as <-. split; [|reflexivity].
  intros l Hl. apply mem_In. revert l Hl. now apply forallb_forall.
Qed.

Lemma tail_labels_present (df : DataFrame) (l : string) :
  In l (List.filter (fun c => negb (mem c head)) (names df)) -> In l (names df).
Proof. intros H. now apply filter_In in H as [H _]. Qed.

End ReorderFacts.

(** C8, as amended.  The last step selects the labels of the head and then
    the other labels of the merged table in their order; each label brings
    every column that carries it.  So the step succeeds when the six head
    labels are present, and when the labels of the merged table are pairwise
    distinct the output order is exactly the head followed by the remaining
    columns in their order, each output column being a column of the merged
    table. *)
Theorem reorder_head_then_rest (merged : DataFrame) :
  (forall out, reorder merged = Ok out ->
               nrows out = nrows merged
               /\ names out
                  = flat_map (fun l => repeat l (occurrences l merged))
                      (head ++ List.filter (fun c => negb (mem c head))
                                           (names merged))%list)
  /\ ((forall h, In h head -> In h (names merged)) ->
      exists out, reorder merged = Ok out
                  /\ (forall c, In c (cols out) -> In c (cols merged))
                  /\ (List.NoDup (names merged) ->
                      names out
                      = (head ++ List.filter (fun c => negb (mem c head))
                                             (names merged))%list)).
Proof.
  unfold reorder. split.
  - intros out H. apply getitem_labels_inv in H as [_ ->].
    split; [reflexivity|]. unfold names at 1. cbn [cols]. apply names_select.
  - intros Hhead.
    assert (Hall : forall l,
               In l (head ++ List.filter (fun c => negb (mem c head)) (names merged))%list ->
               In l (names merged)).
    { intros l Hl. apply in_app_iff in Hl as [Hl | Hl];
        [now apply Hhead | now apply tail_labels_present in Hl]. }
    eexists. split; [now apply getitem_labels_ok|]. split.
    + cbn [cols]. intros c Hc. apply in_flat_map in Hc as (l & _ & Hc).
      now apply filter_In in Hc as [Hc _].
    + intros Hnd. unfold names at 1. cbn [cols]. rewrite names_select.
      apply flat_map_singletons. intros l Hl.
      apply filter_label_unique; [exact Hnd | now apply Hall].
Qed.

Lemma reorder_head_then_rest_witness :
  (exists out, reorder shuffled_merged = Ok out
               /\ (forall c, In c (cols out) -> In c (cols shuffled_merged))
               /\ names out
                  = [ "User name"; "Start Time"; "End Time"; "Task Link";
                      "Moderator Link"; "Observers Public Link"; "Q1"; "Q2" ])
  /\ nrows two_start_merged = nrows two_start_merged
  /\ names two_start_merged
     = flat_map (fun l => repeat l (occurrences l two_start_merged))
         (head ++ List.filter (fun c => negb (mem c head))
                              (names two_start_merged))%list.
Proof.
  split.
  - destruct (proj2 (reorder_head_then_rest shuffled_merged)) as (out & Hr & Hc & Hn).
    + vm_compute. tauto.
    + exists out. split; [exact Hr|]. split; [exact Hc|].
      rewrite Hn; [reflexivity|].
      repeat constructor; simpl; intuition discriminate.
  - apply (proj1 (reorder_head_then_rest two_start_merged) two_start_merged).
    vm_compute. reflexivity.
Defined.

(** The claim C8 as it is worded fails: a calendar with the headers
    "Start Time" and "Start Time " compiles to a table in which Start Time
    stands twice in the head. *)
Lemma reorder_repeats_a_repeated_label :
  compile prints_missing two_start_calendar one_row_screener
  = reorder two_start_merged
  /\ compile keeps_missing two_start_calendar one_row_screener
     = reorder two_start_merged
  /\ (exists out,
         reorder two_start_merged = Ok out
         /\ names out
            = [ "User name"; "Start Time"; "Start Time"; "End Time"; "Task Link";
                "Moderator Link"; "Observers Public Link"; "Q1" ]
         /\ names out
            <> (head ++ List.filter (fun c => negb (mem c head))
                                    (names two_start_merged))%list).
Proof.
  split; [vm_compute; reflexivity|].
  split; [vm_compute; reflexivity|].
  eexists. split; [vm_compute; reflexivity|].
  split; [reflexivity | discriminate].
Qed.

(** ** The columns of the compiled table (C7) *)

Section CompiledColumns.

Lemma last_char_app (n : string) (a b : ascii) :
  last_char (n ++ String a (String b EmptyString)) = Some b.
Proof.
  induction n as [|c n IH]; [reflexivity|].
  change (String c n ++ String a (String b EmptyString))
    with (String c (n ++ String a (String b EmptyString))).
  cbn [last_char]. rewrite IH.
  destruct (n ++ String a (String b EmptyString)) eqn:E; [|reflexivity].
  destruct n; discriminate E.
Qed.

(** No head label ends in one of the merge suffixes. *)
Lemma head_not_suffixed (n sfx h : string) :
  In h head -> sfx = "_x" \/ sfx = "_y" -> n ++ sfx <> h.
Proof.
  intros Hh Hs E. apply (f_equal last_char) in E.
  destruct Hs as [-> | ->]; rewrite last_char_app in E;
    simpl in Hh; repeat (destruct Hh as [<- | Hh]; [discriminate E|]);
    destruct Hh.
Qed.

Lemma names_getitem_labels (df : DataFrame) (labels : list string)
      (out : DataFrame) (x : string) :
  getitem_labels df labels = Ok out -> In x (names out) ->
  In x labels /\ In x (names df).
Proof.
  intros H Hx. apply getitem_labels_inv in H as [Hall ->].
  unfold names in Hx. cbn [cols] in Hx.
  apply in_map_iff in Hx as (c & <- & Hc).
  apply in_flat_map in Hc as (l & Hl & Hc).
  apply filter_In in Hc as [Hc E]. apply has_label_true in E. subst l.
  split; [exact Hl | now apply Hall].
Qed.

Lemma names_setitem_column (df : DataFrame) (l : string) (vals : list cell)
      (x : string) :
  In x (names (setitem_column df l vals)) -> In x (names df) \/ x = l.
Proof.
  unfold setitem_column. destruct (mem l (names df)); unfold names; cbn [cols].
  - intros H. apply in_map_iff in H as (c & <- & Hc).
    apply in_map_iff in Hc as (c' & <- & Hc').
    destruct (has_label l c') eqn:E.
    + now right.
    + left. now apply in_map.
  - rewrite List.map_app. intros H. apply in_app_iff in H as [H | [<- | []]].
    + now left.
    + now right.
Qed.

Lemma names_setitem_present (df : DataFrame) (l : string) (vals : list cell) :
  In l (names df) -> names (setitem_column df l vals) = names df.
Proof.
  intros H. apply mem_In in H. unfold setitem_column. rewrite H.
  unfold names. cbn [cols]. rewrite List.map_map. apply List.map_ext_in.
  intros c _. destruct (has_label l c) eqn:E; [|reflexivity].
  apply has_label_true in E. now rewrite E.
Qed.

Lemma names_drop_columns (df : DataFrame) (labels : list string) (x : string) :
  In x (names (drop_columns df labels)) <-> In x (names df) /\ ~ In x labels.
Proof.
  unfold names, drop_columns. cbn [cols]. rewrite !in_map_iff. split.
  - intros (c & <- & Hc). apply filter_In in Hc as [Hc E].
    apply negb_true_iff, mem_false_In in E. split; [|exact E].
    now exists c.
  - intros [(c & <- & Hc) Hnot]. exists c. split; [reflexivity|].
    apply filter_In. split; [exact Hc|].
    now apply negb_true_iff, mem_false_In.
Qed.

Lemma names_take_rows (idx : list nat) (df : DataFrame) :
  names (take_rows idx df) = names df.
Proof. unfold names, take_rows. cbn [cols]. now rewrite List.map_map. Qed.

Lemma names_normalize_user_name (df out : DataFrame) :
  normalize_user_name df = Ok out -> names out = names df.
Proof.
  unfold normalize_user_name.
  destruct (List.filter (has_label "User name") (cols df)) as [|c [|c' l]] eqn:E;
    [discriminate | |].
  - intros H. injection H as <-. apply names_setitem_present.
    assert (Hc : In c (List.filter (has_label "User name") (cols df)))
      by (rewrite E; now left).
    apply filter_In in Hc as [Hc El]. apply has_label_true in El.
    rewrite <- El. now apply in_map.
  - destruct (Nat.eqb (nrows df) 0); [|discriminate].
    intros H. now injection H as <-.
Qed.

Lemma names_drop_duplicates (df out : DataFrame) (subset : list string) :
  drop_duplicates df subset = Ok out -> names out = names df.
Proof.
  unfold drop_duplicates.
  destruct (forallb (fun l => mem l (names df)) subset); [|discriminate].
  intros H. injection H as <-. apply names_take_rows.
Qed.

Lemma name_add_suffix (overlap : list string) (sfx : string) (c : Column) :
  name (add_suffix overlap sfx c)
  = if mem (name c) overlap then name c ++ sfx else name c.
Proof. unfold add_suffix. now destruct (mem (name c) overlap). Qed.

(** A label of the merged table comes from a label [n] of one side, which
    is kept when [n] is on that side only and suffixed when on both. *)
Lemma names_merge_inner (key : string) (left right merged : DataFrame) (x : string) :
  merge_inner key left right = Ok merged -> In x (names merged) ->
  exists n sfx,
    (sfx = "_x" /\ In n (names left)
     \/ sfx = "_y" /\ In n (names right) /\ n <> key)
    /\ (In n (names left) /\ In n (names right) /\ n <> key /\ x = n ++ sfx
        \/ ~ (In n (names left) /\ In n (names right) /\ n <> key) /\ x = n).
Proof.
  intros H Hx.
  apply merge_inner_inv in H as (lk & rk & overlap & _ & _ & Hov & ->).
  assert (Hmem : forall n, In n (names left) ->
             (mem n overlap = true <-> In n (names right) /\ n <> key)).
  { intros n Hn. rewrite mem_In, Hov, filter_In, mem_In, names_drop_columns.
    simpl. intuition congruence. }
  assert (Hmem' : forall n, mem n overlap = true -> In n (names left)).
  { intros n Hn. apply mem_In in Hn. rewrite Hov in Hn.
    now apply filter_In in Hn as [Hn _]. }
  unfold names in Hx. cbn [cols] in Hx. rewrite List.map_app in Hx.
  apply in_app_iff in Hx as [Hx | Hx];
    apply in_map_iff in Hx as (c & <- & Hc);
    apply in_map_iff in Hc as (c1 & <- & Hc);
    apply in_map_iff in Hc as (c0 & <- & Hc);
    cbn [take name]; rewrite name_add_suffix.
  - assert (Hn : In (name c0) (names left)) by now apply in_map.
    exists (name c0), "_x". split; [left; now split|].
    destruct (mem (name c0) overlap) eqn:E.
    + left. apply Hmem in E as [E1 E2]; tauto.
    + right. split; [|reflexivity]. intros (_ & H1 & H2).
      assert (mem (name c0) overlap = true) by (apply Hmem; tauto). congruence.
  - assert (Hn : In (name c0) (names (drop_columns right [key])))
      by now apply in_map.
    apply names_drop_columns in Hn as [Hn Hk].
    assert (Hne : name c0 <> key) by (intros E0; apply Hk; left; now symmetry).
    exists (name c0), "_y". split; [right; now split|].
    destruct (mem (name c0) overlap) eqn:E.
    + left. pose proof (Hmem' _ E) as Hl. tauto.
    + right. split; [|reflexivity]. intros (Hl & _ & _).
      assert (mem (name c0) overlap = true) by (apply Hmem; tauto). congruence.
Qed.

End CompiledColumns.

(** The worked example of the specification: one merged row, the missing
    links as nulls, the answer carried over, no EMAIL and no Status. *)
Example spec_example_compiles (rule : astype_rule) :
  compile rule spec_calendar spec_screener
  = Ok (mkFrame 1
          [ mkColumn "User name" [Str "Ann"];
            mkColumn "Start Time" [Str "2024-01-01T10:00"];
            mkColumn "End Time" [Str "2024-01-01T10:30"];
            mkColumn "Task Link" [NA];
            mkColumn "Moderator Link" [NA];
            mkColumn "Observers Public Link" [NA];
            mkColumn "Q1 Rating" [Str "5"] ]).
Proof. destruct rule; vm_compute; reflexivity. Qed.

(** The stages of a run of [compile] that returns a table. *)
Lemma compile_inv (rule : astype_rule) (cal_df scr_df out : DataFrame) :
  compile rule cal_df scr_df = Ok out ->
  exists cal_std scr_answers cal_key scr_key key_frame merged merged3 merged4,
    getitem_labels (coalesce_columns (strip_headers cal_df) cal_targets)
                   keep_calendar = Ok cal_std
    /\ getitem_labels (coalesce_columns (strip_headers scr_df) scr_targets)
         (List.filter (fun c => negb (mem c exclude))
            (names (coalesce_columns (strip_headers scr_df) scr_targets)))
       = Ok scr_answers
    /\ email_key_series rule cal_std = Ok cal_key
    /\ email_key_series rule
         (coalesce_columns (strip_headers scr_df) scr_targets)
       = Ok scr_key
    /\ getitem_labels
         (setitem_column (coalesce_columns (strip_headers scr_df) scr_targets)
                         "EMAIL_key" scr_key)
         ["EMAIL_key"] = Ok key_frame
    /\ merge_inner "EMAIL_key" (setitem_column cal_std "EMAIL_key" cal_key)
                   (concat_axis1 key_frame scr_answers) = Ok merged
    /\ normalize_user_name
         (if mem "EMAIL" (names (drop_columns merged ["EMAIL_key"]))
          then drop_columns (drop_columns merged ["EMAIL_key"]) ["EMAIL"]
          else drop_columns merged ["EMAIL_key"]) = Ok merged3
    /\ drop_duplicates merged3 ["User name"; "Start Time"] = Ok merged4
    /\ reorder merged4 = Ok out.
Proof.
  unfold compile. cbv zeta. intros H.
  repeat match type of H with
         | bind ?m _ = Ok _ =>
             let E := fresh "E" in
             destruct m eqn:E; [cbn [bind] in H | discriminate H]
         end.
  do 8 eexists. repeat split; eassumption.
Qed.

(** C7.  A compiled table has no column labelled EMAIL and none labelled
    TESTER, DATE, STATUS, ADMIN RATING or CLIENT RATING; apart from the six
    head labels, each of its labels is an answer column of the normalized
    screener, that is a label of it outside the exclusion list. *)
Theorem compile_drops_linking_columns (rule : astype_rule)
        (cal_df scr_df out : DataFrame) :
  compile rule cal_df scr_df = Ok out ->
  ~ In "EMAIL" (names out)
  /\ (forall x, In x exclude -> ~ In x (names out))
  /\ (forall x, In x (names out) ->
                In x head
                \/ (In x (names (coalesce_columns (strip_headers scr_df) scr_targets))
                    /\ ~ In x exclude)).
Proof.
  intros H.
  apply compile_inv in H
    as (cal_std & scr_answers & cal_key & scr_key & key_frame & merged
        & merged3 & merged4 & Hcal & Hans & _ & _ & Hkf & Hmerge & Hnorm
        & Hdedup & Hre).
  set (scr_std := coalesce_columns (strip_headers scr_df) scr_targets) in *.
  (* the labels on each side of the merge *)
  assert (Hleft : forall n, In n (names (setitem_column cal_std "EMAIL_key" cal_key)) ->
                            In n keep_calendar \/ n = "EMAIL_key").
  { intros n Hn. apply names_setitem_column in Hn as [Hn | Hn]; [left | now right].
    now apply (names_getitem_labels _ _ _ _ Hcal) in Hn as [Hn _]. }
  assert (Hright : forall n, In n (names (concat_axis1 key_frame scr_answers)) ->
                             n <> "EMAIL_key" ->
                             In n (names scr_std) /\ ~ In n exclude).
  { intros n Hn Hne. unfold names, concat_axis1 in Hn. cbn [cols] in Hn.
    rewrite List.map_app in Hn. apply in_app_iff in Hn as [Hn | Hn].
    - apply (names_getitem_labels _ _ _ _ Hkf) in Hn as [[<- | []] _].
      now contradiction Hne.
    - apply (names_getitem_labels _ _ _ _ Hans) in Hn as [Hn _].
      apply filter_In in Hn as [Hn E]. split; [exact Hn|].
      now apply mem_false_In, negb_true_iff. }
  (* the labels that reach the output *)
  assert (Hout : forall x, In x (names out) ->
                           In x (names merged) /\ x <> "EMAIL_key" /\ x <> "EMAIL").
  { intros x Hx. unfold reorder in Hre.
    apply (names_getitem_labels _ _ _ _ Hre) in Hx as [_ Hx].
    rewrite (names_drop_duplicates _ _ _ Hdedup) in Hx.
    rewrite (names_normalize_user_name _ _ Hnorm) in Hx.
    destruct (mem "EMAIL" (names (drop_columns merged ["EMAIL_key"]))) eqn:E.
    - apply names_drop_columns in Hx as [Hx H1].
      apply names_drop_columns in Hx as [Hx H2].
      simpl in H1, H2. intuition congruence.
    - apply mem_false_In in E.
      pose proof Hx as Hx'. apply names_drop_columns in Hx as [Hx H2].
      simpl in H2. split; [exact Hx|]. split; [intuition congruence|].
      intros ->. contradiction. }
  assert (Hheads : forall h, In h head -> In h (names merged)).
  { intros h Hh. unfold reorder in Hre.
    apply getitem_labels_inv in Hre as [Hall _].
    assert (Hin : In h (names merged4)) by (apply Hall, in_app_iff; now left).
    rewrite (names_drop_duplicates _ _ _ Hdedup) in Hin.
    rewrite (names_normalize_user_name _ _ Hnorm) in Hin.
    destruct (mem "EMAIL" (names (drop_columns merged ["EMAIL_key"]))).
    - apply names_drop_columns in Hin as [Hin _].
      now apply names_drop_columns in Hin as [Hin _].
    - now apply names_drop_columns in Hin as [Hin _]. }
  (* a head label on both sides would be suffixed away *)
  assert (Hsides : forall n, In n (names (setitem_column cal_std "EMAIL_key" cal_key)) ->
                             In n (names (concat_axis1 key_frame scr_answers)) ->
                             n <> "EMAIL_key" -> False).
  { intros n Hl Hr Hne.
    destruct (Hright n Hr Hne) as [_ Hex].
    assert (Hh : In n head).
    { destruct (Hleft n Hl) as [Hk | Hk]; [|contradiction].
      simpl in Hk. simpl.
      destruct Hk as [Hk | [Hk | Hk]]; [now left | | now right].
      exfalso. apply Hex. rewrite <- Hk. simpl. tauto. }
    destruct (names_merge_inner _ _ _ _ n Hmerge (Hheads n Hh))
      as (m & sfx & Hsfx & [(H1 & H2 & H3 & E) | (Hnot & E)]).
    - symmetry in E. revert E. apply head_not_suffixed; [exact Hh|].
      destruct Hsfx as [[-> _] | [-> _]]; tauto.
    - subst m. apply Hnot. tauto. }
  assert (Hmain : forall x, In x (names out) ->
                            In x head \/ (In x (names scr_std) /\ ~ In x exclude)).
  { intros x Hx. destruct (Hout x Hx) as (Hm & Hk & He).
    destruct (names_merge_inner _ _ _ _ x Hmerge Hm)
      as (n & sfx & Hsfx & [(H1 & H2 & H3 & E) | (_ & E)]).
    - exfalso. now apply (Hsides n).
    - subst n. destruct Hsfx as [[_ Hl] | (_ & Hr & _)].
      + left. destruct (Hleft x Hl) as [Hin | Hin]; [|contradiction].
        simpl in Hin. simpl. intuition congruence.
      + right. now apply Hright. }
  assert (Hexcl : forall x, In x exclude -> ~ In x (names out)).
  { intros x Hx Hin. destruct (Hmain x Hin) as [Hh | [_ Hn]]; [|contradiction].
    simpl in Hx, Hh.
    repeat (destruct Hx as [<- | Hx];
            [repeat (destruct Hh as [Hh | Hh]; [discriminate Hh|]); destruct Hh|]).
    destruct Hx. }
  split; [apply Hexcl; simpl; tauto|]. split; [exact Hexcl | exact Hmain].
Qed.

Lemma compile_drops_linking_columns_witness :
  ~ In "EMAIL"
       [ "User name"; "Start Time"; "End Time"; "Task Link"; "Moderator Link";
         "Observers Public Link"; "Q1 Rating" ]
  /\ (forall x, In x exclude ->
                ~ In x [ "User name"; "Start Time"; "End Time"; "Task Link";
                         "Moderator Link"; "Observers Public Link"; "Q1 Rating" ]).
Proof.
  destruct (compile_drops_linking_columns prints_missing
              spec_calendar spec_screener
              (mkFrame 1
                 [ mkColumn "User name" [Str "Ann"];
                   mkColumn "Start Time" [Str "2024-01-01T10:00"];
                   mkColumn "End Time" [Str "2024-01-01T10:30"];
                   mkColumn "Task Link" [NA];
                   mkColumn "Moderator Link" [NA];
                   mkColumn "Observers Public Link" [NA];
                   mkColumn "Q1 Rating" [Str "5"] ]))
    as (H1 & H2 & _).
  - vm_compute. reflexivity.
  - split; [exact H1 | exact H2].
Defined.


(** * Further properties of the code *)

(** ** The project label on ordinary file names *)

Section ProjectNameMore.

Lemma all_chars_substring (p : ascii -> bool) (s : string) (n m : nat) :
  all_chars p s = true -> all_chars p (String.substring n m s) = true.
Proof.
  revert n m. induction s as [|c s IH]; intros n m H.
  - destruct n, m; reflexivity.
  - simpl in H. apply andb_true_iff in H as [Hc Hs]. destruct n as [|n].
    + destruct m as [|m]; [reflexivity|]. simpl. now rewrite Hc, IH.
    + simpl. now apply IH.
Qed.

Lemma no_backslash_basename (p : string) :
  no_backslash p = true -> no_backslash (basename p) = true.
Proof.
  unfold basename, no_backslash. intros H.
  destruct (rfind "/" p); [now apply all_chars_substring | exact H].
Qed.

Lemma no_backslash_splitext_root (p : string) :
  no_backslash p = true -> no_backslash (splitext_root p) = true.
Proof.
  unfold splitext_root, no_backslash. intros H.
  destruct (rfind "." p); [|exact H].
  match goal with |- context [if ?b then _ else _] => destruct b end;
    [now apply all_chars_substring | exact H].
Qed.

Lemma strip_by_first (p : ascii -> bool) (s : string) (c : ascii) :
  starts_with c (strip_by p s) = true -> p c = false.
Proof.
  unfold strip_by.
  destruct (lstrip_by_head p s) as [E | (a & r & E & Ha)]; rewrite E.
  - discriminate.
  - destruct (rstrip_by_head p a r Ha) as [r' E']. rewrite E'.
    cbv beta iota delta [starts_with].
    intros H. apply Ascii.eqb_eq in H. now subst.
Qed.

Lemma rstrip_by_last (p : ascii -> bool) (s : string) (c : ascii) :
  last_char (rstrip_by p s) = Some c -> p c = false.
Proof.
  induction s as [|a s IH]; [discriminate|].
  cbn [rstrip_by]. destruct (rstrip_by p s) as [|b r].
  - destruct (p a) eqn:Ea; [discriminate|].
    simpl. intros H. now injection H as <-.
  - exact IH.
Qed.

End ProjectNameMore.

(** X1.  For a file name without a backslash the two substitutions change
    nothing: the label is the stem (directory and extension removed) with
    surrounding blanks, hyphens and underscores trimmed, or "Project" when
    that is empty. *)
Theorem best_project_name_without_backslash (name : string) :
  no_backslash name = true ->
  best_project_name name
  = (if is_empty (strip_by is_trim_char (splitext_root (basename name)))
     then "Project"
     else strip_by is_trim_char (splitext_root (basename name))).
Proof.
  intros H. unfold best_project_name.
  assert (Hs : no_backslash (splitext_root (basename name)) = true)
    by now apply no_backslash_splitext_root, no_backslash_basename.
  now rewrite (re_sub_literals_no_backslash _ Hs),
              (re_sub_backslash_s_no_backslash _ Hs).
Qed.

Lemma best_project_name_without_backslash_witness :
  best_project_name "exports/_Calendar copy - Acme_.xlsx" = "Calendar copy - Acme".
Proof.
  rewrite (best_project_name_without_backslash
             "exports/_Calendar copy - Acme_.xlsx"); reflexivity.
Defined.

(** X2.  The label is never empty and never begins or ends with a blank, a
    hyphen or an underscore. *)
Theorem best_project_name_trimmed (name : string) :
  best_project_name name <> EmptyString
  /\ (forall c, starts_with c (best_project_name name) = true ->
                is_trim_char c = false)
  /\ (forall c, last_char (best_project_name name) = Some c ->
                is_trim_char c = false).
Proof.
  unfold best_project_name.
  set (stem := re_sub_backslash_s false _).
  destruct (strip_by is_trim_char stem) as [|a r] eqn:E; cbn [is_empty].
  - split; [discriminate|]. split.
    + intros c H. cbv beta iota delta [starts_with] in H.
      apply Ascii.eqb_eq in H. now subst.
    + intros c H. simpl in H. now injection H as <-.
  - split; [discriminate|]. rewrite <- E. split.
    + apply strip_by_first.
    + unfold strip_by. apply rstrip_by_last.
Qed.

(** ** [normalize_text] *)

(** X3.  [normalize_text] passes a missing value through unchanged and
    never turns text into a missing value; it is idempotent; and text that
    differs only in surrounding whitespace is normalized to the same cell. *)
Theorem normalize_text_canonical :
  (forall v, isna v = true -> normalize_text v = v)
  /\ (forall v, isna (normalize_text v) = isna v)
  /\ (forall v, normalize_text (normalize_text v) = normalize_text v)
  /\ (forall pre s post,
         all_chars isspace pre = true -> all_chars isspace post = true ->
         normalize_text (Str (pre ++ s ++ post)) = normalize_text (Str s)).
Proof.
  split; [|split; [|split]].
  - intros v H. unfold normalize_text. now rewrite H.
  - intros [| |s]; reflexivity.
  - intros [| |s]; try reflexivity.
    unfold normalize_text. simpl. unfold strip. now rewrite strip_by_idem.
  - intros pre s post Hpre Hpost. unfold normalize_text. simpl.
    unfold strip. now rewrite strip_by_pad.
Qed.

(** ** Role detection and the default selections *)

Section UploadFacts.

Lemma find_first {A : Type} (f : A -> bool) (l : list A) (x : A) :
  List.find f l = Some x
  <-> exists pre post, l = (pre ++ x :: post)%list /\ f x = true
                       /\ Forall (fun y => f y = false) pre.
Proof.
  induction l as [|a l IH]; simpl.
  - split; [discriminate|]. intros (pre & post & E & _). now destruct pre.
  - destruct (f a) eqn:Ea.
    + split.
      * intros H. injection H as <-. now exists [], l.
      * intros (pre & post & E & Hx & Hpre). destruct pre as [|b pre].
        -- simpl in E. now injection E as -> _.
        -- simpl in E. injection E as <- _.
           apply Forall_inv in Hpre. congruence.
    + rewrite IH. split.
      * intros (pre & post & -> & Hx & Hpre). exists (a :: pre), post.
        repeat split; [exact Hx | now constructor].
      * intros (pre & post & E & Hx & Hpre). destruct pre as [|b pre].
        -- simpl in E. injection E as -> _. congruence.
        -- simpl in E. injection E as _ ->. exists pre, post.
           repeat split; [exact Hx | now apply Forall_inv_tail in Hpre].
Qed.

Lemma find_none_iff {A : Type} (f : A -> bool) (l : list A) :
  List.find f l = None <-> Forall (fun y => f y = false) l.
Proof.
  induction l as [|a l IH]; simpl; [split; [constructor | reflexivity]|].
  destruct (f a) eqn:Ea.
  - split; [discriminate|]. intros H. apply Forall_inv in H. congruence.
  - rewrite IH. split; [now constructor | now apply Forall_inv_tail].
Qed.

Lemma list_index_found (g : string) (l : list string) :
  mem g l = true ->
  exists i, list_index g l = Ok i /\ l !! i = Some g.
Proof.
  induction l as [|y l IH]; simpl; [discriminate|].
  rewrite String.eqb_sym. destruct (String.eqb y g) eqn:E.
  - intros _. apply String.eqb_eq in E. subst. now exists 0.
  - simpl. intros H. destruct (IH H) as (i & Hi & Hl).
    exists (S i). rewrite Hi. now split.
Qed.

End UploadFacts.

(** X4.  [detect_roles] returns, for either role, the first uploaded name
    that matches the role ignoring case ("calendar" or "calender" for the
    calendar, "screener" for the screener), and nothing exactly when no
    name matches. *)
Theorem detect_roles_first_match (uploaded_names : list string) :
  (forall g, fst (detect_roles uploaded_names) = Some g
             <-> exists pre post,
                 uploaded_names = (pre ++ g :: post)%list
                 /\ is_calendar_name g = true
                 /\ Forall (fun n => is_calendar_name n = false) pre)
  /\ (fst (detect_roles uploaded_names) = None
      <-> Forall (fun n => is_calendar_name n = false) uploaded_names)
  /\ (forall g, snd (detect_roles uploaded_names) = Some g
                <-> exists pre post,
                    uploaded_names = (pre ++ g :: post)%list
                    /\ is_screener_name g = true
                    /\ Forall (fun n => is_screener_name n = false) pre)
  /\ (snd (detect_roles uploaded_names) = None
      <-> Forall (fun n => is_screener_name n = false) uploaded_names).
Proof.
  unfold detect_roles. cbn [fst snd].
  split; [intros g; apply find_first|].
  split; [apply find_none_iff|].
  split; [intros g; apply find_first | apply find_none_iff].
Qed.

(** X5.  The default index of a select box never raises and points at the
    guess among the options: left alone, the box holds the guessed name, or
    the placeholder when there is no guess.  So with the defaults the
    program proceeds exactly when both roles were detected. *)
Theorem default_choice_is_the_guess (uploaded_names : list string) :
  (forall guess,
      default_choice uploaded_names guess
      = Some (match guess with
              | Some g => if mem g uploaded_names then g else placeholder
              | None => placeholder
              end))
  /\ exists calendar_file screener_file,
      default_choice uploaded_names (fst (detect_roles uploaded_names))
      = Some calendar_file
      /\ default_choice uploaded_names (snd (detect_roles uploaded_names))
         = Some screener_file
      /\ (forall g, fst (detect_roles uploaded_names) = Some g -> calendar_file = g)
      /\ (forall g, snd (detect_roles uploaded_names) = Some g -> screener_file = g)
      /\ (proceed calendar_file screener_file = true
          <-> is_Some (fst (detect_roles uploaded_names))
              /\ is_Some (snd (detect_roles uploaded_names))).
Proof.
  assert (Hchoice : forall guess,
             default_choice uploaded_names guess
             = Some (match guess with
                     | Some g => if mem g uploaded_names then g else placeholder
                     | None => placeholder
                     end)).
  { intros [g|]; [|reflexivity]. unfold default_choice, default_index.
    destruct (mem g uploaded_names) eqn:E; [|reflexivity].
    destruct (list_index_found g uploaded_names E) as (i & Hi & Hl).
    rewrite Hi. cbn [bind]. replace (i + 1) with (S i) by lia. exact Hl. }
  split; [exact Hchoice|].
  unfold detect_roles. cbn [fst snd].
  assert (Hin : forall (f : string -> bool) g,
             List.find f uploaded_names = Some g ->
             mem g uploaded_names = true /\ f g = true).
  { intros f g H. apply find_some in H as [H1 H2]. split; [|exact H2].
    now apply mem_In. }
  eexists. eexists.
  split; [apply Hchoice|]. split; [apply Hchoice|].
  destruct (List.find is_calendar_name uploaded_names) as [c|] eqn:Ec;
    destruct (List.find is_screener_name uploaded_names) as [s|] eqn:Es;
    try (destruct (Hin _ _ Ec) as [Hc Hc']; rewrite Hc);
    try (destruct (Hin _ _ Es) as [Hs Hs']; rewrite Hs);
    (split; [intros g H; congruence|]);
    (split; [intros g H; congruence|]).
  - split; [intros _; split; eexists; reflexivity|]. intros _.
    unfold proceed. apply andb_true_iff. split; apply negb_true_iff.
    + destruct (String.eqb_spec c placeholder) as [-> | _]; [discriminate Hc' | reflexivity].
    + destruct (String.eqb_spec s placeholder) as [-> | _]; [discriminate Hs' | reflexivity].
  - split; [|intros [_ [x H]]; discriminate H].
    unfold proceed. rewrite String.eqb_refl, andb_false_r. discriminate.
  - split; [|intros [[x H] _]; discriminate H].
    unfold proceed. rewrite String.eqb_refl. discriminate.
  - split; [|intros [[x H] _]; discriminate H].
    unfold proceed. rewrite String.eqb_refl. discriminate.
Qed.

(** ** [load_any] *)

Section LoadFacts.

Lemma endswith_app (suffix s : string) : endswith suffix (s ++ suffix) = true.
Proof.
  induction s as [|c s IH].
  - change (EmptyString ++ suffix) with suffix.
    destruct suffix; cbn [endswith]; now rewrite String.eqb_refl.
  - change (String c s ++ suffix) with (String c (s ++ suffix)).
    cbn [endswith]. rewrite IH. apply orb_true_r.
Qed.

Lemma endswith_has_char (suffix s : string) (c : ascii) :
  endswith suffix s = true -> has_char c suffix = true -> has_char c s = true.
Proof.
  induction s as [|a s IH]; cbn [endswith has_char]; intros H Hc.
  - rewrite orb_false_r in H. apply String.eqb_eq in H. now subst.
  - apply orb_true_iff in H as [H | H].
    + apply String.eqb_eq in H. subst suffix. exact Hc.
    + rewrite (IH H Hc). apply orb_true_r.
Qed.

Lemma string_app_assoc (a b c : string) : (a ++ (b ++ c) = (a ++ b) ++ c).
Proof.
  induction a as [|x a IH]; [reflexivity|].
  change (String x (a ++ (b ++ c)) = String x ((a ++ b) ++ c)). now f_equal.
Qed.

Lemma lower_char_dot (c : ascii) :
  Ascii.eqb (lower_char c) "." = Ascii.eqb c ".".
Proof. destruct c as [[] [] [] [] [] [] [] []]; reflexivity. Qed.

Lemma has_char_dot_lower (s : string) : has_char "." (lower s) = has_char "." s.
Proof.
  induction s as [|c s IH]; simpl; [reflexivity|].
  now rewrite lower_char_dot, IH.
Qed.

End LoadFacts.

(** X6.  [load_any] raises [ValueError] for every upload name without a
    dot. *)
Theorem load_any_needs_extension (upload_name : string) :
  has_char "." upload_name = false -> load_any upload_name = Raise ValueError.
Proof.
  intros H. unfold load_any.
  assert (Hno : forall suffix, has_char "." suffix = true ->
                               endswith suffix (lower upload_name) = false).
  { intros suffix Hs. destruct (endswith suffix (lower upload_name)) eqn:E;
      [|reflexivity].
    pose proof (endswith_has_char _ _ _ E Hs) as Hd.
    rewrite has_char_dot_lower in Hd. congruence. }
  now rewrite !Hno by reflexivity.
Qed.

Lemma load_any_needs_extension_witness : load_any "calendar export" = Raise ValueError.
Proof. apply load_any_needs_extension. reflexivity. Defined.

(** X7.  The name offered for the download is one [load_any] hands to the
    Excel reader, whatever the calendar file is called. *)
Theorem load_any_reads_out_name (calendar_file : string) :
  load_any (out_name calendar_file) = Ok read_excel.
Proof.
  unfold load_any, out_name.
  rewrite !lower_app.
  change (lower ".xlsx") with ".xlsx".
  rewrite string_app_assoc.
  now rewrite endswith_app.
Qed.

(** ** The Column Normalizer when nothing matches *)

Section NoMatch.

Lemma prefix_refl (s : string) : String.prefix s s = true.
Proof.
  induction s as [|c s IH]; simpl; [reflexivity|].
  destruct (ascii_dec c c); [exact IH | contradiction].
Qed.

Lemma contains_refl (s : string) : contains s s = true.
Proof. destruct s; cbn [contains]; now rewrite prefix_refl. Qed.

Lemma find_exact_none (el : gmap string string) (cands : list string) :
  (forall cand, In cand cands -> el !! lower cand = None) ->
  find_exact el cands = None.
Proof.
  induction cands as [|a cands IH]; intros H; simpl; [reflexivity|].
  rewrite (H a) by now left. apply IH. intros c Hc. apply H. now right.
Qed.

Lemma find_substring_none (hs cands : list string) :
  (forall h cand, In h hs -> In cand cands ->
                  contains (lower cand) (lower h) = false) ->
  find_substring None hs cands = None.
Proof.
  induction hs as [|h hs IH]; intros H; simpl; [reflexivity|].
  replace (existsb (fun cand => contains (lower cand) (lower h)) cands) with false.
  - simpl. apply IH. intros h' c Hh. apply H. now right.
  - symmetry. apply not_true_is_false. intros E.
    apply existsb_exists in E as (c & Hc & E).
    rewrite (H h c) in E; [discriminate | now left | exact Hc].
Qed.

Lemma frame_eta (df : DataFrame) : mkFrame (nrows df) (cols df) = df.
Proof. now destruct df. Qed.

Lemma coalesce_no_match_loop (df : DataFrame) (targets : schema) (out : DataFrame) :
  (forall h, In h (names df) -> In h (names out)) ->
  no_alias_matches (names out) targets = true ->
  foldl (coalesce_step (existing_lower_of (names df))) out targets
  = mkFrame (nrows out)
      (cols out ++ List.map (null_column (nrows out)) targets).
Proof.
  revert out. induction targets as [|tc targets IH]; intros out Hsub Hno.
  - simpl. rewrite app_nil_r. symmetry. apply frame_eta.
  - cbn [no_alias_matches] in Hno.
    apply andb_true_iff in Hno as [Hno Hrest].
    apply andb_true_iff in Hno as [Hfresh Hcands].
    apply negb_true_iff in Hfresh.
    assert (Hc : forall h cand, In h (names out) -> In cand (snd tc) ->
                                contains (lower cand) (lower h) = false).
    { intros h cand Hh Hcand.
      rewrite forallb_forall in Hcands. specialize (Hcands cand Hcand).
      rewrite forallb_forall in Hcands. specialize (Hcands h Hh).
      now apply negb_true_iff in Hcands. }
    assert (Hstep : coalesce_step (existing_lower_of (names df)) out tc
                    = mkFrame (nrows out) (cols out ++ [null_column (nrows out) tc])).
    { unfold coalesce_step, find_column.
      rewrite find_exact_none.
      - cbn [truthy]. rewrite (find_substring_none _ _ Hc).
        unfold setitem_scalar, setitem_column. now rewrite Hfresh.
      - intros cand Hcand.
        destruct (existing_lower_of (names df) !! lower cand) as [f|] eqn:E;
          [|reflexivity].
        apply existing_lower_value in E as [Hf E].
        pose proof (Hc f cand (Hsub f Hf) Hcand) as R.
        rewrite <- E, contains_refl in R. discriminate R. }
    cbn [foldl]. rewrite Hstep, IH.
    + cbn [nrows cols List.map]. now rewrite <- app_assoc.
    + intros h Hh. unfold names. cbn [cols]. rewrite List.map_app.
      apply in_app_iff. left. now apply Hsub.
    + unfold names. cbn [cols]. rewrite List.map_app. exact Hrest.
Qed.

End NoMatch.

(** X8.  When no alias of any target is contained, ignoring case, in a
    header (or in the label of a target added before it) and no header is a
    target, [coalesce_columns] returns the input columns unchanged followed
    by one all-null column per target, in schema order. *)
Theorem coalesce_columns_no_match (df : DataFrame) (targets : schema) :
  no_alias_matches (names df) targets = true ->
  coalesce_columns df targets
  = mkFrame (nrows df) (cols df ++ List.map (null_column (nrows df)) targets).
Proof.
  intros H. unfold coalesce_columns. now apply coalesce_no_match_loop.
Qed.

Lemma coalesce_columns_no_match_witness :
  coalesce_columns answers_only_frame scr_targets
  = mkFrame 2
      (cols answers_only_frame ++ List.map (null_column 2) scr_targets).
Proof.
  apply (coalesce_columns_no_match answers_only_frame scr_targets). reflexivity.
Defined.

(** ** Schemas whose targets never lose a column *)

Section Presence.

Lemma find_exact_some (hs cands : list string) (f : string) :
  find_exact (existing_lower_of hs) cands = Some f ->
  exists cand, In cand cands /\ In f hs /\ lower f = lower cand.
Proof.
  induction cands as [|a cands IH]; simpl; [discriminate|].
  destruct (existing_lower_of hs !! lower a) as [g|] eqn:E.
  - intros H. injection H as ->. apply existing_lower_value in E as [Hf E].
    exists a. split; [now left | now split].
  - intros H. destruct (IH H) as (cand & Hc & Hr). exists cand.
    split; [now right | exact Hr].
Qed.

(** A true result of the second loop is a current header that holds an
    alias. *)
Lemma find_substring_some (found : option string) (hs cands : list string) :
  truthy found = false ->
  truthy (find_substring found hs cands) = true ->
  exists c cand, find_substring found hs cands = Some c /\ In c hs
                 /\ In cand cands /\ contains (lower cand) (lower c) = true.
Proof.
  revert found. induction hs as [|h hs IH]; intros found Hf; simpl.
  - intros H. congruence.
  - destruct (existsb (fun cand => contains (lower cand) (lower h)) cands) eqn:E.
    + destruct (truthy (Some h)) eqn:Eh.
      * intros _. apply existsb_exists in E as (cand & Hc & E).
        exists h, cand. repeat split; [now left | exact Hc | exact E].
      * intros H. destruct (IH (Some h) Eh H) as (c & cand & E1 & E2 & E3).
        exists c, cand. repeat split; [exact E1 | now right | apply E3 | apply E3].
    + rewrite Hf. intros H. destruct (IH found Hf H) as (c & cand & E1 & E2 & E3).
      exists c, cand. repeat split; [exact E1 | now right | apply E3 | apply E3].
Qed.

Lemma names_rename_other (out : DataFrame) (f t x : string) :
  In x (names out) -> x <> f -> In x (names (rename_column out f t)).
Proof.
  unfold names, rename_column. cbn [cols]. rewrite List.map_map.
  intros H Hne. apply in_map_iff in H as (c & <- & Hc).
  apply in_map_iff. exists c. split; [|exact Hc].
  destruct (has_label f c) eqn:E; [|reflexivity].
  apply has_label_true in E. contradiction.
Qed.

Lemma names_rename_target (out : DataFrame) (f t : string) :
  In f (names out) -> In t (names (rename_column out f t)).
Proof.
  unfold names, rename_column. cbn [cols]. rewrite List.map_map.
  intros H. apply in_map_iff in H as (c & E & Hc).
  apply in_map_iff. exists c. split; [|exact Hc].
  apply has_label_true in E. now rewrite E.
Qed.

Lemma names_setitem_keeps (out : DataFrame) (t : string) (vals : list cell) (x : string) :
  In x (names out) -> In x (names (setitem_column out t vals)).
Proof.
  unfold setitem_column. destruct (mem t (names out)); unfold names; cbn [cols].
  - rewrite List.map_map. intros H. apply in_map_iff in H as (c & <- & Hc).
    apply in_map_iff. exists c. split; [|exact Hc].
    destruct (has_label t c) eqn:E; [|reflexivity].
    apply has_label_true in E. now rewrite E.
  - rewrite List.map_app. intros H. apply in_app_iff. now left.
Qed.

Lemma names_setitem_target (out : DataFrame) (t : string) (vals : list cell) :
  In t (names (setitem_column out t vals)).
Proof.
  destruct (mem t (names out)) eqn:E.
  - apply names_setitem_keeps. now apply mem_In.
  - unfold setitem_column. rewrite E. unfold names. cbn [cols].
    rewrite List.map_app. apply in_app_iff. right. now left.
Qed.

Variable df : DataFrame.

(** Renaming a header that holds an alias of [tc] keeps the invariant when
    the entries done so far are apart from [tc]. *)
Lemma presence_rename (done : schema) (tc : string * list string)
      (out : DataFrame) (f cand : string) :
  presence_inv df done out ->
  (forall d, In d done -> aliases_apart tc d = true) ->
  In f (names out) -> In cand (snd tc) ->
  contains (lower cand) (lower f) = true ->
  presence_inv df (tc :: done)
               (if String.eqb f (fst tc) then out else rename_column out f (fst tc)).
Proof.
  intros [H1 H2] Hap Hf Hcand Hcont.
  assert (Hnf : forall d, In d done -> fst d <> f).
  { intros d Hin E. specialize (Hap d Hin). unfold aliases_apart in Hap.
    rewrite forallb_forall in Hap. specialize (Hap cand Hcand).
    apply andb_true_iff in Hap as [Hap _]. apply negb_true_iff in Hap.
    rewrite E in Hap. congruence. }
  assert (Hh : forall h, unclaimed_by (tc :: done) h -> h <> f).
  { intros h Hu E. subst h.
    rewrite (Hu tc cand) in Hcont; [discriminate | now left | exact Hcand]. }
  assert (Hu' : forall h, unclaimed_by (tc :: done) h -> unclaimed_by done h).
  { intros h Hu d a Hin Ha. apply (Hu d a); [now right | exact Ha]. }
  destruct (String.eqb_spec f (fst tc)) as [E | E].
  - split.
    + intros d [<- | Hin]; [now rewrite <- E | now apply H1].
    + intros h Hh0 Hu. apply H2; [exact Hh0 | now apply Hu'].
  - split.
    + intros d [<- | Hdd].
      * now apply names_rename_target.
      * apply names_rename_other; [now apply H1 | now apply Hnf].
    + intros h Hh0 Hu. apply names_rename_other; [|now apply Hh].
      apply H2; [exact Hh0 | now apply Hu'].
Qed.

Lemma presence_setitem (done : schema) (tc : string * list string) (out : DataFrame) :
  presence_inv df done out ->
  presence_inv df (tc :: done) (setitem_scalar out (fst tc) NA).
Proof.
  intros [H1 H2]. unfold setitem_scalar. split.
  - intros d [<- | Hd]; [apply names_setitem_target|].
    apply names_setitem_keeps. now apply H1.
  - intros h Hh Hu. apply names_setitem_keeps. apply H2; [exact Hh|].
    intros d a Hd Ha. apply (Hu d a); [now right | exact Ha].
Qed.

Lemma presence_step (done : schema) (tc : string * list string) (out : DataFrame) :
  presence_inv df done out ->
  (forall d, In d done -> aliases_apart d tc = true /\ aliases_apart tc d = true) ->
  presence_inv df (tc :: done)
               (coalesce_step (existing_lower_of (names df)) out tc).
Proof.
  intros HI Hap. unfold coalesce_step, find_column.
  destruct (truthy (find_exact (existing_lower_of (names df)) (snd tc))) eqn:Ex.
  - destruct (find_exact (existing_lower_of (names df)) (snd tc)) as [f|] eqn:Ef;
      [|discriminate Ex].
    rewrite Ex.
    destruct (find_exact_some _ _ _ Ef) as (cand & Hcand & Hf & El).
    apply presence_rename with (cand := cand); try assumption.
    + intros d Hd. now apply Hap.
    + destruct HI as [_ H2]. apply H2; [exact Hf|].
      intros d a Hd Ha. destruct (Hap d Hd) as [Hda _].
      unfold aliases_apart in Hda. rewrite forallb_forall in Hda.
      specialize (Hda a Ha). apply andb_true_iff in Hda as [_ Hda].
      rewrite forallb_forall in Hda. specialize (Hda cand Hcand).
      apply negb_true_iff in Hda. now rewrite El.
    + rewrite El. apply contains_refl.
  - cbv beta iota.
    destruct (truthy (find_substring
                        (find_exact (existing_lower_of (names df)) (snd tc))
                        (names out) (snd tc))) eqn:Es.
    + destruct (find_substring_some _ _ _ Ex Es)
        as (c & cand & Ec & Hc & Hcand & Hcont).
      rewrite Ec in Es |- *. try rewrite Es.
      apply presence_rename with (cand := cand); try assumption.
      intros d Hd. now apply Hap.
    + destruct (find_substring
                  (find_exact (existing_lower_of (names df)) (snd tc))
                  (names out) (snd tc)) as [f|];
        try rewrite Es; now apply presence_setitem.
Qed.

Lemma presence_loop (targets done : schema) (out : DataFrame) :
  presence_inv df done out ->
  schema_independent targets = true ->
  (forall d tc, In d done -> In tc targets ->
                aliases_apart d tc = true /\ aliases_apart tc d = true) ->
  exists done',
    (forall d, In d done \/ In d targets -> In d done')
    /\ presence_inv df done'
         (foldl (coalesce_step (existing_lower_of (names df))) out targets).
Proof.
  revert done out. induction targets as [|t0 targets IH];
    intros done out HI Hind Hap.
  - exists done. split; [intros d [H | []]; exact H | exact HI].
  - cbn [schema_independent] in Hind. apply andb_true_iff in Hind as [Hhead Hind].
    rewrite forallb_forall in Hhead.
    destruct (IH (t0 :: done)
                 (coalesce_step (existing_lower_of (names df)) out t0))
      as (done' & Hsub & HI').
    + apply presence_step; [exact HI|]. intros d Hin.
      apply Hap; [exact Hin | now left].
    + exact Hind.
    + intros d tc' [<- | Hin] Htc'.
      * specialize (Hhead tc' Htc'). now apply andb_true_iff in Hhead.
      * apply Hap; [exact Hin | now right].
    + exists done'. split; [|exact HI'].
      intros d [Hin | [<- | Hin]]; apply Hsub.
      * left. now right.
      * left. now left.
      * now right.
Qed.

(** Every target of an independent schema is a label of the output. *)
Lemma coalesce_presence (targets : schema) (t : string) :
  schema_independent targets = true ->
  In t (List.map fst targets) ->
  In t (names (coalesce_columns df targets)).
Proof.
  intros Hind Ht. apply in_map_iff in Ht as (tc & <- & Htc).
  destruct (presence_loop targets [] df) as (done' & Hsub & [H1 _]).
  - split; [intros d [] | intros h Hh _; exact Hh].
  - exact Hind.
  - intros d tc' [].
  - apply H1, Hsub. now right.
Qed.

End Presence.

Lemma filter_label_present (l : string) (df : DataFrame) :
  In l (names df) -> List.filter (has_label l) (cols df) <> [].
Proof.
  intros H E. apply in_map_iff in H as (c & Hn & Hc).
  assert (Hin : In c (List.filter (has_label l) (cols df))).
  { apply filter_In. split; [exact Hc | now apply has_label_true]. }
  rewrite E in Hin. destruct Hin.
Qed.

(** X10.  In the screener schema of the program no alias of one target is
    contained in another target or its aliases: for every screener table the
    normalized table carries TESTER, EMAIL, DATE, STATUS, ADMIN RATING and
    CLIENT RATING, so the selection of its EMAIL column never raises
    [KeyError]. *)
Theorem screener_targets_always_present (scr_df : DataFrame) :
  (forall t, In t exclude ->
             In t (names (coalesce_columns scr_df scr_targets)))
  /\ (forall rule, email_key_series rule (coalesce_columns scr_df scr_targets)
                   <> Raise KeyError).
Proof.
  assert (H : forall t, In t exclude ->
                        In t (names (coalesce_columns scr_df scr_targets))).
  { intros t Ht. apply coalesce_presence; [reflexivity | exact Ht]. }
  split; [exact H|]. intros rule.
  unfold email_key_series.
  pose proof (filter_label_present "EMAIL" _ (H "EMAIL" ltac:(simpl; tauto))) as Hne.
  destruct (List.filter (has_label "EMAIL")
              (cols (coalesce_columns scr_df scr_targets))) as [|c [|c' l]];
    [contradiction | discriminate | discriminate].
Qed.

(** ** What a run of the pipeline guarantees and when it fails *)

Section PipelineFacts.

Lemma names_getitem_has (df : DataFrame) (labels : list string) (out : DataFrame)
      (x : string) :
  getitem_labels df labels = Ok out -> In x labels -> In x (names out).
Proof.
  intros H Hx. apply getitem_labels_inv in H as [Hall ->].
  pose proof (Hall x Hx) as Hin. apply in_map_iff in Hin as (c & Hn & Hc).
  unfold names. cbn [cols]. apply in_map_iff. exists c. split; [exact Hn|].
  apply in_flat_map. exists x. split; [exact Hx|].
  apply filter_In. split; [exact Hc | now apply has_label_true].
Qed.

(** The labels of the table handed to the last step are labels of the
    merged table. *)
Lemma names_before_reorder (merged merged3 merged4 : DataFrame) (x : string) :
  normalize_user_name
    (if mem "EMAIL" (names (drop_columns merged ["EMAIL_key"]))
     then drop_columns (drop_columns merged ["EMAIL_key"]) ["EMAIL"]
     else drop_columns merged ["EMAIL_key"]) = Ok merged3 ->
  drop_duplicates merged3 ["User name"; "Start Time"] = Ok merged4 ->
  In x (names merged4) -> In x (names merged).
Proof.
  intros Hnorm Hdedup Hin.
  rewrite (names_drop_duplicates _ _ _ Hdedup) in Hin.
  rewrite (names_normalize_user_name _ _ Hnorm) in Hin.
  destruct (mem "EMAIL" (names (drop_columns merged ["EMAIL_key"]))).
  - apply names_drop_columns in Hin as [Hin _].
    now apply names_drop_columns in Hin as [Hin _].
  - now apply names_drop_columns in Hin as [Hin _].
Qed.

Lemma head_in_keep_calendar (h : string) : In h head -> In h keep_calendar.
Proof. simpl. tauto. Qed.

Lemma head_not_excluded (h : string) : In h head -> ~ In h exclude.
Proof.
  simpl. intros Hh Hx.
  repeat (destruct Hh as [<- | Hh];
          [repeat (destruct Hx as [Hx | Hx]; [discriminate Hx|]); destruct Hx|]).
  destruct Hh.
Qed.

Lemma head_not_key (h : string) : In h head -> h <> "EMAIL_key".
Proof.
  simpl. intros Hh E. subst h.
  repeat (destruct Hh as [Hh | Hh]; [discriminate Hh|]). destruct Hh.
Qed.

End PipelineFacts.

(** X12.  A compiled table always carries each of the six head labels
    User name, Start Time, End Time, Task Link, Moderator Link and Observers
    Public Link. *)
Theorem compile_has_head_columns (rule : astype_rule)
        (cal_df scr_df out : DataFrame) (h : string) :
  compile rule cal_df scr_df = Ok out -> In h head -> In h (names out).
Proof.
  intros H Hh.
  apply compile_inv in H
    as (cal_std & scr_answers & cal_key & scr_key & key_frame & merged
        & merged3 & merged4 & _ & _ & _ & _ & _ & _ & _ & _ & Hre).
  unfold reorder in Hre. apply (names_getitem_has _ _ _ _ Hre).
  apply in_app_iff. now left.
Qed.

Lemma compile_has_head_columns_witness :
  In "Task Link"
     [ "User name"; "Start Time"; "End Time"; "Task Link"; "Moderator Link";
       "Observers Public Link"; "Q1 Rating" ].
Proof.
  apply (compile_has_head_columns prints_missing spec_calendar spec_screener
           (mkFrame 1
              [ mkColumn "User name" [Str "Ann"];
                mkColumn "Start Time" [Str "2024-01-01T10:00"];
                mkColumn "End Time" [Str "2024-01-01T10:30"];
                mkColumn "Task Link" [NA];
                mkColumn "Moderator Link" [NA];
                mkColumn "Observers Public Link" [NA];
                mkColumn "Q1 Rating" [Str "5"] ])
           "Task Link").
  - vm_compute. reflexivity.
  - simpl. tauto.
Defined.

(** X13.  When the normalized screener has a column labelled like one of
    the six head columns, the pipeline raises an error: the merge renames
    that label on both sides and a later step misses it. *)
Theorem compile_fails_on_head_labelled_answer (rule : astype_rule)
        (cal_df scr_df : DataFrame) (x : string) :
  In x head ->
  In x (names (coalesce_columns (strip_headers scr_df) scr_targets)) ->
  exists e, compile rule cal_df scr_df = Raise e.
Proof.
  intros Hh Hx. destruct (compile rule cal_df scr_df) as [out|e] eqn:E;
    [exfalso | now exists e].
  apply compile_inv in E
    as (cal_std & scr_answers & cal_key & scr_key & key_frame & merged
        & merged3 & merged4 & Hcal & Hans & _ & _ & Hkf & Hmerge & Hnorm
        & Hdedup & Hre).
  assert (Hleft : In x (names (setitem_column cal_std "EMAIL_key" cal_key))).
  { apply names_setitem_keeps. apply (names_getitem_has _ _ _ _ Hcal).
    now apply head_in_keep_calendar. }
  assert (Hright : In x (names (concat_axis1 key_frame scr_answers))).
  { unfold names, concat_axis1. cbn [cols]. rewrite List.map_app.
    apply in_app_iff. right. apply (names_getitem_has _ _ _ _ Hans).
    apply filter_In. split; [exact Hx|].
    apply negb_true_iff, mem_false_In. now apply head_not_excluded. }
  assert (Hne : x <> "EMAIL_key") by now apply head_not_key.
  assert (Hm : In x (names merged)).
  { apply (names_before_reorder _ _ _ _ Hnorm Hdedup).
    unfold reorder in Hre. apply getitem_labels_inv in Hre as [Hall _].
    apply Hall, in_app_iff. now left. }
  destruct (names_merge_inner _ _ _ _ x Hmerge Hm)
    as (n & sfx & Hsfx & [(H1 & H2 & H3 & E) | (Hnot & E)]).
  - symmetry in E. revert E. apply head_not_suffixed; [exact Hh|].
    destruct Hsfx as [[-> _] | [-> _]]; tauto.
  - subst n. apply Hnot. tauto.
Qed.

Lemma compile_fails_on_head_labelled_answer_witness :
  exists e, compile keeps_missing spec_calendar start_time_screener = Raise e.
Proof.
  apply (compile_fails_on_head_labelled_answer keeps_missing
           spec_calendar start_time_screener "Start Time").
  - simpl. tauto.
  - vm_compute. tauto.
Defined.

Section StageFacts.

Lemma occurrences_names (l : string) (df : DataFrame) :
  occurrences l df = count_label l (names df).
Proof.
  unfold occurrences, count_label, names.
  induction (cols df) as [|c cs IH]; simpl; [reflexivity|].
  unfold has_label at 1. destruct (String.eqb (name c) l); simpl; now rewrite IH.
Qed.

Lemma count_label_app (l : string) (a b : list string) :
  count_label l (a ++ b) = count_label l a + count_label l b.
Proof. unfold count_label. now rewrite List.filter_app, length_app. Qed.

Lemma count_label_absent (l : string) (a : list string) :
  ~ In l a -> count_label l a = 0.
Proof.
  intros H. unfold count_label. rewrite filter_nil_by; [reflexivity|].
  intros x Hx. apply String.eqb_neq. intros ->. contradiction.
Qed.

Lemma count_label_present (l : string) (a : list string) :
  count_label l a <> 0 -> In l a.
Proof.
  intros H. destruct (in_dec string_dec l a) as [Hin | Hin]; [exact Hin|].
  now apply count_label_absent in Hin.
Qed.

Lemma filter_all {A : Type} (f : A -> bool) (l : list A) :
  (forall x, In x l -> f x = true) -> List.filter f l = l.
Proof.
  induction l as [|a l IH]; intros H; simpl; [reflexivity|].
  rewrite (H a) by now left. f_equal. apply IH. intros x Hx. apply H. now right.
Qed.

Lemma names_selection (df : DataFrame) (labels : list string) :
  names (mkFrame (nrows df)
           (flat_map (fun l => List.filter (has_label l) (cols df)) labels))
  = flat_map (fun l => repeat l (count_label l (names df))) labels.
Proof.
  unfold names at 1. cbn [cols]. rewrite names_select.
  induction labels as [|l labels IH]; simpl; [reflexivity|].
  rewrite IH. f_equal. f_equal. apply (occurrences_names l df).
Qed.

Lemma names_setitem_absent (df : DataFrame) (l : string) (vals : list cell) :
  ~ In l (names df) -> names (setitem_column df l vals) = (names df ++ [l])%list.
Proof.
  intros H. apply mem_false_In in H. unfold setitem_column. rewrite H.
  unfold names. cbn [cols]. now rewrite List.map_app.
Qed.

Lemma names_drop_filter (df : DataFrame) (labels : list string) :
  names (drop_columns df labels)
  = List.filter (fun n => negb (mem n labels)) (names df).
Proof.
  unfold names, drop_columns. cbn [cols].
  induction (cols df) as [|c cs IH]; simpl; [reflexivity|].
  destruct (negb (mem (name c) labels)); simpl; now rewrite IH.
Qed.

Lemma singleton_of_count (l : string) (df : DataFrame) :
  count_label l (names df) = 1 ->
  exists c, List.filter (has_label l) (cols df) = [c].
Proof.
  rewrite <- occurrences_names. unfold occurrences.
  destruct (List.filter (has_label l) (cols df)) as [|c [|c' r]];
    try discriminate. intros _. now exists c.
Qed.

Lemma key_values_ok (key : string) (df : DataFrame) :
  count_label key (names df) = 1 -> exists ks, key_values key df = Ok ks.
Proof.
  intros H. destruct (singleton_of_count _ _ H) as [c E].
  unfold key_values. rewrite E. now eexists.
Qed.

Lemma email_key_series_ok (rule : astype_rule) (df : DataFrame) :
  count_label "EMAIL" (names df) = 1 ->
  exists ks, email_key_series rule df = Ok ks.
Proof.
  intros H. destruct (singleton_of_count _ _ H) as [c E].
  unfold email_key_series. rewrite E. now eexists.
Qed.

Lemma normalize_user_name_ok (df : DataFrame) :
  count_label "User name" (names df) = 1 ->
  exists out, normalize_user_name df = Ok out /\ names out = names df.
Proof.
  intros H. destruct (singleton_of_count _ _ H) as [c E].
  unfold normalize_user_name. rewrite E. eexists. split; [reflexivity|].
  apply names_setitem_present. apply count_label_present. now rewrite H.
Qed.

Lemma drop_duplicates_ok (df : DataFrame) (subset : list string) :
  (forall l, In l subset -> In l (names df)) ->
  exists out, drop_duplicates df subset = Ok out /\ names out = names df.
Proof.
  intros H. unfold drop_duplicates.
  replace (forallb (fun l => mem l (names df)) subset) with true.
  - eexists. split; [reflexivity | apply names_take_rows].
  - symmetry. apply forallb_forall. intros l Hl. apply mem_In. now apply H.
Qed.

Lemma suffix_dups_same (labels : list string) : suffix_dups labels labels = false.
Proof.
  unfold suffix_dups. generalize (duplicated [] labels). intros bs.
  induction bs as [|b bs IH]; simpl; [reflexivity|].
  rewrite IH. now destruct b.
Qed.

Lemma add_suffix_nil (sfx : string) (cs : list Column) :
  List.map (add_suffix [] sfx) cs = cs.
Proof. induction cs as [|c cs IH]; simpl; [reflexivity | now rewrite IH]. Qed.

Lemma names_taken (idx : list nat) (cs : list Column) :
  List.map name (List.map (take idx) cs) = List.map name cs.
Proof. now rewrite List.map_map. Qed.

(** A merge of two frames that share no label but the key succeeds and
    keeps the labels of both. *)
Lemma merge_inner_ok (key : string) (left right : DataFrame) :
  count_label key (names left) = 1 ->
  count_label key (names right) = 1 ->
  (forall l, In l (names left) -> l <> key -> ~ In l (names right)) ->
  exists merged,
    merge_inner key left right = Ok merged
    /\ names merged
       = (names left
          ++ List.filter (fun n => negb (mem n [key])) (names right))%list.
Proof.
  intros Hl Hr Hapart.
  destruct (key_values_ok _ _ Hl) as [lk El].
  destruct (key_values_ok _ _ Hr) as [rk Er].
  unfold merge_inner. rewrite El, Er. cbn [bind].
  assert (Hov : List.filter (fun l => mem l (names (drop_columns right [key])))
                            (names left) = []).
  { apply filter_nil_by. intros l Hin. apply mem_false_In. intros Hd.
    apply names_drop_columns in Hd as [Hd Hk].
    apply (Hapart l Hin); [|exact Hd]. intros ->. apply Hk. now left. }
  rewrite Hov, !add_suffix_nil, !suffix_dups_same. cbn [orb].
  eexists. split; [reflexivity|].
  unfold names at 1. cbn [cols].
  rewrite List.map_app, !names_taken. f_equal. apply names_drop_filter.
Qed.

End StageFacts.

(** X14.  The pipeline returns a table, with the six head labels as its
    first six columns, whenever the normalized calendar carries each of its
    seven targets exactly once, the normalized screener carries exactly one
    EMAIL column, and no label of the normalized screener is a head label or
    "EMAIL_key". *)
Theorem compile_succeeds (rule : astype_rule) (cal_df scr_df : DataFrame) :
  (forall l, In l keep_calendar ->
             occurrences l (coalesce_columns (strip_headers cal_df) cal_targets) = 1) ->
  occurrences "EMAIL" (coalesce_columns (strip_headers scr_df) scr_targets) = 1 ->
  (forall x, In x (names (coalesce_columns (strip_headers scr_df) scr_targets)) ->
             ~ In x head /\ x <> "EMAIL_key") ->
  exists out, compile rule cal_df scr_df = Ok out
              /\ firstn 6 (names out) = head.
Proof.
  intros Hcal Hemail Hscr. unfold compile. cbv zeta.
  set (cal0 := coalesce_columns (strip_headers cal_df) cal_targets) in *.
  set (scr_std := coalesce_columns (strip_headers scr_df) scr_targets) in *.
  (* the calendar columns *)
  assert (Hcal' : forall l, In l keep_calendar -> count_label l (names cal0) = 1).
  { intros l Hl. rewrite <- occurrences_names. now apply Hcal. }
  rewrite (getitem_labels_ok cal0 keep_calendar).
  2:{ intros l Hl. apply count_label_present. now rewrite (Hcal' l Hl). }
  cbn [bind].
  set (cal_sel := mkFrame (nrows cal0) _).
  assert (Hn1 : names cal_sel = keep_calendar).
  { unfold cal_sel. rewrite names_selection.
    now apply (flat_map_singletons (fun l => count_label l (names cal0))). }
  (* the answer columns *)
  set (answer_labels := List.filter (fun c => negb (mem c exclude)) (names scr_std)).
  assert (Eans : getitem_labels scr_std answer_labels
                 = Ok (mkFrame (nrows scr_std)
                         (flat_map (fun l => List.filter (has_label l) (cols scr_std))
                                   answer_labels))).
  { apply getitem_labels_ok. intros l Hl. now apply filter_In in Hl as [Hl _]. }
  rewrite Eans. cbn [bind].
  set (scr_answers := mkFrame (nrows scr_std) _) in *.
  assert (HA : forall x, In x (names scr_answers) ->
                         ~ In x head /\ x <> "EMAIL_key" /\ x <> "EMAIL").
  { intros x Hx. apply (names_getitem_labels _ _ _ _ Eans) in Hx as [Hx Hin].
    apply filter_In in Hx as [_ Hx]. apply negb_true_iff, mem_false_In in Hx.
    destruct (Hscr x Hin) as [H1 H2]. repeat split; try assumption.
    intros ->. apply Hx. simpl. tauto. }
  (* the two key columns *)
  destruct (email_key_series_ok rule cal_sel) as [cal_key Eck];
    [now rewrite Hn1|].
  rewrite Eck. cbn [bind].
  destruct (email_key_series_ok rule scr_std) as [scr_key Esk];
    [now rewrite <- occurrences_names|].
  rewrite Esk. cbn [bind].
  assert (Hnokey : ~ In "EMAIL_key" (names scr_std)).
  { intros Hin. now destruct (Hscr _ Hin) as [_ H]. }
  rewrite (getitem_labels_ok (setitem_column scr_std "EMAIL_key" scr_key)
                             ["EMAIL_key"]).
  2:{ intros l [<- | []]. apply names_setitem_target. }
  cbn [bind].
  set (key_frame := mkFrame (nrows (setitem_column scr_std "EMAIL_key" scr_key)) _).
  assert (Hnkf : names key_frame = ["EMAIL_key"]).
  { unfold key_frame. rewrite names_selection.
    rewrite (names_setitem_absent _ _ _ Hnokey). cbn [flat_map].
    rewrite count_label_app, (count_label_absent _ _ Hnokey). reflexivity. }
  (* the merge *)
  assert (Hnl : names (setitem_column cal_sel "EMAIL_key" cal_key)
                = (keep_calendar ++ ["EMAIL_key"])%list).
  { rewrite names_setitem_absent; [now rewrite Hn1|].
    rewrite Hn1. simpl. intuition discriminate. }
  assert (Hnr : names (concat_axis1 key_frame scr_answers)
                = ("EMAIL_key" :: names scr_answers)).
  { unfold names at 1. unfold concat_axis1. cbn [cols]. rewrite List.map_app.
    fold (names key_frame). fold (names scr_answers). now rewrite Hnkf. }
  assert (HAkey : ~ In "EMAIL_key" (names scr_answers)).
  { intros Hin. now destruct (HA _ Hin) as (_ & H & _). }
  destruct (merge_inner_ok "EMAIL_key"
              (setitem_column cal_sel "EMAIL_key" cal_key)
              (concat_axis1 key_frame scr_answers)) as (merged & Em & Hnm).
  { now rewrite Hnl. }
  { rewrite Hnr. change ("EMAIL_key" :: names scr_answers)
      with (["EMAIL_key"] ++ names scr_answers)%list.
    rewrite count_label_app, (count_label_absent _ _ HAkey). reflexivity. }
  { intros l Hl Hne. rewrite Hnl in Hl. rewrite Hnr.
    apply in_app_iff in Hl as [Hl | [<- | []]]; [|contradiction].
    intros [<- | Hin]; [contradiction|].
    destruct (HA l Hin) as (Hh & _ & He).
    simpl in Hl, Hh. intuition congruence. }
  rewrite Em. cbn [bind].
  assert (Hfa : forall ls, (forall x, In x (names scr_answers) -> ~ In x ls) ->
                           List.filter (fun n => negb (mem n ls)) (names scr_answers)
                           = names scr_answers).
  { intros ls H. apply filter_all. intros x Hx.
    now apply negb_true_iff, mem_false_In, H. }
  assert (Hnm' : names merged
                 = (keep_calendar ++ ["EMAIL_key"] ++ names scr_answers)%list).
  { rewrite Hnm, Hnl, Hnr. cbn [List.filter].
    change (mem "EMAIL_key" ["EMAIL_key"]) with true. cbn [negb].
    rewrite Hfa; [now rewrite <- app_assoc|].
    intros x Hx [<- | []]. contradiction. }
  (* the linking columns go *)
  assert (Hn2 : names (drop_columns merged ["EMAIL_key"])
                = (keep_calendar ++ names scr_answers)%list).
  { rewrite names_drop_filter, Hnm', !List.filter_app.
    rewrite Hfa; [reflexivity|]. intros x Hx [<- | []]. contradiction. }
  assert (Hmem : mem "EMAIL" (names (drop_columns merged ["EMAIL_key"])) = true).
  { apply mem_In. rewrite Hn2. apply in_app_iff. left. simpl. tauto. }
  rewrite Hmem.
  set (merged2 := drop_columns (drop_columns merged ["EMAIL_key"]) ["EMAIL"]).
  assert (Hn3 : names merged2 = (head ++ names scr_answers)%list).
  { unfold merged2. rewrite names_drop_filter, Hn2, List.filter_app.
    rewrite Hfa; [reflexivity|].
    intros x Hx [<- | []]. now destruct (HA _ Hx) as (_ & _ & H). }
  assert (Hcount : forall h, In h head -> count_label h (names merged2) = 1).
  { intros h Hh. rewrite Hn3, count_label_app, (count_label_absent h (names scr_answers)).
    - simpl in Hh.
      repeat (destruct Hh as [<- | Hh]; [reflexivity|]). destruct Hh.
    - intros Hin. now destruct (HA _ Hin) as (H & _). }
  destruct (normalize_user_name_ok merged2) as (merged3 & E3 & Hm3).
  { apply Hcount. simpl. tauto. }
  rewrite E3. cbn [bind].
  destruct (drop_duplicates_ok merged3 ["User name"; "Start Time"])
    as (merged4 & E4 & Hm4).
  { intros l Hl. rewrite Hm3, Hn3. apply in_app_iff. left.
    simpl in Hl. simpl. tauto. }
  rewrite E4. cbn [bind].
  (* the column order *)
  assert (Hnames4 : names merged4 = (head ++ names scr_answers)%list)
    by now rewrite Hm4, Hm3.
  unfold reorder. rewrite getitem_labels_ok.
  2:{ intros l Hl. apply in_app_iff in Hl as [Hl | Hl].
      - rewrite Hnames4. apply in_app_iff. now left.
      - now apply tail_labels_present in Hl. }
  eexists. split; [reflexivity|].
  rewrite names_selection, flat_map_app.
  rewrite (flat_map_singletons (fun l => count_label l (names merged4)) head).
  - change 6 with (length head + 0). rewrite firstn_app_2. cbn [firstn].
    apply app_nil_r.
  - intros h Hh. rewrite Hm4, Hm3. now apply Hcount.
Qed.

Lemma compile_succeeds_witness :
  exists out, compile keeps_missing spec_calendar spec_screener = Ok out
              /\ firstn 6 (names out) = head.
Proof.
  apply (compile_succeeds keeps_missing spec_calendar spec_screener).
  - intros l Hl. simpl in Hl.
    repeat (destruct Hl as [<- | Hl]; [vm_compute; reflexivity|]). destruct Hl.
  - vm_compute. reflexivity.
  - intros x Hx. vm_compute in Hx.
    repeat (destruct Hx as [<- | Hx];
            [split; [simpl; intuition discriminate | discriminate]|]).
    destruct Hx.
Defined.

Section EmptyJoin.

Lemma setitem_label_data (df : DataFrame) (l : string) (vals : list cell) (c : Column) :
  In c (cols (setitem_column df l vals)) -> name c = l -> data c = vals.
Proof.
  unfold setitem_column. destruct (mem l (names df)) eqn:E; cbn [cols].
  - intros H Hn. apply in_map_iff in H as (c' & <- & Hc').
    destruct (has_label l c') eqn:El; [reflexivity|].
    apply has_label_true in Hn. congruence.
  - intros H Hn. apply in_app_iff in H as [H | [<- | []]]; [|reflexivity].
    apply mem_false_In in E. exfalso. apply E. rewrite <- Hn. now apply in_map.
Qed.

Lemma key_values_setitem (key : string) (df : DataFrame) (vals ks : list cell) :
  key_values key (setitem_column df key vals) = Ok ks -> ks = vals.
Proof.
  intros H. apply key_values_inv in H as (c & E & <-).
  assert (Hc : In c (List.filter (has_label key)
                       (cols (setitem_column df key vals))))
    by (rewrite E; now left).
  apply filter_In in Hc as [Hc Hn]. apply has_label_true in Hn.
  now apply (setitem_label_data df key vals c).
Qed.

Lemma email_key_series_inv (rule : astype_rule) (df : DataFrame)
      (ks : list cell) :
  email_key_series rule df = Ok ks ->
  exists c, List.filter (has_label "EMAIL") (cols df) = [c]
            /\ ks = email_keys rule (data c).
Proof.
  unfold email_key_series.
  destruct (List.filter (has_label "EMAIL") (cols df)) as [|c [|c' l]];
    try discriminate.
  intros H. injection H as <-. now exists c.
Qed.

Lemma selected_column (df : DataFrame) (labels : list string) (out : DataFrame)
      (c : Column) :
  getitem_labels df labels = Ok out -> In c (cols out) -> In c (cols df).
Proof.
  intros H Hc. apply getitem_labels_inv in H as [_ ->]. cbn [cols] in Hc.
  apply in_flat_map in Hc as (l & _ & Hc). now apply filter_In in Hc as [Hc _].
Qed.

Lemma label_cells_In (l : string) (df : DataFrame) (c : Column) (v : cell) :
  In c (cols df) -> name c = l -> In v (data c) -> In v (label_cells l df).
Proof.
  intros Hc Hn Hv. unfold label_cells. apply in_flat_map. exists c.
  split; [|exact Hv]. apply filter_In. split; [exact Hc | now apply has_label_true].
Qed.

Lemma join_indexers_nil (lk rk : list cell) :
  (forall k, In k lk -> ~ In k rk) -> join_indexers lk rk = [].
Proof.
  intros H. destruct (join_indexers lk rk) as [|[i j] l] eqn:E; [reflexivity|].
  assert (Hin : In (i, j) (join_indexers lk rk)) by (rewrite E; now left).
  apply join_indexers_In in Hin as (k & Hi & Hj).
  exfalso. apply (H k).
  - apply list_elem_of_In, list_elem_of_lookup. now exists i.
  - apply list_elem_of_In, list_elem_of_lookup. now exists j.
Qed.

Lemma nrows_normalize_user_name (df out : DataFrame) :
  normalize_user_name df = Ok out -> nrows out = nrows df.
Proof.
  unfold normalize_user_name.
  destruct (List.filter (has_label "User name") (cols df)) as [|c [|c' l]];
    [discriminate | |].
  - intros H. injection H as <-. unfold setitem_column.
    now destruct (mem "User name" (names df)).
  - destruct (Nat.eqb (nrows df) 0); [|discriminate].
    intros H. now injection H as <-.
Qed.

Lemma nrows_drop_duplicates_empty (df out : DataFrame) (subset : list string) :
  drop_duplicates df subset = Ok out -> nrows df = 0 -> nrows out = 0.
Proof.
  unfold drop_duplicates.
  destruct (forallb (fun l => mem l (names df)) subset); [|discriminate].
  intros H Hn. injection H as <-. unfold take_rows, row_keys. cbn [nrows].
  now rewrite Hn.
Qed.

(** The frame [df[["EMAIL_key"]]] taken right after the key was set: it
    is not empty and all its columns are the key column. *)
Lemma key_frame_columns (df : DataFrame) (key : string) (vals : list cell)
      (kf : DataFrame) :
  getitem_labels (setitem_column df key vals) [key] = Ok kf ->
  cols kf <> []
  /\ forall c, In c (cols kf) -> name c = key /\ data c = vals.
Proof.
  intros H. apply getitem_labels_inv in H as [Hall ->]. cbn [cols flat_map].
  rewrite app_nil_r. split.
  - apply filter_label_present. apply Hall. now left.
  - intros c Hc. apply filter_In in Hc as [Hc Hn]. apply has_label_true in Hn.
    split; [exact Hn | now apply (setitem_label_data df key vals c)].
Qed.

End EmptyJoin.

(** ** Which targets can lose their column *)

Section PresenceOfOne.

(** What one turn of the loop does: it renames a header that holds an
    alias of the target (found among the input headers by the exact search,
    or among the current labels by the substring search), or it writes the
    all-null column. *)
Lemma coalesce_step_cases (hs : list string) (out : DataFrame)
      (tc : string * list string) :
  (exists f cand,
      In cand (snd tc)
      /\ contains (lower cand) (lower f) = true
      /\ ((In f hs /\ lower f = lower cand) \/ In f (names out))
      /\ coalesce_step (existing_lower_of hs) out tc
         = (if String.eqb f (fst tc) then out else rename_column out f (fst tc)))
  \/ coalesce_step (existing_lower_of hs) out tc = setitem_scalar out (fst tc) NA.
Proof.
  unfold coalesce_step, find_column.
  destruct (truthy (find_exact (existing_lower_of hs) (snd tc))) eqn:Ex.
  - destruct (find_exact (existing_lower_of hs) (snd tc)) as [f|] eqn:Ef;
      [|discriminate Ex].
    rewrite Ex. left.
    destruct (find_exact_some _ _ _ Ef) as (cand & Hcand & Hf & El).
    exists f, cand. split; [exact Hcand|]. split; [rewrite El; apply contains_refl|].
    split; [left; now split | reflexivity].
  - cbv beta iota.
    destruct (truthy (find_substring (find_exact (existing_lower_of hs) (snd tc))
                                     (names out) (snd tc))) eqn:Es.
    + destruct (find_substring_some _ _ _ Ex Es)
        as (c & cand & Ec & Hc & Hcand & Hcont).
      rewrite Ec in Es |- *. try rewrite Es. left.
      exists c, cand. split; [exact Hcand|]. split; [exact Hcont|].
      split; [now right | reflexivity].
    + right.
      destruct (find_substring (find_exact (existing_lower_of hs) (snd tc))
                               (names out) (snd tc)) as [f|];
        try rewrite Es; reflexivity.
Qed.

Variable df : DataFrame.

(** Before the target's turn: a header that holds no alias of the entries
    gone through is still a label. *)
Lemma headers_kept (pre : schema) (out : DataFrame) (P : string -> Prop) :
  (forall h, In h (names df) -> P h -> In h (names out)) ->
  forall h, In h (names df) -> P h -> unclaimed_by pre h ->
            In h (names (foldl (coalesce_step (existing_lower_of (names df)))
                               out pre)).
Proof.
  revert out P. induction pre as [|tc pre IH]; intros out P H h Hh HP Hu.
  - now apply H.
  - cbn [foldl].
    apply (IH _ (fun h => P h /\ forall a, In a (snd tc) ->
                                           contains (lower a) (lower h) = false)).
    + clear h Hh HP Hu. intros h Hh [HP Hu].
      destruct (coalesce_step_cases (names df) out tc)
        as [(f & cand & Hcand & Hcont & _ & ->) | ->].
      * destruct (String.eqb f (fst tc)); [now apply H|].
        apply names_rename_other; [now apply H|].
        intros ->. rewrite (Hu cand Hcand) in Hcont. discriminate.
      * apply names_setitem_keeps. now apply H.
    + exact Hh.
    + split; [exact HP|]. intros a Ha. apply (Hu tc a); [now left | exact Ha].
    + intros d a Hd Ha. apply (Hu d a); [now right | exact Ha].
Qed.

(** After the target's turn: entries whose aliases are not contained in
    the target leave its column alone. *)
Lemma target_kept (post : schema) (out : DataFrame) (g : string * list string) :
  In (fst g) (names out) ->
  Forall (fun e => aliases_apart e g = true) post ->
  In (fst g) (names (foldl (coalesce_step (existing_lower_of (names df)))
                           out post)).
Proof.
  revert out. induction post as [|tc post IH]; intros out Hin Hap; [exact Hin|].
  cbn [foldl]. apply IH; [|now apply Forall_inv_tail in Hap].
  apply Forall_inv in Hap. unfold aliases_apart in Hap.
  rewrite forallb_forall in Hap.
  destruct (coalesce_step_cases (names df) out tc)
    as [(f & cand & Hcand & Hcont & _ & ->) | ->].
  - destruct (String.eqb f (fst tc)); [exact Hin|].
    apply names_rename_other; [exact Hin|].
    intros E. specialize (Hap cand Hcand).
    apply andb_true_iff in Hap as [Hap _]. apply negb_true_iff in Hap.
    rewrite E in Hap. congruence.
  - now apply names_setitem_keeps.
Qed.

(** A target is a label of the output when no alias of another entry is
    contained in it or in one of its aliases. *)
Lemma coalesce_presence_of (pre post : schema) (g : string * list string) :
  Forall (fun e => aliases_apart e g = true) pre ->
  Forall (fun e => aliases_apart e g = true) post ->
  In (fst g) (names (coalesce_columns df (pre ++ g :: post)%list)).
Proof.
  intros Hpre Hpost. unfold coalesce_columns. rewrite foldl_app. cbn [foldl].
  apply target_kept; [|exact Hpost].
  set (out := foldl _ df pre).
  assert (Hkept : forall h, In h (names df) -> unclaimed_by pre h ->
                            In h (names out)).
  { intros h Hh Hu. apply (headers_kept pre df (fun _ => True)); auto. }
  destruct (coalesce_step_cases (names df) out g)
    as [(f & cand & Hcand & Hcont & Hwhere & ->) | ->].
  - assert (Hf : In f (names out)).
    { destruct Hwhere as [[Hf El] | Hf]; [|exact Hf].
      apply Hkept; [exact Hf|]. intros d a Hd Ha.
      rewrite List.Forall_forall in Hpre. specialize (Hpre d Hd).
      unfold aliases_apart in Hpre. rewrite forallb_forall in Hpre.
      specialize (Hpre a Ha). apply andb_true_iff in Hpre as [_ Hpre].
      rewrite forallb_forall in Hpre. specialize (Hpre cand Hcand).
      apply negb_true_iff in Hpre. now rewrite El. }
    destruct (String.eqb_spec f (fst g)) as [<- | _]; [exact Hf|].
    now apply names_rename_target.
  - apply names_setitem_target.
Qed.

End PresenceOfOne.

(** X9.  A target is a label of the output of [coalesce_columns],
    whatever the input table, as soon as no alias of the other targets is
    contained, ignoring case, in that target or in one of its aliases. *)
Theorem coalesce_columns_keeps_target (df : DataFrame) (pre post : schema)
        (g : string * list string) :
  forallb (fun e => aliases_apart e g) (pre ++ post)%list = true ->
  In (fst g) (names (coalesce_columns df (pre ++ g :: post)%list)).
Proof.
  intros H. rewrite forallb_app in H. apply andb_true_iff in H as [Hpre Hpost].
  apply coalesce_presence_of; apply List.Forall_forall; intros e He.
  - rewrite forallb_forall in Hpre. now apply Hpre.
  - rewrite forallb_forall in Hpost. now apply Hpost.
Qed.

Lemma coalesce_columns_keeps_target_witness :
  In "Start Time" (names (coalesce_columns tester_email_calendar cal_targets)).
Proof.
  apply (coalesce_columns_keeps_target tester_email_calendar
           (firstn 2 cal_targets) (skipn 3 cal_targets)
           ("Start Time", ["Start Time"; "Start Time ("; "StartTime"])).
  reflexivity.
Defined.

(** X11.  For every calendar table the normalized calendar carries User
    name, Start Time, End Time, Task Link, Moderator Link and Observers
    Public Link: of the seven calendar targets only EMAIL can be missing. *)
Theorem calendar_head_targets_always_present (cal_df : DataFrame) (h : string) :
  In h head -> In h (names (coalesce_columns cal_df cal_targets)).
Proof.
  intros Hh. simpl in Hh.
  destruct Hh as [<- | [<- | [<- | [<- | [<- | [<- | []]]]]]].
  - apply (coalesce_presence_of cal_df (firstn 0 cal_targets) (skipn 1 cal_targets)
             (nth 0 cal_targets (EmptyString, [])));
      apply List.Forall_forall, forallb_forall; reflexivity.
  - apply (coalesce_presence_of cal_df (firstn 2 cal_targets) (skipn 3 cal_targets)
             (nth 2 cal_targets (EmptyString, [])));
      apply List.Forall_forall, forallb_forall; reflexivity.
  - apply (coalesce_presence_of cal_df (firstn 3 cal_targets) (skipn 4 cal_targets)
             (nth 3 cal_targets (EmptyString, [])));
      apply List.Forall_forall, forallb_forall; reflexivity.
  - apply (coalesce_presence_of cal_df (firstn 4 cal_targets) (skipn 5 cal_targets)
             (nth 4 cal_targets (EmptyString, [])));
      apply List.Forall_forall, forallb_forall; reflexivity.
  - apply (coalesce_presence_of cal_df (firstn 5 cal_targets) (skipn 6 cal_targets)
             (nth 5 cal_targets (EmptyString, [])));
      apply List.Forall_forall, forallb_forall; reflexivity.
  - apply (coalesce_presence_of cal_df (firstn 6 cal_targets) (skipn 7 cal_targets)
             (nth 6 cal_targets (EmptyString, [])));
      apply List.Forall_forall, forallb_forall; reflexivity.
Qed.

Lemma calendar_head_targets_always_present_witness :
  In "User name" (names (coalesce_columns tester_email_calendar cal_targets)).
Proof.
  apply (calendar_head_targets_always_present tester_email_calendar "User name").
  simpl. tauto.
Defined.

(** ** Column count of the Normalizer *)

Lemma coalesce_step_length (hs : list string) (out : DataFrame)
      (tc : string * list string) :
  length (cols out) <= length (cols (coalesce_step (existing_lower_of hs) out tc))
  /\ length (cols (coalesce_step (existing_lower_of hs) out tc))
     <= S (length (cols out)).
Proof.
  destruct (coalesce_step_cases hs out tc) as [(f & cand & _ & _ & _ & ->) | ->].
  - destruct (String.eqb f (fst tc)); [lia|].
    unfold rename_column. cbn [cols]. rewrite length_map. lia.
  - unfold setitem_scalar, setitem_column.
    destruct (mem (fst tc) (names out)); cbn [cols].
    + rewrite length_map. lia.
    + rewrite length_app. simpl. lia.
Qed.

(** X16.  [coalesce_columns] never removes a column and adds at most one
    column per target. *)
Theorem coalesce_columns_column_count (df : DataFrame) (targets : schema) :
  length (cols df) <= length (cols (coalesce_columns df targets))
  /\ length (cols (coalesce_columns df targets))
     <= length (cols df) + length targets.
Proof.
  unfold coalesce_columns. generalize (names df). intros hs.
  revert df. induction targets as [|tc targets IH]; intros df; cbn [foldl].
  - simpl. lia.
  - destruct (IH (coalesce_step (existing_lower_of hs) df tc)) as [H1 H2].
    destruct (coalesce_step_length hs df tc) as [H3 H4].
    simpl. lia.
Qed.

(** ** The User name cells of a compiled table *)

Section UserNameCells.

Lemma normalize_text_idem (v : cell) : normalize_text (normalize_text v) = normalize_text v.
Proof.
  destruct v as [| |s]; try reflexivity.
  unfold normalize_text. simpl. unfold strip. now rewrite strip_by_idem.
Qed.

Lemma nth_normalized (l : list cell) (i : nat) :
  (forall v, In v l -> normalize_text v = v) ->
  normalize_text (nth i l NaN) = nth i l NaN.
Proof.
  intros H. destruct (Nat.lt_ge_cases i (length l)) as [Hlt | Hge].
  - apply H. now apply nth_In.
  - now rewrite nth_overflow.
Qed.

(** The User name columns after [normalize_user_name] hold normalized
    cells only. *)
Lemma normalize_user_name_cells (df out : DataFrame) (c : Column) (v : cell) :
  normalize_user_name df = Ok out ->
  (nrows df = 0 -> forall c', In c' (cols df) -> data c' = []) ->
  In c (cols out) -> name c = "User name" -> In v (data c) ->
  normalize_text v = v.
Proof.
  unfold normalize_user_name.
  destruct (List.filter (has_label "User name") (cols df)) as [|c0 [|c1 l]];
    [discriminate | |].
  - intros H _ Hc Hn Hv. injection H as <-.
    rewrite (setitem_label_data _ _ _ _ Hc Hn) in Hv.
    apply in_map_iff in Hv as (u & <- & _). apply normalize_text_idem.
  - destruct (Nat.eqb_spec (nrows df) 0) as [E | E]; [|discriminate].
    intros H Hempty Hc _ Hv. injection H as <-.
    rewrite (Hempty E c Hc) in Hv. destruct Hv.
Qed.

End UserNameCells.

(** X17.  In a compiled table every cell of a User name column is a
    missing value or text without surrounding whitespace: [normalize_text]
    leaves it unchanged. *)
Theorem compile_user_names_normalized (rule : astype_rule)
        (cal_df scr_df out : DataFrame) (v : cell) :
  compile rule cal_df scr_df = Ok out ->
  In v (label_cells "User name" out) ->
  normalize_text v = v.
Proof.
  intros H Hv.
  apply compile_inv in H
    as (cal_std & scr_answers & cal_key & scr_key & key_frame & merged
        & merged3 & merged4 & _ & _ & _ & _ & _ & Hmerge & Hnorm
        & Hdedup & Hre).
  unfold label_cells in Hv. apply in_flat_map in Hv as (c & Hc & Hv).
  apply filter_In in Hc as [Hc Hn]. apply has_label_true in Hn.
  unfold reorder in Hre. apply (selected_column _ _ _ _ Hre) in Hc.
  (* the column before the duplicates were dropped *)
  unfold drop_duplicates in Hdedup.
  destruct (forallb _ _) in Hdedup; [|discriminate].
  injection Hdedup as <-. unfold take_rows in Hc. cbn [cols] in Hc.
  apply in_map_iff in Hc as (c3 & <- & Hc3). cbn [take name data] in Hn, Hv.
  apply in_map_iff in Hv as (i & <- & _).
  apply nth_normalized. intros u Hu.
  apply (normalize_user_name_cells _ _ c3 u Hnorm); try assumption.
  (* a merged table without rows has no cells *)
  intros Hrows c' Hc'.
  apply merge_inner_inv in Hmerge as (lk & rk & overlap & _ & _ & _ & ->).
  assert (Hix : join_indexers lk rk = []).
  { apply length_zero_iff_nil.
    destruct (mem "EMAIL" _) in Hrows; exact Hrows. }
  assert (Hin : In c' (cols (mkFrame (length (join_indexers lk rk))
                               (List.map (take (List.map fst (join_indexers lk rk)))
                                  (List.map (add_suffix overlap "_x")
                                     (cols (setitem_column cal_std "EMAIL_key" cal_key)))
                                ++ List.map (take (List.map snd (join_indexers lk rk)))
                                     (List.map (add_suffix overlap "_y")
                                        (cols (drop_columns
                                                 (concat_axis1 key_frame scr_answers)
                                                 ["EMAIL_key"]))))))).
  { destruct (mem "EMAIL" _) in Hc'.
    - unfold drop_columns in Hc'. cbn [cols] in Hc'.
      apply filter_In in Hc' as [Hc' _]. now apply filter_In in Hc' as [Hc' _].
    - unfold drop_columns in Hc'. cbn [cols] in Hc'.
      now apply filter_In in Hc' as [Hc' _]. }
  cbn [cols] in Hin. rewrite Hix in Hin. cbn [List.map] in Hin.
  apply in_app_iff in Hin as [Hin | Hin];
    apply in_map_iff in Hin as (c0 & <- & _); reflexivity.
Qed.

Lemma compile_user_names_normalized_witness :
  normalize_text (Str "Ann") = Str "Ann".
Proof.
  apply (compile_user_names_normalized prints_missing
           (mkFrame 1 [ mkColumn "Tester" [Str " Ann "];
                        mkColumn "Email" [Str "ann@x.com"] ])
           one_row_screener
           (mkFrame 1
              [ mkColumn "User name" [Str "Ann"];
                mkColumn "Start Time" [NA];
                mkColumn "End Time" [NA];
                mkColumn "Task Link" [NA];
                mkColumn "Moderator Link" [NA];
                mkColumn "Observers Public Link" [NA];
                mkColumn "Q1" [Str "5"] ])).
  - vm_compute. reflexivity.
  - vm_compute. tauto.
Defined.

(** * The join and the deduplication inside the pipeline *)

(** ** The stages of a run *)

Section StagesOfCompile.

(** [compile] is its stages one after the other: the selection of the
    answer columns never fails, so the errors come in the same order. *)
Lemma compile_stages (rule : astype_rule) (cal_df scr_df : DataFrame) :
  compile rule cal_df scr_df
  = try joined <- joined_stage rule cal_df scr_df;
    try merged <- drop_duplicates joined ["User name"; "Start Time"];
    reorder merged.
Proof.
  unfold compile, joined_stage, merge_stage, calendar_side, screener_side,
    calendar_std, screener_std. cbv zeta.
  set (scr_std := coalesce_columns (strip_headers scr_df) scr_targets).
  rewrite (getitem_labels_ok scr_std
             (List.filter (fun c => negb (mem c exclude)) (names scr_std)))
    by (intros l Hl; now apply filter_In in Hl as [Hl _]).
  cbn [bind].
  repeat match goal with
         | |- bind ?m _ = _ => destruct m; cbn [bind]; [|reflexivity]
         end.
  reflexivity.
Qed.

Lemma compile_stages_inv (rule : astype_rule) (cal_df scr_df out : DataFrame) :
  compile rule cal_df scr_df = Ok out ->
  exists joined merged4,
    joined_stage rule cal_df scr_df = Ok joined
    /\ drop_duplicates joined ["User name"; "Start Time"] = Ok merged4
    /\ reorder merged4 = Ok out.
Proof.
  rewrite compile_stages.
  destruct (joined_stage rule cal_df scr_df) as [joined|]; [|discriminate].
  cbn [bind].
  destruct (drop_duplicates joined _) as [merged4|] eqn:E; [|discriminate].
  cbn [bind]. intros H. now exists joined, merged4.
Qed.

Lemma joined_stage_inv (rule : astype_rule) (cal_df scr_df joined : DataFrame) :
  joined_stage rule cal_df scr_df = Ok joined ->
  exists merged,
    merge_stage rule cal_df scr_df = Ok merged
    /\ normalize_user_name
         (if mem "EMAIL" (names (drop_columns merged ["EMAIL_key"]))
          then drop_columns (drop_columns merged ["EMAIL_key"]) ["EMAIL"]
          else drop_columns merged ["EMAIL_key"]) = Ok joined
    /\ nrows joined = nrows merged.
Proof.
  unfold joined_stage.
  destruct (merge_stage rule cal_df scr_df) as [merged|]; [|discriminate].
  cbn [bind]. cbv zeta. intros H. exists merged.
  split; [reflexivity|]. split; [exact H|].
  rewrite (nrows_normalize_user_name _ _ H).
  now destruct (mem "EMAIL" _).
Qed.

Lemma label_cells_single (l : string) (df : DataFrame) (c : Column) :
  List.filter (has_label l) (cols df) = [c] -> label_cells l df = data c.
Proof. intros E. unfold label_cells. rewrite E. simpl. apply app_nil_r. Qed.

Lemma calendar_std_eq (cal_df : DataFrame) :
  calendar_std cal_df
  = getitem_labels (coalesce_columns (strip_headers cal_df) cal_targets)
                   keep_calendar.
Proof. reflexivity. Qed.

Lemma screener_std_eq (scr_df : DataFrame) :
  screener_std scr_df = coalesce_columns (strip_headers scr_df) scr_targets.
Proof. reflexivity. Qed.

(** The left operand and its key column. *)
Lemma calendar_side_inv (rule : astype_rule) (cal_df left : DataFrame) :
  calendar_side rule cal_df = Ok left ->
  exists cal_std,
    calendar_std cal_df = Ok cal_std
    /\ left = setitem_column cal_std "EMAIL_key"
                (email_keys rule (label_cells "EMAIL" cal_std)).
Proof.
  unfold calendar_side. generalize (calendar_std cal_df).
  intros [cal_std|e]; [|discriminate]. cbn [bind].
  destruct (email_key_series rule cal_std) as [cal_key|] eqn:Eck; [|discriminate].
  cbn [bind]. intros H. injection H as <-. exists cal_std.
  split; [reflexivity|].
  apply email_key_series_inv in Eck as (c & E & ->).
  now rewrite (label_cells_single _ _ _ E).
Qed.

(** The key column the merge reads in the right operand. *)
Lemma screener_side_inv (rule : astype_rule) (scr_df right : DataFrame)
      (rk : list cell) :
  screener_side rule scr_df = Ok right ->
  key_values "EMAIL_key" right = Ok rk ->
  rk = email_keys rule (label_cells "EMAIL" (screener_std scr_df)).
Proof.
  unfold screener_side. cbv zeta. generalize (screener_std scr_df).
  intros scr_std.
  destruct (getitem_labels scr_std
              (List.filter (fun c => negb (mem c exclude)) (names scr_std)))
    as [scr_answers|]; [|discriminate].
  cbn [bind].
  destruct (email_key_series rule scr_std) as [scr_key|] eqn:Esk; [|discriminate].
  cbn [bind].
  destruct (getitem_labels (setitem_column scr_std "EMAIL_key" scr_key)
                           ["EMAIL_key"]) as [key_frame|] eqn:Ekf;
    [|discriminate].
  cbn [bind]. intros H Hr. injection H as <-.
  apply email_key_series_inv in Esk as (c2 & E2 & ->).
  rewrite (label_cells_single _ _ _ E2).
  destruct (key_frame_columns _ _ _ _ Ekf) as [Hne Hall].
  apply key_values_inv in Hr as (c & E & <-).
  unfold concat_axis1 in E. cbn [cols] in E. rewrite List.filter_app in E.
  rewrite (filter_all (has_label "EMAIL_key") (cols key_frame)) in E.
  2:{ intros x Hx. apply has_label_true. now apply Hall. }
  destruct (cols key_frame) as [|x l] eqn:Ek; [contradiction|].
  cbn [app] in E. injection E as -> _. apply Hall. now left.
Qed.

(** The two operands of the merge and the keys it reads. *)
Lemma merge_stage_inv (rule : astype_rule) (cal_df scr_df merged : DataFrame) :
  merge_stage rule cal_df scr_df = Ok merged ->
  exists cal_std left right,
    calendar_std cal_df = Ok cal_std
    /\ calendar_side rule cal_df = Ok left
    /\ screener_side rule scr_df = Ok right
    /\ merge_inner "EMAIL_key" left right = Ok merged
    /\ (forall h, In h keep_calendar -> In h (names left))
    /\ key_values "EMAIL_key" left
       = Ok (email_keys rule (label_cells "EMAIL" cal_std))
    /\ key_values "EMAIL_key" right
       = Ok (email_keys rule (label_cells "EMAIL" (screener_std scr_df))).
Proof.
  unfold merge_stage.
  destruct (calendar_side rule cal_df) as [left|] eqn:El; [|discriminate].
  destruct (screener_side rule scr_df) as [right|] eqn:Er; [|discriminate].
  cbn [bind]. intros Hm.
  destruct (calendar_side_inv _ _ _ El) as (cal_std & Ecal & Eleft).
  exists cal_std, left, right.
  split; [exact Ecal|]. split; [reflexivity|]. split; [reflexivity|].
  split; [exact Hm|].
  apply merge_inner_inv in Hm as (lk & rk & overlap & Hl & Hr & _ & _).
  split; [|split].
  - intros h Hh. rewrite Eleft. apply names_setitem_keeps.
    rewrite calendar_std_eq in Ecal.
    now apply (names_getitem_has _ _ _ _ Ecal).
  - rewrite Hl. f_equal. rewrite Eleft in Hl. now apply key_values_setitem in Hl.
  - rewrite Hr. f_equal. now apply (screener_side_inv rule scr_df right).
Qed.

End StagesOfCompile.

(** ** The order of the columns and the choice of the rows commute *)

Section ReorderRows.

Lemma filter_label_take (l : string) (idx : list nat) (cs : list Column) :
  List.filter (has_label l) (List.map (take idx) cs)
  = List.map (take idx) (List.filter (has_label l) cs).
Proof.
  induction cs as [|c cs IH]; simpl; [reflexivity|].
  change (has_label l (take idx c)) with (has_label l c).
  destruct (has_label l c); simpl; now rewrite IH.
Qed.

Lemma getitem_labels_take_rows (idx : list nat) (df : DataFrame)
      (labels : list string) :
  getitem_labels (take_rows idx df) labels
  = try out <- getitem_labels df labels; Ok (take_rows idx out).
Proof.
  unfold getitem_labels. rewrite names_take_rows.
  destruct (forallb (fun l => mem l (names df)) labels); [|reflexivity].
  cbn [bind]. unfold take_rows. cbn [nrows cols]. do 2 f_equal.
  induction labels as [|l labels IH]; simpl; [reflexivity|].
  now rewrite List.map_app, filter_label_take, IH.
Qed.

Lemma reorder_take_rows (idx : list nat) (df : DataFrame) :
  reorder (take_rows idx df) = try out <- reorder df; Ok (take_rows idx out).
Proof. unfold reorder. rewrite names_take_rows. apply getitem_labels_take_rows. Qed.

End ReorderRows.

(** ** Rows with the same (User name, Start Time) pair *)

Section SamePair.

Lemma same_value_code (a b : cell) :
  same_value a b = true <-> dedup_code a = dedup_code b.
Proof.
  destruct a as [| |s], b as [| |t]; simpl; split; intros H;
    try reflexivity; try discriminate H.
  - apply String.eqb_eq in H. now subst.
  - injection H as ->. apply String.eqb_refl.
Qed.

Lemma same_value_refl (a : cell) : same_value a a = true.
Proof. now apply same_value_code. Qed.

Lemma pair_columns (df : DataFrame) :
  subset_columns df ["User name"; "Start Time"]
  = List.filter (fun c => has_label "User name" c || has_label "Start Time" c)
                (cols df).
Proof.
  unfold subset_columns. apply List.filter_ext. intros c.
  unfold mem, has_label. simpl. now rewrite orb_false_r.
Qed.

(** The key [drop_duplicates] compares is the pair. *)
Lemma row_key_same_pair (df : DataFrame) (i j : nat) :
  row_key (subset_columns df ["User name"; "Start Time"]) i
  = row_key (subset_columns df ["User name"; "Start Time"]) j
  <-> same_pair df i j = true.
Proof.
  unfold row_key, same_pair. rewrite pair_columns, forallb_forall.
  rewrite List.map_ext_in_iff. split; intros H c Hc.
  - apply same_value_code. now apply H.
  - apply same_value_code. now apply H.
Qed.

Lemma same_pair_false (df : DataFrame) (i j : nat) :
  row_key (subset_columns df ["User name"; "Start Time"]) i
  <> row_key (subset_columns df ["User name"; "Start Time"]) j
  <-> same_pair df i j = false.
Proof.
  rewrite row_key_same_pair. now destruct (same_pair df i j).
Qed.

Lemma same_pair_trans (df : DataFrame) (i j k : nat) :
  same_pair df i j = true -> same_pair df j k = true -> same_pair df i k = true.
Proof. rewrite <- !row_key_same_pair. congruence. Qed.

Lemma same_pair_sym (df : DataFrame) (i j : nat) :
  same_pair df i j = true -> same_pair df j i = true.
Proof. rewrite <- !row_key_same_pair. congruence. Qed.

End SamePair.

(** ** What [drop_duplicates] on the pair keeps *)

Section KeptRows.

Variables (joined merged4 : DataFrame).
Hypothesis Hdedup :
  drop_duplicates joined ["User name"; "Start Time"] = Ok merged4.

Lemma kept_rows :
  exists kept : list nat,
    merged4 = take_rows kept joined
    /\ StronglySorted lt kept
    /\ (forall q, In q kept <->
                  (q < nrows joined
                   /\ forall q', q' < q -> same_pair joined q' q = false)).
Proof.
  destruct (drop_duplicates_inv _ _ _ Hdedup) as (kept & E & Hs & Hk & _).
  exists kept. split; [exact E|]. split; [exact Hs|].
  intros q. rewrite Hk. split; intros [Hlt Hf]; (split; [exact Hlt|]);
    intros q' Hq'; apply same_pair_false; now apply Hf.
Qed.

End KeptRows.

(** Every row has a kept row before it, or is kept itself, with its pair. *)
Lemma kept_representative (joined : DataFrame) (kept : list nat) :
  (forall q, In q kept <->
             (q < nrows joined
              /\ forall q', q' < q -> same_pair joined q' q = false)) ->
  forall q, q < nrows joined ->
            exists r, In r kept /\ r <= q /\ same_pair joined r q = true.
Proof.
  intros Hk q. induction q as [q IH] using lt_wf_ind. intros Hq.
  destruct (forallb (fun q' => negb (same_pair joined q' q)) (seq 0 q)) eqn:E.
  - exists q. split; [|split; [lia|]].
    + apply Hk. split; [exact Hq|]. intros q' Hq'.
      rewrite forallb_forall in E. apply negb_true_iff, E, in_seq. lia.
    + apply row_key_same_pair. reflexivity.
  - assert (Hex : exists q', In q' (seq 0 q) /\ same_pair joined q' q = true).
    { clear -E. induction (seq 0 q) as [|a l IHl]; [discriminate E|].
      simpl in E. apply andb_false_iff in E as [E | E].
      - exists a. split; [now left|]. now apply negb_false_iff in E.
      - destruct (IHl E) as (q' & Hin & Hs). exists q'. split; [now right | exact Hs]. }
    destruct Hex as (q' & Hin & Hs). apply in_seq in Hin.
    destruct (IH q') as (r & Hr & Hle & Hrs); [lia | lia|].
    exists r. split; [exact Hr|]. split; [lia|].
    now apply (same_pair_trans joined r q' q).
Qed.

(** ** The pair of a joined row comes from its calendar row *)

Section PairFromCalendar.

(** In the merged table a column labelled like a head column is a column
    of the left operand, read at the left positions of the join. *)
Lemma merged_head_column (left right merged : DataFrame) (lk rk : list cell)
      (c : Column) :
  merge_inner "EMAIL_key" left right = Ok merged ->
  key_values "EMAIL_key" left = Ok lk ->
  key_values "EMAIL_key" right = Ok rk ->
  In (name c) head -> In (name c) (names left) ->
  In c (cols merged) ->
  exists cl, data c = List.map (fun i => nth i (data cl) NaN)
                               (List.map fst (join_indexers lk rk)).
Proof.
  intros Hm El Er Hh Hl Hc.
  apply merge_inner_inv in Hm as (lk' & rk' & ov & El' & Er' & Hov & ->).
  rewrite El in El'. injection El' as <-.
  rewrite Er in Er'. injection Er' as <-.
  cbn [cols] in Hc. apply in_app_iff in Hc as [Hc | Hc];
    apply in_map_iff in Hc as (c1 & <- & Hc);
    apply in_map_iff in Hc as (c0 & <- & Hc).
  - exists c0. cbn [take data]. now rewrite data_add_suffix.
  - exfalso. cbn [take name] in Hh, Hl. rewrite name_add_suffix in Hh, Hl.
    destruct (mem (name c0) ov) eqn:E.
    + apply (head_not_suffixed (name c0) "_y" _ Hh); [now right | reflexivity].
    + assert (E' : mem (name c0) ov = true); [|congruence].
      apply mem_In. rewrite Hov. apply filter_In. split; [exact Hl|].
      apply mem_In. now apply in_map.
Qed.

Lemma nth_taken (f : cell -> cell) (cl : Column) (ix : list (nat * nat))
      (q i j : nat) :
  ix !! q = Some (i, j) ->
  nth q (List.map f (List.map (fun i => nth i (data cl) NaN) (List.map fst ix))) NaN
  = f (nth i (data cl) NaN).
Proof.
  intros H. rewrite (List.map_map (fun i => nth i (data cl) NaN) f).
  apply (nth_map_lookup (fun i => f (nth i (data cl) NaN))).
  rewrite list_lookup_fmap, H. reflexivity.
Qed.

(** Two joined rows that stem from one calendar row hold the same (User
    name, Start Time) pair. *)
Lemma joined_pair_from_calendar (left right merged joined : DataFrame)
      (lk rk : list cell) :
  merge_inner "EMAIL_key" left right = Ok merged ->
  key_values "EMAIL_key" left = Ok lk ->
  key_values "EMAIL_key" right = Ok rk ->
  (forall h, In h keep_calendar -> In h (names left)) ->
  normalize_user_name
    (if mem "EMAIL" (names (drop_columns merged ["EMAIL_key"]))
     then drop_columns (drop_columns merged ["EMAIL_key"]) ["EMAIL"]
     else drop_columns merged ["EMAIL_key"]) = Ok joined ->
  forall q q' i j j',
    join_indexers lk rk !! q = Some (i, j) ->
    join_indexers lk rk !! q' = Some (i, j') ->
    same_pair joined q q' = true.
Proof.
  intros Hm El Er Hleft Hnorm q q' i j j' Hq Hq'.
  set (m2 := if mem "EMAIL" (names (drop_columns merged ["EMAIL_key"]))
             then drop_columns (drop_columns merged ["EMAIL_key"]) ["EMAIL"]
             else drop_columns merged ["EMAIL_key"]) in *.
  assert (Hsub : forall c, In c (cols m2) -> In c (cols merged)).
  { intros c Hc. unfold m2 in Hc. destruct (mem "EMAIL" _) in Hc.
    - unfold drop_columns in Hc. cbn [cols] in Hc.
      apply filter_In in Hc as [Hc _]. now apply filter_In in Hc as [Hc _].
    - unfold drop_columns in Hc. cbn [cols] in Hc.
      now apply filter_In in Hc as [Hc _]. }
  assert (Hrows : nrows m2 = length (join_indexers lk rk)).
  { destruct (merge_inner_rows _ _ _ _ Hm) as (lk' & rk' & El' & Er' & Hn & _).
    rewrite El in El'. injection El' as <-.
    rewrite Er in Er'. injection Er' as <-.
    rewrite <- Hn. unfold m2. now destruct (mem "EMAIL" _). }
  assert (Hcol : forall c,
             In c (cols m2) -> name c = "User name" \/ name c = "Start Time" ->
             exists cl, data c = List.map (fun i => nth i (data cl) NaN)
                                          (List.map fst (join_indexers lk rk))).
  { intros c Hc Hn.
    apply (merged_head_column left right merged lk rk c Hm El Er).
    - destruct Hn as [-> | ->]; simpl; tauto.
    - apply Hleft. destruct Hn as [-> | ->]; simpl; tauto.
    - now apply Hsub. }
  unfold same_pair. apply forallb_forall. intros c Hc.
  apply filter_In in Hc as [Hc Hn]. apply orb_true_iff in Hn.
  rewrite !has_label_true in Hn.
  unfold normalize_user_name in Hnorm.
  destruct (List.filter (has_label "User name") (cols m2)) as [|c0 [|c1 l]] eqn:E;
    [discriminate | |].
  - injection Hnorm as <-.
    assert (Hc0 : In c0 (List.filter (has_label "User name") (cols m2)))
      by (rewrite E; now left).
    apply filter_In in Hc0 as [Hc0 Hn0]. apply has_label_true in Hn0.
    assert (Hmem : mem "User name" (names m2) = true).
    { apply mem_In. rewrite <- Hn0. now apply in_map. }
    unfold setitem_column in Hc. rewrite Hmem in Hc. cbn [cols] in Hc.
    apply in_map_iff in Hc as (c' & Ec & Hc').
    destruct (has_label "User name" c') eqn:EU.
    + subst c. cbn [data].
      destruct (Hcol c0 Hc0 (or_introl Hn0)) as (cl & ->).
      rewrite (nth_taken normalize_text cl _ q i j Hq).
      rewrite (nth_taken normalize_text cl _ q' i j' Hq').
      apply same_value_refl.
    + subst c'. destruct (Hcol c Hc' Hn) as (cl & ->).
      rewrite <- (List.map_id (List.map _ (List.map fst _))).
      rewrite (nth_taken (fun v => v) cl _ q i j Hq).
      rewrite (nth_taken (fun v => v) cl _ q' i j' Hq').
      apply same_value_refl.
  - destruct (Nat.eqb_spec (nrows m2) 0) as [E0 | E0]; [|discriminate].
    apply lookup_lt_Some in Hq. lia.
Qed.

End PairFromCalendar.

(** ** The join pairs in terms of the EMAIL cells *)

Section PairsByEmail.

Variable rule : astype_rule.
Variables cal_email scr_email : list cell.

Lemma email_keys_lookup (l : list cell) (i : nat) :
  email_keys rule l !! i = email_key rule <$> (l !! i).
Proof. unfold email_keys. apply list_lookup_fmap. Qed.

Lemma join_pairs_by_email (i j : nat) :
  In (i, j) (join_indexers (email_keys rule cal_email) (email_keys rule scr_email))
  <-> exists v w, cal_email !! i = Some v /\ scr_email !! j = Some w
                  /\ email_key rule v = email_key rule w.
Proof.
  rewrite join_indexers_In, !email_keys_lookup. split.
  - intros (k & Hi & Hj).
    destruct (cal_email !! i) as [v|]; [|discriminate Hi].
    destruct (scr_email !! j) as [w|]; [|discriminate Hj].
    simpl in Hi, Hj. exists v, w. repeat split. congruence.
  - intros (v & w & -> & -> & E). exists (email_key rule v).
    simpl. now rewrite E.
Qed.

Lemma fan_out_left_email (i : nat) (v : cell) :
  cal_email !! i = Some v ->
  fan_out_left i (join_indexers (email_keys rule cal_email)
                                (email_keys rule scr_email))
  = count_key (email_key rule v) (email_keys rule scr_email).
Proof. intros H. now rewrite fan_out_left_join, email_keys_lookup, H. Qed.

Lemma fan_out_right_email (j : nat) (w : cell) :
  scr_email !! j = Some w ->
  fan_out_right j (join_indexers (email_keys rule cal_email)
                                 (email_keys rule scr_email))
  = count_key (email_key rule w) (email_keys rule cal_email).
Proof. intros H. now rewrite fan_out_right_join, email_keys_lookup, H. Qed.

Lemma no_key_among (l : list cell) (v : cell) :
  (forall w, In w l -> email_key rule w <> email_key rule v) ->
  ~ In (email_key rule v) (email_keys rule l).
Proof.
  intros H Hin. unfold email_keys in Hin.
  apply in_map_iff in Hin as (w & E & Hw). now apply (H w Hw).
Qed.

End PairsByEmail.

Lemma two_members (l : list nat) (a b : nat) :
  In a l -> In b l -> a <> b -> 2 <= length l.
Proof.
  destruct l as [|x [|y l]]; simpl; [tauto | | lia].
  intros [<- | []] [<- | []] H. now contradiction H.
Qed.

(** The stages of a run that returns a table, down to the rows kept. *)
Lemma compile_rows (rule : astype_rule) (cal_df scr_df out : DataFrame) :
  compile rule cal_df scr_df = Ok out ->
  exists (joined ordered : DataFrame) (kept : list nat),
    joined_stage rule cal_df scr_df = Ok joined
    /\ reorder joined = Ok ordered
    /\ out = take_rows kept ordered
    /\ StronglySorted lt kept
    /\ (forall q, In q kept <->
                  (q < nrows joined
                   /\ forall q', q' < q -> same_pair joined q' q = false)).
Proof.
  intros H.
  apply compile_stages_inv in H as (joined & merged4 & Hj & Hd & Hr).
  destruct (kept_rows _ _ Hd) as (kept & -> & Hs & Hk).
  rewrite reorder_take_rows in Hr.
  destruct (reorder joined) as [ordered|] eqn:Eo; [|discriminate Hr].
  cbn [bind] in Hr. injection Hr as <-.
  now exists joined, ordered, kept.
Qed.

(** C5, as amended.  In a run that returns a table, the table [pd.merge]
    returns is the inner join of the two operands on the key derived from
    their EMAIL cells: its rows are the pairs of a calendar row and a
    screener row with equal keys, in the order of the calendar rows, each
    made of the cells of both; a calendar row gives as many merged rows as
    there are screener rows with its key, and a screener row as many as
    there are calendar rows with its key.  The compiled table holds the
    merged rows at the positions [kept], the first of each (User name,
    Start Time) pair: every merged row has a kept row with its pair, so rows
    with different pairs are both represented; a calendar row whose key no
    screener row shares contributes no row; and the merged rows of one
    calendar row, having one pair, leave at most one row. *)
Theorem compile_joins_on_email_key (rule : astype_rule)
        (cal_df scr_df out : DataFrame) :
  compile rule cal_df scr_df = Ok out ->
  exists (cal_std left right merged joined ordered : DataFrame)
         (kept : list nat),
    calendar_std cal_df = Ok cal_std
    /\ calendar_side rule cal_df = Ok left
    /\ screener_side rule scr_df = Ok right
    /\ merge_inner "EMAIL_key" left right = Ok merged
    /\ merge_stage rule cal_df scr_df = Ok merged
    /\ joined_stage rule cal_df scr_df = Ok joined
    /\ reorder joined = Ok ordered
    /\ let cal_email := label_cells "EMAIL" cal_std in
       let scr_email := label_cells "EMAIL" (screener_std scr_df) in
       let ix := join_indexers (email_keys rule cal_email)
                               (email_keys rule scr_email) in
       key_values "EMAIL_key" left = Ok (email_keys rule cal_email)
       /\ key_values "EMAIL_key" right = Ok (email_keys rule scr_email)
       /\ nrows merged = length ix
       /\ (forall i j,
              In (i, j) ix
              <-> exists v w, cal_email !! i = Some v /\ scr_email !! j = Some w
                              /\ email_key rule v = email_key rule w)
       /\ (forall i v, cal_email !! i = Some v ->
                       fan_out_left i ix
                       = count_key (email_key rule v) (email_keys rule scr_email))
       /\ (forall j w, scr_email !! j = Some w ->
                       fan_out_right j ix
                       = count_key (email_key rule w) (email_keys rule cal_email))
       /\ (forall q i j, ix !! q = Some (i, j) ->
                         row_at merged q
                         = (row_at left i
                            ++ row_at (drop_columns right ["EMAIL_key"]) j)%list)
       /\ nrows joined = length ix
       /\ out = take_rows kept ordered
       /\ StronglySorted lt kept
       /\ (forall q, In q kept -> q < length ix)
       /\ (forall q, q < length ix ->
                     exists r, In r kept /\ r <= q
                               /\ same_pair joined r q = true)
       /\ (forall q q', q < length ix -> q' < length ix ->
                        same_pair joined q q' = false -> 2 <= nrows out)
       /\ (forall i v, cal_email !! i = Some v ->
                       (forall w, In w scr_email ->
                                  email_key rule w <> email_key rule v) ->
                       forall q j, In q kept -> ix !! q <> Some (i, j))
       /\ (forall q q' i j j',
              In q kept -> In q' kept ->
              ix !! q = Some (i, j) -> ix !! q' = Some (i, j') -> q = q').
Proof.
  intros H.
  destruct (compile_rows _ _ _ _ H) as (joined & ordered & kept & Hj & Ho & -> & Hs & Hk).
  destruct (joined_stage_inv _ _ _ _ Hj) as (merged & Hms & Hnorm & Hrows).
  destruct (merge_stage_inv _ _ _ _ Hms)
    as (cal_std & left & right & Hcal & Hl & Hr & Hm & Hleft & Elk & Erk).
  exists cal_std, left, right, merged, joined, ordered, kept.
  do 7 (split; [assumption|]). cbv zeta.
  set (cal_email := label_cells "EMAIL" cal_std) in *.
  set (scr_email := label_cells "EMAIL" (screener_std scr_df)) in *.
  set (ix := join_indexers (email_keys rule cal_email) (email_keys rule scr_email)).
  destruct (merge_inner_rows _ _ _ _ Hm) as (lk & rk & El & Er & Hn & Hrow).
  rewrite Elk in El. injection El as <-.
  rewrite Erk in Er. injection Er as <-. fold ix in Hn, Hrow.
  assert (Hnj : nrows joined = length ix) by congruence.
  assert (Hrep : forall q, q < length ix ->
                           exists r, In r kept /\ r <= q
                                     /\ same_pair joined r q = true).
  { intros q Hq. apply (kept_representative joined kept Hk). lia. }
  split; [exact Elk|]. split; [exact Erk|]. split; [exact Hn|].
  split; [intros i j; apply join_pairs_by_email|].
  split; [intros i v; apply fan_out_left_email|].
  split; [intros j w; apply fan_out_right_email|].
  split; [exact Hrow|]. split; [exact Hnj|]. split; [reflexivity|].
  split; [exact Hs|].
  split; [intros q Hq; apply Hk in Hq as [Hq _]; lia|].
  split; [exact Hrep|].
  split.
  { intros q q' Hq Hq' Hdiff.
    destruct (Hrep q Hq) as (r & Hr1 & _ & Hr2).
    destruct (Hrep q' Hq') as (r' & Hr1' & _ & Hr2').
    cbn [take_rows nrows]. apply (two_members kept r r' Hr1 Hr1').
    intros <-. apply same_pair_sym in Hr2.
    rewrite (same_pair_trans joined q r q' Hr2 Hr2') in Hdiff. discriminate. }
  split.
  { intros i v Hi Hnone q j Hq Hix.
    assert (Hin : In (i, j) ix).
    { apply list_elem_of_In, list_elem_of_lookup. now exists q. }
    apply join_pairs_by_email in Hin as (v' & w & Hv' & Hw & E).
    rewrite Hi in Hv'. injection Hv' as <-.
    apply (Hnone w); [|now symmetry].
    apply list_elem_of_In, list_elem_of_lookup. now exists j. }
  intros q q' i j j' Hq Hq' Hi Hi'.
  pose proof (joined_pair_from_calendar _ _ _ _ _ _ Hm Elk Erk Hleft Hnorm
                q q' i j j' Hi Hi') as Hsame.
  destruct (Nat.lt_trichotomy q q') as [Hlt | [Heq | Hgt]]; [|exact Heq|].
  - apply Hk in Hq' as [_ Hf]. rewrite (Hf q Hlt) in Hsame. discriminate.
  - apply same_pair_sym in Hsame.
    apply Hk in Hq as [_ Hf]. rewrite (Hf q' Hgt) in Hsame. discriminate.
Qed.

Lemma compile_joins_on_email_key_witness :
  compile prints_missing two_session_calendar one_row_screener
  = Ok two_session_compiled
  /\ exists (merged joined : DataFrame) (kept : list nat),
       merge_stage prints_missing two_session_calendar one_row_screener
       = Ok merged
       /\ joined_stage prints_missing two_session_calendar one_row_screener
          = Ok joined
       /\ nrows merged = 2
       /\ StronglySorted lt kept
       /\ (forall q, In q kept -> q < 2)
       /\ (forall q, q < 2 -> exists r, In r kept /\ r <= q
                                        /\ same_pair joined r q = true).
Proof.
  split; [vm_compute; reflexivity|].
  destruct (compile_joins_on_email_key prints_missing two_session_calendar
              one_row_screener two_session_compiled)
    as (cal_std & left & right & merged & joined & ordered & kept
        & Hcal & _ & _ & _ & Hms & Hj & _ & Hall).
  - vm_compute. reflexivity.
  - cbv zeta in Hall.
    destruct Hall as (_ & _ & Hn & _ & _ & _ & _ & _ & _ & Hs & Hlt & Hrep & _).
    assert (En : length (join_indexers
                           (email_keys prints_missing (label_cells "EMAIL" cal_std))
                           (email_keys prints_missing
                              (label_cells "EMAIL" (screener_std one_row_screener))))
                 = 2).
    { vm_compute in Hcal. injection Hcal as <-. vm_compute. reflexivity. }
    rewrite En in Hn, Hlt, Hrep.
    exists merged, joined, kept.
    split; [exact Hms|]. split; [exact Hj|]. split; [exact Hn|].
    split; [exact Hs|]. split; [exact Hlt | exact Hrep].
Defined.

(** The claim C5 as it is worded fails for the compiled table: a calendar
    row whose key two screener rows share gives two merged rows, of which
    [drop_duplicates] keeps the first only, both having the pair of the one
    calendar row. *)
Lemma screener_fan_out_is_deduplicated :
  fan_out_left 0
    (join_indexers (email_keys prints_missing [Str "ann@x.com"])
                   (email_keys prints_missing [Str "ann@x.com"; Str "ANN@x.com"]))
  = 2
  /\ (try merged <- merge_stage prints_missing one_session_calendar
                       two_answer_screener;
      Ok (nrows merged)) = Ok 2
  /\ compile prints_missing one_session_calendar two_answer_screener
     = Ok one_session_compiled
  /\ compile keeps_missing one_session_calendar two_answer_screener
     = Ok one_session_compiled
  /\ ~ (forall (rule : astype_rule) (cal_df scr_df out merged : DataFrame),
           compile rule cal_df scr_df = Ok out ->
           merge_stage rule cal_df scr_df = Ok merged ->
           nrows out = nrows merged).
Proof.
  split; [vm_compute; reflexivity|].
  split; [vm_compute; reflexivity|].
  split; [vm_compute; reflexivity|].
  split; [vm_compute; reflexivity|].
  intros H.
  specialize (H prints_missing one_session_calendar two_answer_screener
                one_session_compiled
                (mkFrame 2
                   [ mkColumn "User name" [Str "Ann"; Str "Ann"];
                     mkColumn "EMAIL" [Str "ann@x.com"; Str "ann@x.com"];
                     mkColumn "Start Time" [Str "10:00"; Str "10:00"];
                     mkColumn "End Time" [NA; NA];
                     mkColumn "Task Link" [NA; NA];
                     mkColumn "Moderator Link" [NA; NA];
                     mkColumn "Observers Public Link" [NA; NA];
                     mkColumn "EMAIL_key" [Str "ann@x.com"; Str "ann@x.com"];
                     mkColumn "Q1" [Str "5"; Str "7"] ])).
  assert (E : 1 = 2); [|discriminate E].
  apply H; vm_compute; reflexivity.
Qed.

(** C6.  In a run that returns a table, the compiled table holds the rows
    of the joined table (the merged table without the linking columns, its
    User name cells normalized) at the positions [kept], under the columns
    of the joined table put in order.  The positions are in increasing
    order, the joined row order; a row is kept exactly when no earlier row
    holds its (User name, Start Time) pair, two missing values counting as
    the same value, so every dropped row has a kept row before it with its
    pair; and a kept row has the cells it had in the joined table, in every
    column. *)
Theorem compile_keeps_first_of_each_pair (rule : astype_rule)
        (cal_df scr_df out : DataFrame) :
  compile rule cal_df scr_df = Ok out ->
  exists (joined ordered : DataFrame) (kept : list nat),
    joined_stage rule cal_df scr_df = Ok joined
    /\ reorder joined = Ok ordered
    /\ (forall c, In c (cols ordered) -> In c (cols joined))
    /\ out = take_rows kept ordered
    /\ StronglySorted lt kept
    /\ (forall q, In q kept <->
                  (q < nrows joined
                   /\ forall q', q' < q -> same_pair joined q' q = false))
    /\ (forall q, q < nrows joined ->
                  exists r, In r kept /\ r <= q /\ same_pair joined r q = true)
    /\ (forall p q, kept !! p = Some q -> row_at out p = row_at ordered q).
Proof.
  intros H.
  destruct (compile_rows _ _ _ _ H)
    as (joined & ordered & kept & Hj & Ho & -> & Hs & Hk).
  exists joined, ordered, kept.
  split; [exact Hj|]. split; [exact Ho|].
  split.
  { intros c Hc. unfold reorder in Ho. now apply (selected_column _ _ _ _ Ho). }
  split; [reflexivity|]. split; [exact Hs|]. split; [exact Hk|].
  split; [now apply kept_representative|].
  intros p q Hp. now apply row_at_take_rows.
Qed.

Lemma compile_keeps_first_of_each_pair_witness :
  compile prints_missing repeated_calendar two_tester_screener
  = Ok repeated_compiled
  /\ exists (ordered : DataFrame) (kept : list nat),
       repeated_compiled = take_rows kept ordered
       /\ StronglySorted lt kept
       /\ In 0 kept /\ In 1 kept /\ ~ In 2 kept /\ In 3 kept.
Proof.
  split; [vm_compute; reflexivity|].
  destruct (compile_keeps_first_of_each_pair prints_missing repeated_calendar
              two_tester_screener repeated_compiled)
    as (joined & ordered & kept & Hj & _ & _ & Ho & Hs & Hk & _).
  - vm_compute. reflexivity.
  - vm_compute in Hj. injection Hj as <-.
    exists ordered, kept. split; [exact Ho|]. split; [exact Hs|].
    split; [|split; [|split]].
    + apply Hk. split; [cbn [nrows]; lia|]. intros q' Hq'. lia.
    + apply Hk. split; [cbn [nrows]; lia|].
      intros [|q'] Hq'; [reflexivity | lia].
    + intros Hin. apply Hk in Hin as [_ Hf].
      specialize (Hf 0 ltac:(lia)). discriminate Hf.
    + apply Hk. split; [cbn [nrows]; lia|].
      intros [|[|[|q']]] Hq'; [reflexivity | reflexivity | reflexivity | lia].
Defined.

(** C3, as amended.  The join pairs are exactly the pairs of a calendar
    row and a screener row whose EMAIL cells derive the same key, and a row
    is joined with every row of the other table that derives its key.  A
    missing or empty EMAIL derives a key like any other: where [astype(str)]
    prints missing values, a blank cell derives the text "nan" and a
    synthesized null the text "<na>"; where it keeps them missing, both
    derive the missing key, which [merge] pairs with itself; an empty text
    derives the empty text under either rule.  So a row with a missing or
    empty EMAIL is left out of the join only when no row of the other table
    derives that same key.  The table [pd.merge] returns in the pipeline
    has one row per such pair.  A calendar without EMAIL column and a
    screener with a blank EMAIL give no row under the first rule and one
    row under the second. *)
Theorem blank_email_rows_join_on_their_key (rule : astype_rule)
        (cal_email scr_email : list cell) :
  (forall i j,
      In (i, j) (join_indexers (email_keys rule cal_email)
                               (email_keys rule scr_email))
      <-> exists v w, cal_email !! i = Some v /\ scr_email !! j = Some w
                      /\ email_key rule v = email_key rule w)
  /\ (forall i v, cal_email !! i = Some v ->
                  fan_out_left i (join_indexers (email_keys rule cal_email)
                                                (email_keys rule scr_email))
                  = count_key (email_key rule v) (email_keys rule scr_email))
  /\ (forall j w, scr_email !! j = Some w ->
                  fan_out_right j (join_indexers (email_keys rule cal_email)
                                                 (email_keys rule scr_email))
                  = count_key (email_key rule w) (email_keys rule cal_email))
  /\ (forall i v, cal_email !! i = Some v -> null_or_empty v = true ->
                  (forall w, In w scr_email ->
                             email_key rule w <> email_key rule v) ->
                  fan_out_left i (join_indexers (email_keys rule cal_email)
                                                (email_keys rule scr_email)) = 0)
  /\ (forall j w, scr_email !! j = Some w -> null_or_empty w = true ->
                  (forall v, In v cal_email ->
                             email_key rule v <> email_key rule w) ->
                  fan_out_right j (join_indexers (email_keys rule cal_email)
                                                 (email_keys rule scr_email)) = 0)
  /\ email_key prints_missing NaN = Str "nan"
  /\ email_key prints_missing NA = Str "<na>"
  /\ email_key keeps_missing NaN = NaN
  /\ email_key keeps_missing NA = NaN
  /\ email_key rule (Str EmptyString) = Str EmptyString
  /\ (forall cal_df scr_df merged,
         merge_stage rule cal_df scr_df = Ok merged ->
         exists cal_std,
           calendar_std cal_df = Ok cal_std
           /\ nrows merged
              = length (join_indexers
                          (email_keys rule (label_cells "EMAIL" cal_std))
                          (email_keys rule
                             (label_cells "EMAIL" (screener_std scr_df)))))
  /\ compile prints_missing no_email_calendar blank_email_screener
     = Ok no_session_compiled
  /\ compile keeps_missing no_email_calendar blank_email_screener
     = Ok one_session_compiled.
Proof.
  split; [intros i j; apply join_pairs_by_email|].
  split; [intros i v; apply fan_out_left_email|].
  split; [intros j w; apply fan_out_right_email|].
  split.
  { intros i v Hi _ Hnone. rewrite (fan_out_left_email _ _ _ _ _ Hi).
    apply count_key_zero. now apply no_key_among. }
  split.
  { intros j w Hj _ Hnone. rewrite (fan_out_right_email _ _ _ _ _ Hj).
    apply count_key_zero. now apply no_key_among. }
  do 4 (split; [reflexivity|]).
  split; [now destruct rule|].
  split.
  { intros cal_df scr_df merged Hms.
    destruct (merge_stage_inv _ _ _ _ Hms)
      as (cal_std & left & right & Hcal & _ & _ & Hm & _ & Elk & Erk).
    exists cal_std. split; [exact Hcal|].
    destruct (merge_inner_rows _ _ _ _ Hm) as (lk & rk & El & Er & Hn & _).
    rewrite Elk in El. injection El as <-.
    rewrite Erk in Er. injection Er as <-. exact Hn. }
  split; vm_compute; reflexivity.
Qed.

Lemma blank_email_rows_join_on_their_key_witness :
  fan_out_left 0 (join_indexers (email_keys prints_missing [NaN])
                                (email_keys prints_missing [Str "ann@x.com"])) = 0
  /\ fan_out_right 0 (join_indexers (email_keys keeps_missing [Str "ann@x.com"])
                                    (email_keys keeps_missing [Str EmptyString]))
     = 0
  /\ fan_out_left 0 (join_indexers (email_keys keeps_missing [NA])
                                   (email_keys keeps_missing [NaN; NaN])) = 2.
Proof.
  split; [|split].
  - destruct (blank_email_rows_join_on_their_key prints_missing
                [NaN] [Str "ann@x.com"]) as (_ & _ & _ & H & _).
    apply (H 0 NaN); [reflexivity | reflexivity|].
    intros w [<- | []]. discriminate.
  - destruct (blank_email_rows_join_on_their_key keeps_missing
                [Str "ann@x.com"] [Str EmptyString]) as (_ & _ & _ & _ & H & _).
    apply (H 0 (Str EmptyString)); [reflexivity | reflexivity|].
    intros v [<- | []]. discriminate.
  - destruct (blank_email_rows_join_on_their_key keeps_missing
                [NA] [NaN; NaN]) as (_ & H & _).
    rewrite (H 0 NA eq_refl). reflexivity.
Defined.

(** The claim C3 as it is worded fails under either rule: a calendar row
    and a screener row whose EMAIL cells are both blank derive the same
    key, are joined, and the compiled table holds the row. *)
Lemma blank_email_rows_are_joined :
  ~ (forall (cal_email scr_email : list cell) (i j : nat) (v : cell),
        In (i, j) (join_indexers (email_keys prints_missing cal_email)
                                 (email_keys prints_missing scr_email)) ->
        cal_email !! i = Some v -> null_or_empty v = false)
  /\ ~ (forall (cal_email scr_email : list cell) (i j : nat) (v : cell),
           In (i, j) (join_indexers (email_keys keeps_missing cal_email)
                                    (email_keys keeps_missing scr_email)) ->
           cal_email !! i = Some v -> null_or_empty v = false)
  /\ compile prints_missing blank_email_calendar blank_email_screener
     = Ok one_session_compiled
  /\ compile keeps_missing blank_email_calendar blank_email_screener
     = Ok one_session_compiled.
Proof.
  split; [|split; [|split; vm_compute; reflexivity]].
  - intros H. specialize (H [NaN] [NaN] 0 0 NaN).
    assert (E : null_or_empty NaN = false); [|discriminate E].
    apply H; [vm_compute; now left | reflexivity].
  - intros H. specialize (H [NaN] [NaN] 0 0 NaN).
    assert (E : null_or_empty NaN = false); [|discriminate E].
    apply H; [vm_compute; now left | reflexivity].
Qed.

(** X15.  When no EMAIL cell of the normalized calendar derives the same
    key as an EMAIL cell of the normalized screener, a table the pipeline
    returns has no rows: an empty join is not an error.  Under the rule
    that keeps missing values missing, two missing EMAIL cells derive the
    same key. *)
Theorem compile_empty_join (rule : astype_rule) (cal_df scr_df out : DataFrame) :
  compile rule cal_df scr_df = Ok out ->
  (forall v w,
      In v (label_cells "EMAIL"
              (coalesce_columns (strip_headers cal_df) cal_targets)) ->
      In w (label_cells "EMAIL"
              (coalesce_columns (strip_headers scr_df) scr_targets)) ->
      email_key rule v <> email_key rule w) ->
  nrows out = 0.
Proof.
  intros H Hkeys.
  destruct (compile_rows _ _ _ _ H)
    as (joined & ordered & kept & Hj & Ho & -> & Hs & Hk).
  destruct (joined_stage_inv _ _ _ _ Hj) as (merged & Hms & _ & Hrows).
  destruct (merge_stage_inv _ _ _ _ Hms)
    as (cal_std & left & right & Hcal & _ & _ & Hm & _ & Elk & Erk).
  destruct (merge_inner_rows _ _ _ _ Hm) as (lk & rk & El & Er & Hn & _).
  rewrite Elk in El. injection El as <-.
  rewrite Erk in Er. injection Er as <-.
  rewrite join_indexers_nil in Hn.
  - cbn [take_rows nrows]. destruct kept as [|q kept]; [reflexivity|].
    exfalso. assert (Hq : In q (q :: kept)) by now left.
    apply Hk in Hq as [Hq _]. simpl in Hn. lia.
  - intros k Hl Hr. unfold email_keys in Hl, Hr.
    apply in_map_iff in Hl as (v & <- & Hv).
    apply in_map_iff in Hr as (w & Ew & Hw).
    apply (Hkeys v w); [| |now symmetry].
    + rewrite calendar_std_eq in Hcal.
      unfold label_cells in Hv |- *. apply in_flat_map in Hv as (c & Hc & Hv).
      apply in_flat_map. exists c. split; [|exact Hv].
      apply filter_In in Hc as [Hc Hn']. apply filter_In. split; [|exact Hn'].
      now apply (selected_column _ _ _ _ Hcal).
    + now rewrite <- screener_std_eq.
Qed.

Lemma compile_empty_join_witness :
  exists out, compile keeps_missing spec_calendar other_email_screener = Ok out
              /\ nrows out = 0.
Proof.
  eexists. split; [vm_compute; reflexivity|].
  apply (compile_empty_join keeps_missing spec_calendar other_email_screener).
  - vm_compute. reflexivity.
  - intros v w Hv Hw. vm_compute in Hv, Hw.
    destruct Hv as [<- | []]. destruct Hw as [<- | []]. discriminate.
Defined.
